(** * cpp-concepts: the OpenGL "hello world" exercises

    A shallow embedding of the shader-source splitter
    ([ParseShader], ex02_DrawTwoRectangles.cpp), of the compile helper
    ([CompileShader], same file), of the [Shader] wrapper class
    (ex03_Shaders/shader.cpp) and of the [main] functions of
    ex03_Shaders/main.cpp and HelloWorld_GL/HelloWorld_GL.cpp.

    The splitter is a pure function of the file system.  Code that talks to
    GLFW and to the GL is an interaction tree over the calls it performs; the
    answers of the window system and of the driver are the environment's. *)

From Stdlib Require Import String Ascii List ZArith QArith Lia.
From ITree Require Import ITree ITreeFacts Events.State Events.StateFacts.
From stdpp Require Import base option list gmap strings.

Local Open Scope Z_scope.

(** ** Strings and streams *)

(** ['\n'] *)
Definition LF : ascii := Ascii.ascii_of_nat 10.
Definition nl : string := String LF "".

(** [std::string::find]: position of the first occurrence of [pat] in [s];
    [None] is [std::string::npos]. *)
Definition npos : option nat := None.
Definition find (s pat : string) : option nat := String.index 0 pat s.

(** [s.find(pat) != std::string::npos] *)
Definition found (s pat : string) : bool := bool_decide (find s pat <> npos).

(** The lines that successive calls of [std::getline(stream, line)] deliver
    on a stream holding [s], until the call that fails: a line ends at ['\n']
    (which is dropped) or at the end of the stream; at the end of the stream
    with no character left the call fails, so a final ['\n'] opens no empty
    last line. *)
Fixpoint getlines (s : string) : list string :=
  match s with
  | EmptyString => []
  | String c s' =>
      if Ascii.eqb c LF then "" :: getlines s'
      else match getlines s' with
           | [] => [String c ""]
           | line :: rest => String c line :: rest
           end
  end.

(** A character of [s] is ['\n']. *)
Fixpoint has_LF (s : string) : bool :=
  match s with
  | EmptyString => false
  | String c s' => Ascii.eqb c LF || has_LF s'
  end.

(** A file system: the content of each path that [std::ifstream] can open. *)
Definition FileSystem := gmap string string.

(** ** ex02_DrawTwoRectangles.cpp: [ParseShader] *)

Record ShaderProgramSource := {
  VertexSource : string;
  FragmentSource : string
}.

Inductive ShaderType := NONE | VERTEX | FRAGMENT.

(** [(int)type] *)
Definition ShaderType_int (t : ShaderType) : Z :=
  match t with
  | NONE => -1
  | VERTEX => 0
  | FRAGMENT => 1
  end.

#[global] Instance ShaderType_eq_dec : EqDecision ShaderType.
Proof. solve_decision. Defined.

(** The loop's variables: [type] and the two string streams [ss]. *)
Definition ParseState : Type := ShaderType * list string.

(** [std::stringstream ss[2]; ShaderType type = ShaderType::NONE;] *)
Definition ParseState_init : ParseState := (NONE, [""; ""]).

(** [ss[(int)type] << line << '\n'] *)
Definition ss_write (ss : list string) (type : ShaderType) (line : string) : list string :=
  alter (fun buf => buf +:+ line +:+ nl) (Z.to_nat (ShaderType_int type)) ss.

(** One iteration of [while (std::getline(stream, line))]. *)
Definition loop_body (st : ParseState) (line : string) : ParseState :=
  let '(type, ss) := st in
  if found line "#shader" then
    if found line "vertex" then (VERTEX, ss)
    else if found line "fragment" then (FRAGMENT, ss)
    else (type, ss)
  else
    if bool_decide (type <> NONE) then (type, ss_write ss type line)
    else (type, ss).

Definition parse_lines (lines : list string) : ParseState :=
  foldl loop_body ParseState_init lines.

(** [return { ss[0].str(), ss[1].str() };] *)
Definition ParseState_result (st : ParseState) : ShaderProgramSource :=
  {| VertexSource := st.2 !!! 0%nat; FragmentSource := st.2 !!! 1%nat |}.

(** The lines read from [std::ifstream stream(filePath)]: on a stream that
    is not open the first [std::getline] fails. *)
Definition stream_lines (fs : FileSystem) (filePath : string) : list string :=
  match fs !! filePath with
  | Some content => getlines content
  | None => []
  end.

(** [ParseShader]: what it writes to [std::cerr], and what it returns. *)
Definition ParseShader (fs : FileSystem) (filePath : string) : string * ShaderProgramSource :=
  let cerr :=
    if bool_decide (fs !! filePath = None)
    then "Failed to open shader file: " +:+ filePath +:+ nl
    else "" in
  (cerr, ParseState_result (parse_lines (stream_lines fs filePath))).

(** *** Vocabulary of the splitter's specification *)

(** A marker line holds the token ["#shader"]. *)
Definition marker_line (line : string) : bool := found line "#shader".

(** A marker line that selects the vertex stage. *)
Definition vertex_marker (line : string) : bool :=
  found line "#shader" && found line "vertex".

(** A marker line that selects the fragment stage: the test for ["vertex"]
    comes first in the source. *)
Definition fragment_marker (line : string) : bool :=
  found line "#shader" && negb (found line "vertex") && found line "fragment".

(** Each line followed by ['\n'], as [ss[i] << line << '\n'] writes them. *)
Definition newline_terminated (lines : list string) : string :=
  foldr (fun line text => line +:+ nl +:+ text) "" lines.

(** The specification's "newline-joined": the lines with ['\n'] between. *)
Definition newline_joined (lines : list string) : string :=
  String.concat nl lines.

(** A file with the two sections, of one line each. *)
Definition Basic_shader : string :=
  "#shader vertex" +:+ nl +:+ "a" +:+ nl +:+ "#shader fragment" +:+ nl +:+ "b" +:+ nl.

(** ** Calls to GLFW, to the GL and to the C++ streams *)

Definition GLuint := Z.
Definition GLint := Z.
Definition GLsizei := Z.

(** A [float] is held as the rational its literal denotes; the programs
    only pass floats on. *)
Definition GLfloat := Q.

(** [GLFWwindow*], other than [nullptr]. *)
Definition GLFWwindow := Z.

Inductive GLFWhint :=
  GLFW_CONTEXT_VERSION_MAJOR | GLFW_CONTEXT_VERSION_MINOR | GLFW_OPENGL_PROFILE.

Inductive GLFWvalue := GLFW_OPENGL_CORE_PROFILE | GLFW_int (n : Z).

Inductive GLFWkey := GLFW_KEY_ESCAPE.

Inductive GLFWaction := GLFW_RELEASE | GLFW_PRESS | GLFW_REPEAT.

Inductive GLenum :=
  | GL_VERTEX_SHADER | GL_FRAGMENT_SHADER
  | GL_COMPILE_STATUS | GL_LINK_STATUS
  | GL_ARRAY_BUFFER | GL_ELEMENT_ARRAY_BUFFER | GL_STATIC_DRAW
  | GL_FLOAT | GL_UNSIGNED_INT | GL_TRIANGLES | GL_COLOR_BUFFER_BIT.

#[global] Instance GLenum_eq_dec : EqDecision GLenum.
Proof. solve_decision. Defined.

Definition GL_FALSE : Z := 0.
Definition GL_TRUE : Z := 1.

Record vec3 := Vec3 { v3x : GLfloat; v3y : GLfloat; v3z : GLfloat }.
Record vec4 := Vec4 { v4x : GLfloat; v4y : GLfloat; v4z : GLfloat; v4w : GLfloat }.

(** [glm::mat4]: sixteen floats, as [glm::value_ptr] exposes them. *)
Definition mat4 := list GLfloat.

(** The array handed to [glBufferData]. *)
Inductive BufferData :=
  | FloatData (data : list GLfloat)
  | UintData (data : list Z).

(** Window system and loader. *)
Variant windowE : Type -> Type :=
  | GlfwInit : windowE bool
  | GlfwWindowHint (hint : GLFWhint) (value : GLFWvalue) : windowE unit
  | GlfwCreateWindow (width height : Z) (title : string) : windowE (option GLFWwindow)
  | GlfwTerminate : windowE unit
  | GlfwMakeContextCurrent (window : GLFWwindow) : windowE unit
  | GlfwSetFramebufferSizeCallback (window : GLFWwindow) : windowE unit
  | GladLoadGLLoader : windowE bool
  | GlfwWindowShouldClose (window : GLFWwindow) : windowE bool
  | GlfwGetKey (window : GLFWwindow) (key : GLFWkey) : windowE GLFWaction
  | GlfwSetWindowShouldClose (window : GLFWwindow) (value : bool) : windowE unit
  | GlfwSwapBuffers (window : GLFWwindow) : windowE unit
  | GlfwPollEvents : windowE unit.

(** Vertex data and drawing.  [glGenVertexArrays(1, &x)] and
    [glGenBuffers(1, &x)] answer the name written to [x]. *)
Variant drawE : Type -> Type :=
  | GlViewport (x y width height : Z) : drawE unit
  | GlGenVertexArrays (n : GLsizei) : drawE GLuint
  | GlBindVertexArray (array : GLuint) : drawE unit
  | GlGenBuffers (n : GLsizei) : drawE GLuint
  | GlBindBuffer (target : GLenum) (buffer : GLuint) : drawE unit
  | GlBufferData (target : GLenum) (size : Z) (data : BufferData) (usage : GLenum) : drawE unit
  | GlVertexAttribPointer (index : GLuint) (size : GLint) (type : GLenum)
      (normalized : Z) (stride : GLsizei) (pointer : Z) : drawE unit
  | GlEnableVertexAttribArray (index : GLuint) : drawE unit
  | GlClearColor (r g b a : GLfloat) : drawE unit
  | GlClear (mask : GLenum) : drawE unit
  | GlDrawArrays (mode : GLenum) (first : GLint) (count : GLsizei) : drawE unit
  | GlDrawElements (mode : GLenum) (count : GLsizei) (type : GLenum) (indices : Z) : drawE unit.

(** Shader objects, program objects and uniforms.  [glGetShaderiv] and
    [glGetProgramiv] answer the value written to [params],
    [glGet*InfoLog] the text written to the buffer. *)
Variant shaderE : Type -> Type :=
  | GlCreateShader (type : GLenum) : shaderE GLuint
  | GlShaderSource (shader : GLuint) (source : list string) : shaderE unit
  | GlCompileShader (shader : GLuint) : shaderE unit
  | GlGetShaderiv (shader : GLuint) (pname : GLenum) : shaderE GLint
  | GlGetShaderInfoLog (shader : GLuint) (bufSize : GLsizei) : shaderE string
  | GlCreateProgram : shaderE GLuint
  | GlAttachShader (program shader : GLuint) : shaderE unit
  | GlLinkProgram (program : GLuint) : shaderE unit
  | GlGetProgramiv (program : GLuint) (pname : GLenum) : shaderE GLint
  | GlGetProgramInfoLog (program : GLuint) (bufSize : GLsizei) : shaderE string
  | GlDeleteShader (shader : GLuint) : shaderE unit
  | GlDeleteProgram (program : GLuint) : shaderE unit
  | GlUseProgram (program : GLuint) : shaderE unit
  | GlGetUniformLocation (program : GLuint) (name : string) : shaderE GLint
  | GlUniform1f (location : GLint) (v0 : GLfloat) : shaderE unit
  | GlUniform3fv (location : GLint) (count : GLsizei) (value : list vec3) : shaderE unit
  | GlUniform4f (location : GLint) (v0 v1 v2 v3 : GLfloat) : shaderE unit
  | GlUniformMatrix4fv (location : GLint) (count : GLsizei) (transpose : Z)
      (value : list mat4) : shaderE unit.

Arguments GlClearColor (r g b a)%_Q.
Arguments Vec3 (v3x v3y v3z)%_Q.
Arguments Vec4 (v4x v4y v4z v4w)%_Q.

(** C++ streams.  [IfstreamRead path] is [std::ifstream f(path)] followed by
    [s << f.rdbuf()]: the whole content, [None] when the file is not open. *)
Variant ioE : Type -> Type :=
  | IfstreamRead (path : string) : ioE (option string)
  | Cerr (text : string) : ioE unit
  | Cout (text : string) : ioE unit.

(** What the [Shader] class and [CompileShader] call. *)
Definition glslE : Type -> Type := shaderE +' ioE.

(** What a [main] calls. *)
Definition appE : Type -> Type := windowE +' drawE +' glslE.

#[global] Instance itree_mret {E} : MRet (itree E) := fun _ r => Ret r.
#[global] Instance itree_mbind {E} : MBind (itree E) := fun _ _ k t => ITree.bind t k.

Definition gl {A} (e : shaderE A) : itree glslE A := ITree.trigger (inl1 e).
Definition io {A} (e : ioE A) : itree glslE A := ITree.trigger (inr1 e).

Definition glfw {A} (e : windowE A) : itree appE A := ITree.trigger (inl1 e).
Definition draw {A} (e : drawE A) : itree appE A := ITree.trigger (inr1 (inl1 e)).
Definition glsl {A} (t : itree glslE A) : itree appE A :=
  translate (fun _ e => inr1 (inr1 e)) t.

(** [!success] on an [int] *)
Definition not_ (success : GLint) : bool := bool_decide (success = 0).
Arguments not_ : simpl never.

(** [std::string::c_str()] as the GL reads it, as a source text with a null
    length or as a name: the characters before the first NUL. *)
Fixpoint c_str (s : string) : string :=
  match s with
  | EmptyString => ""
  | String c rest => if Ascii.eqb c Ascii.zero then "" else String c (c_str rest)
  end.

(** ** ex02_DrawTwoRectangles.cpp: [CompileShader] *)

Definition CompileShader (shaderSource : string) (shaderType : GLenum) : itree glslE GLuint :=
  shader ← gl (GlCreateShader shaderType);
  gl (GlShaderSource shader [shaderSource]);;
  gl (GlCompileShader shader);;
  success ← gl (GlGetShaderiv shader GL_COMPILE_STATUS);
  (if bool_decide (success = GL_FALSE) then
     infoLog ← gl (GlGetShaderInfoLog shader 512);
     io (Cerr ("Shader error:" +:+ nl +:+ infoLog +:+ nl))
   else mret tt);;
  mret shader.

(** ** ex03_Shaders/shader.cpp: the [Shader] class *)

Module Shader.

Record t := { ID : GLuint }.


Definition checkCompileErrors (shader : GLuint) (type : string) : itree glslE unit :=
  if bool_decide (type <> "PROGRAM") then
    success ← gl (GlGetShaderiv shader GL_COMPILE_STATUS);
    if not_ success then
      log ← gl (GlGetShaderInfoLog shader 1024);
      io (Cerr ("SHADER COMPILE ERROR [" +:+ type +:+ "]:" +:+ nl +:+ log +:+ nl))
    else mret tt
  else
    success ← gl (GlGetProgramiv shader GL_LINK_STATUS);
    if not_ success then
      log ← gl (GlGetProgramInfoLog shader 1024);
      io (Cerr ("PROGRAM LINK ERROR:" +:+ nl +:+ log +:+ nl))
    else mret tt.

(** [Shader::Shader(vertexPath, fragmentPath)] *)
Definition new (vertexPath fragmentPath : string) : itree glslE t :=
  vFile ← io (IfstreamRead vertexPath);
  fFile ← io (IfstreamRead fragmentPath);
  let vertCode := default "" vFile in
  let fragCode := default "" fFile in
  let vSrc := c_str vertCode in
  let fSrc := c_str fragCode in
  vert ← gl (GlCreateShader GL_VERTEX_SHADER);
  gl (GlShaderSource vert [vSrc]);;
  gl (GlCompileShader vert);;
  checkCompileErrors vert "VERTEX";;
  frag ← gl (GlCreateShader GL_FRAGMENT_SHADER);
  gl (GlShaderSource frag [fSrc]);;
  gl (GlCompileShader frag);;
  checkCompileErrors frag "FRAGMENT";;
  ID ← gl GlCreateProgram;
  gl (GlAttachShader ID vert);;
  gl (GlAttachShader ID frag);;
  gl (GlLinkProgram ID);;
  checkCompileErrors ID "PROGRAM";;
  gl (GlDeleteShader vert);;
  gl (GlDeleteShader frag);;
  mret {| ID := ID |}.

Definition setFloat (this : t) (name : string) (value : GLfloat) : itree glslE unit :=
  location ← gl (GlGetUniformLocation (ID this) (c_str name));
  gl (GlUniform1f location value).

Definition setVec3 (this : t) (name : string) (v : vec3) : itree glslE unit :=
  location ← gl (GlGetUniformLocation (ID this) (c_str name));
  gl (GlUniform3fv location 1 [v]).

Definition setMat4 (this : t) (name : string) (m : mat4) : itree glslE unit :=
  location ← gl (GlGetUniformLocation (ID this) (c_str name));
  gl (GlUniformMatrix4fv location 1 GL_FALSE [m]).

Definition setVec4 (this : t) (name : string) (v : vec4) : itree glslE unit :=
  location ← gl (GlGetUniformLocation (ID this) (c_str name));
  gl (GlUniform4f location (v4x v) (v4y v) (v4z v) (v4w v)).

(** Modelled from the spec: shader.h is not among the sources.  The
    tutorial's shader.h has [void use() const { glUseProgram(ID); }]. *)
Definition use (this : t) : itree glslE unit :=
  gl (GlUseProgram (ID this)).

(** Modelled from the spec: shader.h is not among the sources.  The program
    handle is "released when the wrapper is destroyed"; the tutorial's
    shader.h has [~Shader() { glDeleteProgram(ID); }]. *)
Definition delete (this : t) : itree glslE unit :=
  gl (GlDeleteProgram (ID this)).

End Shader.

Definition stdio {A} (e : ioE A) : itree appE A := ITree.trigger (inr1 (inr1 (inr1 e))).
Definition glcall {A} (e : shaderE A) : itree appE A := ITree.trigger (inr1 (inr1 (inl1 e))).

(** [while (!cond) { body }] *)
Definition while_not {E} (cond : itree E bool) (body : itree E unit) : itree E unit :=
  ITree.iter (fun _ : unit =>
    stop ← cond;
    if stop : bool then mret (inr tt)
    else body;; mret (inl tt)) tt.

(** ** ex03_Shaders/main.cpp *)

Module Ex03.

Definition vertices : list GLfloat := [
  (* rectangle 1 (left) *)
  -0.9; -0.5; 0.0;
  -0.1; -0.5; 0.0;
  -0.1;  0.5; 0.0;
  -0.9;  0.5; 0.0;
  (* rectangle 2 (right) *)
   0.1; -0.5; 0.0;
   0.9; -0.5; 0.0;
   0.9;  0.5; 0.0;
   0.1;  0.5; 0.0 ]%Q.

Definition indices : list Z := [
  0; 1; 2;
  2; 3; 0;
  4; 5; 6;
  6; 7; 4 ].

Definition sizeof_float : Z := 4.
Definition sizeof_unsigned_int : Z := 4.

Definition render_loop (window : GLFWwindow) (VAO : GLuint) (shader : Shader.t)
  : itree appE unit :=
  while_not (glfw (GlfwWindowShouldClose window))
    (draw (GlClearColor 0.1 0.15 0.15 1.0);;
     draw (GlClear GL_COLOR_BUFFER_BIT);;
     glsl (Shader.use shader);;
     draw (GlBindVertexArray VAO);;
     glsl (Shader.setVec4 shader "uColor" (Vec4 0.0 0.0 1.0 1.0));;
     draw (GlDrawElements GL_TRIANGLES 6 GL_UNSIGNED_INT 0);;
     glsl (Shader.setVec4 shader "uColor" (Vec4 1.0 0.0 0.0 1.0));;
     draw (GlDrawElements GL_TRIANGLES 6 GL_UNSIGNED_INT (6 * sizeof_unsigned_int));;
     glfw (GlfwSwapBuffers window);;
     glfw GlfwPollEvents).

(** [main], and the value it returns. *)
Definition main : itree appE Z :=
  ok ← glfw GlfwInit;
  if negb ok then
    stdio (Cerr ("Failed to initialize GLFW" +:+ nl));;
    mret (-1)
  else
  glfw (GlfwWindowHint GLFW_CONTEXT_VERSION_MAJOR (GLFW_int 3));;
  glfw (GlfwWindowHint GLFW_CONTEXT_VERSION_MINOR (GLFW_int 3));;
  glfw (GlfwWindowHint GLFW_OPENGL_PROFILE GLFW_OPENGL_CORE_PROFILE);;
  window ← glfw (GlfwCreateWindow 800 600 "Shaders in OpenGL");
  match window with
  | None =>
      stdio (Cerr ("Failed to create GLFW window" +:+ nl));;
      glfw GlfwTerminate;;
      mret (-1)
  | Some window =>
  glfw (GlfwMakeContextCurrent window);;
  loaded ← glfw GladLoadGLLoader;
  if negb loaded then
    stdio (Cerr ("Failed to initialize GLAD" +:+ nl));;
    mret (-1)
  else
  draw (GlViewport 0 0 800 600);;
  VAO ← draw (GlGenVertexArrays 1);
  draw (GlBindVertexArray VAO);;
  VBO ← draw (GlGenBuffers 1);
  draw (GlBindBuffer GL_ARRAY_BUFFER VBO);;
  EBO ← draw (GlGenBuffers 1);
  draw (GlBindBuffer GL_ELEMENT_ARRAY_BUFFER EBO);;
  draw (GlBufferData GL_ELEMENT_ARRAY_BUFFER (12 * sizeof_unsigned_int)
          (UintData indices) GL_STATIC_DRAW);;
  draw (GlBufferData GL_ARRAY_BUFFER (24 * sizeof_float)
          (FloatData vertices) GL_STATIC_DRAW);;
  draw (GlVertexAttribPointer 0 3 GL_FLOAT GL_FALSE (3 * sizeof_float) 0);;
  draw (GlEnableVertexAttribArray 0);;
  draw (GlBindVertexArray 0);;
  shader ← glsl (Shader.new "vertex.shader" "fragment.shader");
  render_loop window VAO shader;;
  glfw GlfwTerminate;;
  stdio (Cout ("Hello World!" +:+ nl));;
  glsl (Shader.delete shader);;
  mret 0
  end.

End Ex03.

(** ** HelloWorld_GL/HelloWorld_GL.cpp *)

Module HelloWorldGL.

Definition vertexShaderSource : string :=
  nl +:+
  "    #version 330 core" +:+ nl +:+
  "    layout (location = 0) in vec3 aPos;  // Input: vertex position" +:+ nl +:+
  nl +:+
  "    void main() {" +:+ nl +:+
  "        // gl_Position is the built-in output: clip-space position" +:+ nl +:+
  "        gl_Position = vec4(aPos, 1.0);" +:+ nl +:+
  "    }" +:+ nl.

Definition fragmentShaderSource : string :=
  nl +:+
  "    #version 330 core" +:+ nl +:+
  "    out vec4 FragColor;  // Output: RGBA color" +:+ nl +:+
  nl +:+
  "    void main() {" +:+ nl +:+
  "        FragColor = vec4(1.0, 0.5, 0.2, 1.0);  // Orange" +:+ nl +:+
  "    }" +:+ nl.

Definition vertices : list GLfloat := [
  -0.5; -0.5; 0.0;
   0.5; -0.5; 0.0;
   0.0;  0.5; 0.0 ]%Q.

Definition sizeof_float : Z := 4.

(** GLFW calls it from [glfwPollEvents] when the window is resized. *)
Definition framebuffer_size_callback (window : GLFWwindow) (width height : Z)
  : itree appE unit :=
  draw (GlViewport 0 0 width height).

Definition processInput (window : GLFWwindow) : itree appE unit :=
  key ← glfw (GlfwGetKey window GLFW_KEY_ESCAPE);
  match key with
  | GLFW_PRESS => glfw (GlfwSetWindowShouldClose window true)
  | _ => mret tt
  end.

Definition render_loop (window : GLFWwindow) (VAO shaderProgram : GLuint)
  : itree appE unit :=
  while_not (glfw (GlfwWindowShouldClose window))
    (processInput window;;
     draw (GlClearColor 0.1 0.15 0.15 1.0);;
     draw (GlClear GL_COLOR_BUFFER_BIT);;
     glcall (GlUseProgram shaderProgram);;
     draw (GlBindVertexArray VAO);;
     draw (GlDrawArrays GL_TRIANGLES 0 3);;
     glfw (GlfwSwapBuffers window);;
     glfw GlfwPollEvents).

Definition main : itree appE Z :=
  ok ← glfw GlfwInit;
  if negb ok then
    stdio (Cerr ("Failed to initialize GLFW" +:+ nl));;
    mret (-1)
  else
  glfw (GlfwWindowHint GLFW_CONTEXT_VERSION_MAJOR (GLFW_int 3));;
  glfw (GlfwWindowHint GLFW_CONTEXT_VERSION_MINOR (GLFW_int 3));;
  glfw (GlfwWindowHint GLFW_OPENGL_PROFILE GLFW_OPENGL_CORE_PROFILE);;
  window ← glfw (GlfwCreateWindow 800 600 "Hello OpenGL");
  match window with
  | None =>
      stdio (Cerr ("Failed to create GLFW window" +:+ nl));;
      glfw GlfwTerminate;;
      mret (-1)
  | Some window =>
  glfw (GlfwMakeContextCurrent window);;
  glfw (GlfwSetFramebufferSizeCallback window);;
  loaded ← glfw GladLoadGLLoader;
  if negb loaded then
    stdio (Cerr ("Failed to initialize GLAD" +:+ nl));;
    mret (-1)
  else
  draw (GlViewport 0 0 800 600);;
  VAO ← draw (GlGenVertexArrays 1);
  draw (GlBindVertexArray VAO);;
  VBO ← draw (GlGenBuffers 1);
  draw (GlBindBuffer GL_ARRAY_BUFFER VBO);;
  draw (GlBufferData GL_ARRAY_BUFFER (9 * sizeof_float)
          (FloatData vertices) GL_STATIC_DRAW);;
  draw (GlVertexAttribPointer 0 3 GL_FLOAT GL_FALSE (3 * sizeof_float) 0);;
  draw (GlEnableVertexAttribArray 0);;
  draw (GlBindVertexArray 0);;
  vertexShader ← glcall (GlCreateShader GL_VERTEX_SHADER);
  glcall (GlShaderSource vertexShader [vertexShaderSource]);;
  glcall (GlCompileShader vertexShader);;
  success ← glcall (GlGetShaderiv vertexShader GL_COMPILE_STATUS);
  (if not_ success then
     infoLog ← glcall (GlGetShaderInfoLog vertexShader 512);
     stdio (Cerr ("Vertex shader error:" +:+ nl +:+ infoLog +:+ nl))
   else mret tt);;
  fragmentShader ← glcall (GlCreateShader GL_FRAGMENT_SHADER);
  glcall (GlShaderSource fragmentShader [fragmentShaderSource]);;
  glcall (GlCompileShader fragmentShader);;
  shaderProgram ← glcall GlCreateProgram;
  glcall (GlAttachShader shaderProgram vertexShader);;
  glcall (GlAttachShader shaderProgram fragmentShader);;
  glcall (GlLinkProgram shaderProgram);;
  glcall (GlDeleteShader vertexShader);;
  glcall (GlDeleteShader fragmentShader);;
  render_loop window VAO shaderProgram;;
  glfw GlfwTerminate;;
  mret 0
  end.

End HelloWorldGL.

(** ** Runs *)

(** A call together with the answer the environment gave. *)
Variant Answered (E : Type -> Type) : Type :=
  | answered {A : Type} (e : E A) (a : A).
Arguments answered {E A} e a.

(** [run t calls r]: [t] performs [calls], in this order and with these
    answers, and then returns [r]. *)
Inductive run {E : Type -> Type} {R : Type} : itree E R -> list (Answered E) -> R -> Prop :=
  | run_Ret t r :
      observe t = RetF r -> run t [] r
  | run_Tau t t' calls r :
      observe t = TauF t' -> run t' calls r -> run t calls r
  | run_Vis t A (e : E A) k (a : A) calls r :
      observe t = VisF e k -> run (k a) calls r -> run t (answered e a :: calls) r.

(** ** The GL's shader, program and uniform state

    The driver is not code of this repository.  The state below follows the
    OpenGL 3.3 core specification for the calls of [shaderE]: shader objects
    (section 2.11.1), program objects (2.11.2) and uniform variables
    (2.11.4).  The error flag of [glGetError] is left out, and so are array
    uniforms.  What the GLSL compiler and linker make of a source text is
    the driver's. *)

Inductive UniformValue :=
  | U1f (v : GLfloat)
  | U3f (v : vec3)
  | U4f (v : vec4)
  | UMat4 (m : mat4).

Definition same_kind (old new : UniformValue) : bool :=
  match old, new with
  | U1f _, U1f _ | U3f _, U3f _ | U4f _, U4f _ | UMat4 _, UMat4 _ => true
  | _, _ => false
  end.

Record ShaderObject := {
  so_type : GLenum;
  so_source : string;
  so_compile_status : bool;
  so_info_log : string;
  so_delete_status : bool
}.

Record ProgramObject := {
  po_attached : list GLuint;
  po_link_status : bool;
  po_info_log : string;
  (** reflection data: the location of each active uniform *)
  po_uniforms : gmap string GLint;
  po_values : gmap GLint UniformValue;
  po_delete_status : bool
}.

Record LinkResult := {
  lr_status : bool;
  lr_info_log : string;
  lr_uniforms : gmap string GLint;
  lr_values : gmap GLint UniformValue
}.

Record Driver := {
  (** compile status and information log for a source of a stage *)
  glsl_compile : GLenum -> string -> bool * string;
  glsl_link : list ShaderObject -> LinkResult
}.

Record GLState := {
  shaders : gmap GLuint ShaderObject;
  programs : gmap GLuint ProgramObject;
  current_program : GLuint
}.

Definition with_shaders (st : GLState) (m : gmap GLuint ShaderObject) : GLState :=
  {| shaders := m; programs := programs st; current_program := current_program st |}.

Definition with_programs (st : GLState) (m : gmap GLuint ProgramObject) : GLState :=
  {| shaders := shaders st; programs := m; current_program := current_program st |}.

Definition is_stage (type : GLenum) : bool :=
  match type with
  | GL_VERTEX_SHADER | GL_FRAGMENT_SHADER => true
  | _ => false
  end.

(** Shader and program objects share one name space; 0 names no object. *)
Definition unused_name (st : GLState) : GLuint :=
  fresh ({[ 0 ]} ∪ dom (shaders st) ∪ dom (programs st) : gset Z).

Definition GLboolean (b : bool) : GLint := if b then GL_TRUE else GL_FALSE.

(** At most [bufSize - 1] characters are written before the terminator. *)
Definition info_log_text (bufSize : GLsizei) (log : string) : string :=
  String.substring 0 (Z.to_nat (bufSize - 1)) log.

Definition attached_somewhere (st : GLState) (shader : GLuint) : bool :=
  bool_decide (map_Exists (fun _ po => shader ∈ po_attached po) (programs st)).

(** Flagged shader objects that are no longer attached go away. *)
Definition sweep_shaders (st : GLState) : GLState :=
  with_shaders st
    (filter (fun entry => so_delete_status entry.2 = false
                          \/ attached_somewhere st entry.1 = true) (shaders st)).

(** A program object flagged for deletion goes away, and lets go of its
    shader objects, once it is no longer current. *)
Definition make_current (st : GLState) (program : GLuint) : GLState :=
  sweep_shaders
    {| shaders := shaders st;
       programs := filter (fun entry => po_delete_status entry.2 = false
                                        \/ entry.1 = program) (programs st);
       current_program := program |}.

Definition write_uniform (st : GLState) (location : GLint) (v : UniformValue) : GLState :=
  if bool_decide (location = -1) then st
  else
    match programs st !! current_program st with
    | Some po =>
        match po_values po !! location with
        | Some old =>
            if same_kind old v then
              with_programs st
                (<[ current_program st :=
                      {| po_attached := po_attached po;
                         po_link_status := po_link_status po;
                         po_info_log := po_info_log po;
                         po_uniforms := po_uniforms po;
                         po_values := <[ location := v ]> (po_values po);
                         po_delete_status := po_delete_status po |} ]> (programs st))
            else st
        | None => st
        end
    | None => st
    end.

Definition shader_call (drv : Driver) {A} (e : shaderE A) (st : GLState) : GLState * A :=
  match e in shaderE A return GLState * A with
  | GlCreateShader type =>
      if is_stage type then
        let name := unused_name st in
        (with_shaders st
           (<[ name := {| so_type := type; so_source := ""; so_compile_status := false;
                          so_info_log := ""; so_delete_status := false |} ]> (shaders st)),
         name)
      else (st, 0)
  | GlShaderSource shader source =>
      (with_shaders st
         (alter (fun so => {| so_type := so_type so;
                              so_source := String.concat "" source;
                              so_compile_status := so_compile_status so;
                              so_info_log := so_info_log so;
                              so_delete_status := so_delete_status so |})
            shader (shaders st)), tt)
  | GlCompileShader shader =>
      (with_shaders st
         (alter (fun so =>
                   let result := glsl_compile drv (so_type so) (so_source so) in
                   {| so_type := so_type so;
                      so_source := so_source so;
                      so_compile_status := result.1;
                      so_info_log := result.2;
                      so_delete_status := so_delete_status so |})
            shader (shaders st)), tt)
  | GlGetShaderiv shader pname =>
      (st, match shaders st !! shader with
           | Some so => if bool_decide (pname = GL_COMPILE_STATUS)
                        then GLboolean (so_compile_status so) else 0
           | None => 0
           end)
  | GlGetShaderInfoLog shader bufSize =>
      (st, match shaders st !! shader with
           | Some so => info_log_text bufSize (so_info_log so)
           | None => ""
           end)
  | GlCreateProgram =>
      let name := unused_name st in
      (with_programs st
         (<[ name := {| po_attached := []; po_link_status := false; po_info_log := "";
                        po_uniforms := ∅; po_values := ∅;
                        po_delete_status := false |} ]> (programs st)),
       name)
  | GlAttachShader program shader =>
      (if bool_decide (is_Some (shaders st !! shader)) then
         with_programs st
           (alter (fun po =>
                     {| po_attached :=
                          if bool_decide (shader ∈ po_attached po) then po_attached po
                          else po_attached po ++ [shader];
                        po_link_status := po_link_status po;
                        po_info_log := po_info_log po;
                        po_uniforms := po_uniforms po;
                        po_values := po_values po;
                        po_delete_status := po_delete_status po |})
              program (programs st))
       else st, tt)
  | GlLinkProgram program =>
      (with_programs st
         (alter (fun po =>
                   let result :=
                     glsl_link drv (omap (fun name => shaders st !! name) (po_attached po)) in
                   {| po_attached := po_attached po;
                      po_link_status := lr_status result;
                      po_info_log := lr_info_log result;
                      po_uniforms := lr_uniforms result;
                      po_values := lr_values result;
                      po_delete_status := po_delete_status po |})
            program (programs st)), tt)
  | GlGetProgramiv program pname =>
      (st, match programs st !! program with
           | Some po => if bool_decide (pname = GL_LINK_STATUS)
                        then GLboolean (po_link_status po) else 0
           | None => 0
           end)
  | GlGetProgramInfoLog program bufSize =>
      (st, match programs st !! program with
           | Some po => info_log_text bufSize (po_info_log po)
           | None => ""
           end)
  | GlDeleteShader shader =>
      (sweep_shaders
         (with_shaders st
            (alter (fun so => {| so_type := so_type so;
                                 so_source := so_source so;
                                 so_compile_status := so_compile_status so;
                                 so_info_log := so_info_log so;
                                 so_delete_status := true |})
               shader (shaders st))), tt)
  | GlDeleteProgram program =>
      (if bool_decide (program = current_program st) then
         with_programs st
           (alter (fun po => {| po_attached := po_attached po;
                                po_link_status := po_link_status po;
                                po_info_log := po_info_log po;
                                po_uniforms := po_uniforms po;
                                po_values := po_values po;
                                po_delete_status := true |})
              program (programs st))
       else sweep_shaders (with_programs st (delete program (programs st))), tt)
  | GlUseProgram program =>
      (match programs st !! program with
       | Some po => if po_link_status po then make_current st program else st
       | None => if bool_decide (program = 0) then make_current st 0 else st
       end, tt)
  | GlGetUniformLocation program name =>
      (st, match programs st !! program with
           | Some po => if po_link_status po then default (-1) (po_uniforms po !! name) else -1
           | None => -1
           end)
  | GlUniform1f location v0 => (write_uniform st location (U1f v0), tt)
  | GlUniform3fv location count value =>
      (match value with
       | [v] => if bool_decide (count = 1) then write_uniform st location (U3f v) else st
       | _ => st
       end, tt)
  | GlUniform4f location v0 v1 v2 v3 =>
      (write_uniform st location (U4f (Vec4 v0 v1 v2 v3)), tt)
  | GlUniformMatrix4fv location count transpose value =>
      (match value with
       | [m] => if bool_decide (count = 1) then write_uniform st location (UMat4 m) else st
       | _ => st
       end, tt)
  end.

(** The GL's state with the files and the two output streams. *)
Record World := {
  gl_state : GLState;
  files : FileSystem;
  cerr : string;
  cout : string
}.

Definition io_call {A} (e : ioE A) (w : World) : World * A :=
  match e in ioE A return World * A with
  | IfstreamRead path => (w, files w !! path)
  | Cerr text =>
      ({| gl_state := gl_state w; files := files w;
          cerr := cerr w +:+ text; cout := cout w |}, tt)
  | Cout text =>
      ({| gl_state := gl_state w; files := files w;
          cerr := cerr w; cout := cout w +:+ text |}, tt)
  end.

Definition glsl_call (drv : Driver) {A} (e : glslE A) (w : World) : World * A :=
  match e with
  | inl1 e =>
      let '(st, a) := shader_call drv e (gl_state w) in
      ({| gl_state := st; files := files w; cerr := cerr w; cout := cout w |}, a)
  | inr1 e => io_call e w
  end.

(** The handler of [glslE] into the state monad over [World]. *)
Definition h_world (drv : Driver) : glslE ~> Monads.stateT World (itree void1) :=
  fun _ e w => Ret (glsl_call drv e w).

(** *** What a run of a [main] shows *)

(** The answer to [glfwInit()], when the call is that one. *)
Definition glfwInit_answer (c : Answered appE) : option bool :=
  match c with
  | answered e a =>
      match e with
      | inl1 w =>
          match w in windowE A return A -> option bool with
          | GlfwInit => fun ok => Some ok
          | _ => fun _ => None
          end a
      | inr1 _ => None
      end
  end.

(** The answer to [glfwCreateWindow(...)]: [None] is [nullptr]. *)
Definition glfwCreateWindow_answer (c : Answered appE) : option (option GLFWwindow) :=
  match c with
  | answered e a =>
      match e with
      | inl1 w =>
          match w in windowE A return A -> option (option GLFWwindow) with
          | GlfwCreateWindow _ _ _ => fun window => Some window
          | _ => fun _ => None
          end a
      | inr1 _ => None
      end
  end.

(** The answer to [gladLoadGLLoader(...)]. *)
Definition gladLoadGLLoader_answer (c : Answered appE) : option bool :=
  match c with
  | answered e a =>
      match e with
      | inl1 w =>
          match w in windowE A return A -> option bool with
          | GladLoadGLLoader => fun loaded => Some loaded
          | _ => fun _ => None
          end a
      | inr1 _ => None
      end
  end.

(** GLFW initialization, window creation or GL loader initialization
    fails in the run: the call is made and its answer is the failure. *)
Definition glfwInit_failed (calls : list (Answered appE)) : Prop :=
  head (omap glfwInit_answer calls) = Some false.

Definition glfwCreateWindow_failed (calls : list (Answered appE)) : Prop :=
  head (omap glfwCreateWindow_answer calls) = Some None.

Definition gladLoadGLLoader_failed (calls : list (Answered appE)) : Prop :=
  head (omap gladLoadGLLoader_answer calls) = Some false.

Definition initialization_failed (calls : list (Answered appE)) : Prop :=
  glfwInit_failed calls \/ glfwCreateWindow_failed calls \/ gladLoadGLLoader_failed calls.

(** What a call writes to [std::cerr]. *)
Definition cerr_of (c : Answered appE) : string :=
  match c with
  | answered (inr1 (inr1 (inr1 (Cerr text)))) _ => text
  | _ => ""
  end.

(** All that a run writes to [std::cerr]. *)
Definition cerr_text (calls : list (Answered appE)) : string :=
  foldr (fun c text => cerr_of c +:+ text) "" calls.

(** The call is the test of a render loop, [glfwWindowShouldClose]. *)
Definition is_render_loop_test (c : Answered appE) : bool :=
  match c with
  | answered (inl1 (GlfwWindowShouldClose _)) _ => true
  | _ => false
  end.

(** The run reaches the render loop: its test is evaluated. *)
Definition render_loop_entered (calls : list (Answered appE)) : bool :=
  existsb is_render_loop_test calls.

(** The call goes to the GL, not to the window system or to a stream. *)
Definition is_GL_call (c : Answered appE) : bool :=
  match c with
  | answered (inr1 (inl1 _)) _ => true
  | answered (inr1 (inr1 (inl1 _))) _ => true
  | _ => false
  end.

(** *** Environments *)

(** An environment answers every call; [follows env calls] says that the
    answers in [calls] are its answers. *)
Definition Environment (E : Type -> Type) : Type := forall A : Type, E A -> A.

Definition follows {E} (env : Environment E) (calls : list (Answered E)) : Prop :=
  Forall (fun c => match c with answered e a => a = env _ e end) calls.

(** An environment in which GLFW initialization, window creation or GL
    loader initialization fails. *)
Definition initialization_fails (env : Environment appE) : Prop :=
  env _ (inl1 GlfwInit) = false
  \/ (forall width height title, env _ (inl1 (GlfwCreateWindow width height title)) = None)
  \/ env _ (inl1 GladLoadGLLoader) = false.

(** *** What a run of the [Shader] constructor shows *)

(** The name that [glCreateShader] answers, when the call is that one. *)
Definition created_shader (c : Answered glslE) : option GLuint :=
  match c with
  | answered e a =>
      match e with
      | inl1 s =>
          match s in shaderE A return A -> option GLuint with
          | GlCreateShader _ => fun name => Some name
          | _ => fun _ => None
          end a
      | inr1 _ => None
      end
  end.

(** The name that [glDeleteShader] is given, when the call is that one. *)
Definition deleted_shader (c : Answered glslE) : option GLuint :=
  match c with
  | answered (inl1 (GlDeleteShader shader)) _ => Some shader
  | _ => None
  end.

(** The stage objects created in a run, and those deleted, in order. *)
Definition created_shaders (calls : list (Answered glslE)) : list GLuint :=
  omap created_shader calls.

Definition deleted_shaders (calls : list (Answered glslE)) : list GLuint :=
  omap deleted_shader calls.

(** [t] returns in the environment [env]. *)
Definition returns {E R} (env : Environment E) (t : itree E R) : Prop :=
  exists calls r, run t calls r /\ follows env calls.

(** *** Runs against the GL's state *)

(** The answers in [calls] are those of the GL and of the streams, from the
    world [w] on, and the calls leave the world [w']. *)
Fixpoint world_run (drv : Driver) (w : World) (calls : list (Answered glslE)) (w' : World)
  : Prop :=
  match calls with
  | [] => w' = w
  | answered e a :: calls =>
      (glsl_call drv e w).2 = a /\ world_run drv (glsl_call drv e w).1 calls w'
  end.

(** [t] returns from every world. *)
Definition returns_in (drv : Driver) {R} (t : itree glslE R) : Prop :=
  forall w, exists calls r w', run t calls r /\ world_run drv w calls w'.


(** *** A driver and a world for the examples *)

(** A compiler that wants a [#version] line first, and a linker that finds
    the one uniform [uColor], a [vec4], at location 0. *)
Definition driver_example : Driver :=
  {| glsl_compile := fun _ source =>
       if String.prefix "#version" source then (true, "")
       else (false, "0:1(1): error: syntax error, unexpected end of file");
     glsl_link := fun _ =>
       {| lr_status := true; lr_info_log := "";
          lr_uniforms := {[ "uColor" := 0 ]};
          lr_values := {[ 0 := U4f (Vec4 0 0 0 0) ]} |} |}.

(** A world in which program 3 is linked, with [uColor], and in use. *)
Definition world_example : World :=
  {| gl_state :=
       {| shaders := ∅;
          programs :=
            {[ 3 := {| po_attached := []; po_link_status := true; po_info_log := "";
                       po_uniforms := {[ "uColor" := 0 ]};
                       po_values := {[ 0 := U4f (Vec4 0 0 0 0) ]};
                       po_delete_status := false |} ]};
          current_program := 3 |};
     files := ∅; cerr := ""; cout := "" |}.

(** *** Sections of a shader file *)

(** The stage that a marker line declares: the one before it when the line
    names neither stage. *)
Definition declared (current : ShaderType) (line : string) : ShaderType :=
  if found line "vertex" then VERTEX
  else if found line "fragment" then FRAGMENT
  else current.

(** The lines of the sections of [stage]: the lines without a marker that
    follow a declaration of [stage], up to the next declaration; [current]
    is the stage declared last. *)
Fixpoint section_lines (stage current : ShaderType) (lines : list string) : list string :=
  match lines with
  | [] => []
  | line :: rest =>
      if marker_line line then section_lines stage (declared current line) rest
      else if bool_decide (current = stage) then line :: section_lines stage current rest
      else section_lines stage current rest
  end.

(** [s] with a final ['\n'] added unless it is empty or has one. *)
Fixpoint newline_closed (s : string) : string :=
  match s with
  | EmptyString => ""
  | String c EmptyString => if Ascii.eqb c LF then s else String c nl
  | String c s' => String c (newline_closed s')
  end.

(** *** What a run of the shader code writes *)

(** What a call writes to [std::cerr]. *)
Definition glsl_cerr_of (c : Answered glslE) : string :=
  match c with
  | answered (inr1 (Cerr text)) _ => text
  | _ => ""
  end.

(** All that a run writes to [std::cerr]. *)
Definition glsl_cerr_text (calls : list (Answered glslE)) : string :=
  foldr (fun c text => glsl_cerr_of c +:+ text) "" calls.

(** The world with [text] added to the error stream. *)
Definition add_cerr (w : World) (text : string) : World :=
  {| gl_state := gl_state w; files := files w; cerr := cerr w +:+ text; cout := cout w |}.

(** What [Shader::checkCompileErrors] writes for a stage object, and for a
    program object, with the given status and log. *)
Definition compile_message (type : string) (status : bool) (log : string) : string :=
  if status then ""
  else "SHADER COMPILE ERROR [" +:+ type +:+ "]:" +:+ nl +:+ log +:+ nl.

Definition link_message (status : bool) (log : string) : string :=
  if status then ""
  else "PROGRAM LINK ERROR:" +:+ nl +:+ log +:+ nl.

(** The setter of the [Shader] class for a value of each kind. *)
Definition set_uniform (this : Shader.t) (name : string) (value : UniformValue)
  : itree glslE unit :=
  match value with
  | U1f x => Shader.setFloat this name x
  | U3f v => Shader.setVec3 this name v
  | U4f v => Shader.setVec4 this name v
  | UMat4 m => Shader.setMat4 this name m
  end.

(** The world with another GL state. *)
Definition with_gl_state (w : World) (st : GLState) : World :=
  {| gl_state := st; files := files w; cerr := cerr w; cout := cout w |}.

(** The value of the uniform at [location] of [program]. *)
Definition uniform_value (st : GLState) (program : GLuint) (location : GLint)
  : option UniformValue :=
  programs st !! program ≫= fun po => po_values po !! location.

(** A stage object of the given type after [glShaderSource] with one text
    and [glCompileShader]. *)
Definition compiled (drv : Driver) (type : GLenum) (source : string) : ShaderObject :=
  {| so_type := type; so_source := source;
     so_compile_status := (glsl_compile drv type source).1;
     so_info_log := (glsl_compile drv type source).2;
     so_delete_status := false |}.

(** A program object after [glAttachShader] of [stages], in this order, and
    [glLinkProgram]. *)
Definition linked (result : LinkResult) (stages : list GLuint) : ProgramObject :=
  {| po_attached := stages;
     po_link_status := lr_status result;
     po_info_log := lr_info_log result;
     po_uniforms := lr_uniforms result;
     po_values := lr_values result;
     po_delete_status := false |}.

(** *** More of what a run of a [main] shows *)

Definition is_glfwTerminate (c : Answered appE) : bool :=
  match c with
  | answered (inl1 GlfwTerminate) _ => true
  | _ => false
  end.

(** What a call writes to [std::cout]. *)
Definition cout_of (c : Answered appE) : string :=
  match c with
  | answered (inr1 (inr1 (inr1 (Cout text)))) _ => text
  | _ => ""
  end.

Definition cout_text (calls : list (Answered appE)) : string :=
  foldr (fun c text => cout_of c +:+ text) "" calls.

(** *** Frames of the render loop of HelloWorld_GL.cpp *)

(** The calls of one pass through the body of the loop, after a test that
    let it in; [key] is what [glfwGetKey] answered for the escape key. *)
Definition frame (window : GLFWwindow) (VAO shaderProgram : GLuint) (key : GLFWaction)
  : list (Answered appE) :=
  [answered (inl1 (GlfwWindowShouldClose window)) false;
   answered (inl1 (GlfwGetKey window GLFW_KEY_ESCAPE)) key]
  ++ match key with
     | GLFW_PRESS => [answered (inl1 (GlfwSetWindowShouldClose window true)) tt]
     | _ => []
     end
  ++ [answered (inr1 (inl1 (GlClearColor 0.1 0.15 0.15 1.0))) tt;
      answered (inr1 (inl1 (GlClear GL_COLOR_BUFFER_BIT))) tt;
      answered (inr1 (inr1 (inl1 (GlUseProgram shaderProgram)))) tt;
      answered (inr1 (inl1 (GlBindVertexArray VAO))) tt;
      answered (inr1 (inl1 (GlDrawArrays GL_TRIANGLES 0 3))) tt;
      answered (inl1 (GlfwSwapBuffers window)) tt;
      answered (inl1 GlfwPollEvents) tt].

(** One frame for each of [keys], and the test that ends the loop. *)
Definition frames (window : GLFWwindow) (VAO shaderProgram : GLuint) (keys : list GLFWaction)
  : list (Answered appE) :=
  flat_map (frame window VAO shaderProgram) keys
  ++ [answered (inl1 (GlfwWindowShouldClose window)) true].

Definition is_draw (c : Answered appE) : bool :=
  match c with
  | answered (inr1 (inl1 (GlDrawArrays _ _ _))) _ => true
  | answered (inr1 (inl1 (GlDrawElements _ _ _ _))) _ => true
  | _ => false
  end.

Definition is_swap (c : Answered appE) : bool :=
  match c with
  | answered (inl1 (GlfwSwapBuffers _)) _ => true
  | _ => false
  end.

(** The answers of the tests of the render loop, in order. *)
Definition render_loop_test (c : Answered appE) : option bool :=
  match c with
  | answered e a =>
      match e with
      | inl1 w =>
          match w in windowE A return A -> option bool with
          | GlfwWindowShouldClose _ => fun stop => Some stop
          | _ => fun _ => None
          end a
      | inr1 _ => None
      end
  end.

Definition render_loop_tests (calls : list (Answered appE)) : list bool :=
  omap render_loop_test calls.

(** *** The calls of a run of [main] in HelloWorld_GL.cpp that gets through
    the initialization *)

(** GLFW, the window and the loader. *)
Definition hello_startup (window : GLFWwindow) : list (Answered appE) :=
  [answered (inl1 GlfwInit) true;
   answered (inl1 (GlfwWindowHint GLFW_CONTEXT_VERSION_MAJOR (GLFW_int 3))) tt;
   answered (inl1 (GlfwWindowHint GLFW_CONTEXT_VERSION_MINOR (GLFW_int 3))) tt;
   answered (inl1 (GlfwWindowHint GLFW_OPENGL_PROFILE GLFW_OPENGL_CORE_PROFILE)) tt;
   answered (inl1 (GlfwCreateWindow 800 600 "Hello OpenGL")) (Some window);
   answered (inl1 (GlfwMakeContextCurrent window)) tt;
   answered (inl1 (GlfwSetFramebufferSizeCallback window)) tt;
   answered (inl1 GladLoadGLLoader) true].

(** The viewport and the vertex data. *)
Definition hello_buffers (VAO VBO : GLuint) : list (Answered appE) :=
  [answered (inr1 (inl1 (GlViewport 0 0 800 600))) tt;
   answered (inr1 (inl1 (GlGenVertexArrays 1))) VAO;
   answered (inr1 (inl1 (GlBindVertexArray VAO))) tt;
   answered (inr1 (inl1 (GlGenBuffers 1))) VBO;
   answered (inr1 (inl1 (GlBindBuffer GL_ARRAY_BUFFER VBO))) tt;
   answered (inr1 (inl1 (GlBufferData GL_ARRAY_BUFFER (9 * HelloWorldGL.sizeof_float)
                           (FloatData HelloWorldGL.vertices) GL_STATIC_DRAW))) tt;
   answered (inr1 (inl1 (GlVertexAttribPointer 0 3 GL_FLOAT GL_FALSE
                           (3 * HelloWorldGL.sizeof_float) 0))) tt;
   answered (inr1 (inl1 (GlEnableVertexAttribArray 0))) tt;
   answered (inr1 (inl1 (GlBindVertexArray 0))) tt].

(** The shader program; [success] is the compile status read for the vertex
    stage, and [infoLog] the log read when it is 0. *)
Definition hello_program (vertexShader fragmentShader shaderProgram : GLuint)
    (success : GLint) (infoLog : string) : list (Answered appE) :=
  [answered (inr1 (inr1 (inl1 (GlCreateShader GL_VERTEX_SHADER)))) vertexShader;
   answered (inr1 (inr1 (inl1 (GlShaderSource vertexShader
                                 [HelloWorldGL.vertexShaderSource])))) tt;
   answered (inr1 (inr1 (inl1 (GlCompileShader vertexShader)))) tt;
   answered (inr1 (inr1 (inl1 (GlGetShaderiv vertexShader GL_COMPILE_STATUS)))) success]
  ++ (if not_ success then
        [answered (inr1 (inr1 (inl1 (GlGetShaderInfoLog vertexShader 512)))) infoLog;
         answered (inr1 (inr1 (inr1 (Cerr ("Vertex shader error:" +:+ nl
                                           +:+ infoLog +:+ nl))))) tt]
      else [])
  ++ [answered (inr1 (inr1 (inl1 (GlCreateShader GL_FRAGMENT_SHADER)))) fragmentShader;
      answered (inr1 (inr1 (inl1 (GlShaderSource fragmentShader
                                    [HelloWorldGL.fragmentShaderSource])))) tt;
      answered (inr1 (inr1 (inl1 (GlCompileShader fragmentShader)))) tt;
      answered (inr1 (inr1 (inl1 GlCreateProgram))) shaderProgram;
      answered (inr1 (inr1 (inl1 (GlAttachShader shaderProgram vertexShader)))) tt;
      answered (inr1 (inr1 (inl1 (GlAttachShader shaderProgram fragmentShader)))) tt;
      answered (inr1 (inr1 (inl1 (GlLinkProgram shaderProgram)))) tt;
      answered (inr1 (inr1 (inl1 (GlDeleteShader vertexShader)))) tt;
      answered (inr1 (inr1 (inl1 (GlDeleteShader fragmentShader)))) tt].

(** ** ex02_DrawTwoRectangles.cpp: [main] *)

Module Ex02.

Definition vertices : list GLfloat := [
  (* rectangle 1 (left) *)
  -0.9; -0.5; 0.0;
  -0.1; -0.5; 0.0;
  -0.1;  0.5; 0.0;
  -0.9;  0.5; 0.0;
  (* rectangle 2 (right) *)
   0.1; -0.5; 0.0;
   0.9; -0.5; 0.0;
   0.9;  0.5; 0.0;
   0.1;  0.5; 0.0 ]%Q.

Definition indices : list Z := [
  0; 1; 2;
  2; 3; 0;
  4; 5; 6;
  6; 7; 4 ].

Definition sizeof_float : Z := 4.
Definition sizeof_unsigned_int : Z := 4.

(** GLFW calls it from [glfwPollEvents] when the window is resized. *)
Definition framebuffer_size_callback (window : GLFWwindow) (width height : Z)
  : itree appE unit :=
  draw (GlViewport 0 0 width height).

(** [ParseShader] as [main] calls it: the stream is what the file system
    holds at [filePath], the message goes to [std::cerr]. *)
Definition ParseShader (filePath : string) : itree glslE ShaderProgramSource :=
  stream ← io (IfstreamRead filePath);
  (if stream is None
   then io (Cerr ("Failed to open shader file: " +:+ filePath +:+ nl))
   else mret tt);;
  mret (ParseState_result (parse_lines (from_option getlines [] stream))).

Definition render_loop (window : GLFWwindow) (VAO shaderProgram : GLuint)
  : itree appE unit :=
  while_not (glfw (GlfwWindowShouldClose window))
    (draw (GlClearColor 0.1 0.15 0.15 1.0);;
     draw (GlClear GL_COLOR_BUFFER_BIT);;
     glcall (GlUseProgram shaderProgram);;
     draw (GlBindVertexArray VAO);;
     loc ← glcall (GlGetUniformLocation shaderProgram "uColor");
     glcall (GlUniform4f loc 1%Q 0%Q 0%Q 1%Q);;
     draw (GlDrawElements GL_TRIANGLES 6 GL_UNSIGNED_INT 0);;
     glcall (GlUniform4f loc 0%Q 0%Q 1%Q 1%Q);;
     draw (GlDrawElements GL_TRIANGLES 6 GL_UNSIGNED_INT (6 * sizeof_unsigned_int));;
     glfw (GlfwSwapBuffers window);;
     glfw GlfwPollEvents).

Definition main : itree appE Z :=
  ok ← glfw GlfwInit;
  if negb ok then
    stdio (Cerr ("Failed to initialize GLFW" +:+ nl));;
    mret (-1)
  else
  glfw (GlfwWindowHint GLFW_CONTEXT_VERSION_MAJOR (GLFW_int 3));;
  glfw (GlfwWindowHint GLFW_CONTEXT_VERSION_MINOR (GLFW_int 3));;
  glfw (GlfwWindowHint GLFW_OPENGL_PROFILE GLFW_OPENGL_CORE_PROFILE);;
  window ← glfw (GlfwCreateWindow 800 600 "Hello OpenGL");
  match window with
  | None =>
      stdio (Cerr ("Failed to create GLFW window" +:+ nl));;
      glfw GlfwTerminate;;
      mret (-1)
  | Some window =>
  glfw (GlfwMakeContextCurrent window);;
  glfw (GlfwSetFramebufferSizeCallback window);;
  loaded ← glfw GladLoadGLLoader;
  if negb loaded then
    stdio (Cerr ("Failed to initialize GLAD" +:+ nl));;
    mret (-1)
  else
  draw (GlViewport 0 0 800 600);;
  VAO ← draw (GlGenVertexArrays 1);
  draw (GlBindVertexArray VAO);;
  VBO ← draw (GlGenBuffers 1);
  draw (GlBindBuffer GL_ARRAY_BUFFER VBO);;
  draw (GlBufferData GL_ARRAY_BUFFER (24 * sizeof_float)
          (FloatData vertices) GL_STATIC_DRAW);;
  EBO ← draw (GlGenBuffers 1);
  draw (GlBindBuffer GL_ELEMENT_ARRAY_BUFFER EBO);;
  draw (GlBufferData GL_ELEMENT_ARRAY_BUFFER (12 * sizeof_unsigned_int)
          (UintData indices) GL_STATIC_DRAW);;
  draw (GlVertexAttribPointer 0 3 GL_FLOAT GL_FALSE (3 * sizeof_float) 0);;
  draw (GlEnableVertexAttribArray 0);;
  draw (GlBindVertexArray 0);;
  shaderSource ← glsl (ParseShader "Basic.shader");
  vertexShader ← glsl (CompileShader (c_str (VertexSource shaderSource)) GL_VERTEX_SHADER);
  fragmentShader ← glsl (CompileShader (c_str (FragmentSource shaderSource))
                            GL_FRAGMENT_SHADER);
  shaderProgram ← glcall GlCreateProgram;
  glcall (GlAttachShader shaderProgram vertexShader);;
  glcall (GlAttachShader shaderProgram fragmentShader);;
  glcall (GlLinkProgram shaderProgram);;
  success ← glcall (GlGetShaderiv vertexShader GL_COMPILE_STATUS);
  (if bool_decide (success = GL_FALSE) then
     infoLog ← glcall (GlGetShaderInfoLog vertexShader 512);
     stdio (Cerr ("Vertex shader error:" +:+ nl +:+ infoLog +:+ nl))
   else mret tt);;
  glcall (GlDeleteShader vertexShader);;
  glcall (GlDeleteShader fragmentShader);;
  render_loop window VAO shaderProgram;;
  glfw GlfwTerminate;;
  mret 0
  end.

End Ex02.

(** *** The calls of a run of [main] in ex02_DrawTwoRectangles.cpp that gets
    through the initialization *)

(** The start of GLFW, the window and the loader are those of
    HelloWorld_GL.cpp, [hello_startup]. *)

Definition ex02_buffers (VAO VBO EBO : GLuint) : list (Answered appE) :=
  [answered (inr1 (inl1 (GlViewport 0 0 800 600))) tt;
   answered (inr1 (inl1 (GlGenVertexArrays 1))) VAO;
   answered (inr1 (inl1 (GlBindVertexArray VAO))) tt;
   answered (inr1 (inl1 (GlGenBuffers 1))) VBO;
   answered (inr1 (inl1 (GlBindBuffer GL_ARRAY_BUFFER VBO))) tt;
   answered (inr1 (inl1 (GlBufferData GL_ARRAY_BUFFER (24 * Ex02.sizeof_float)
                           (FloatData Ex02.vertices) GL_STATIC_DRAW))) tt;
   answered (inr1 (inl1 (GlGenBuffers 1))) EBO;
   answered (inr1 (inl1 (GlBindBuffer GL_ELEMENT_ARRAY_BUFFER EBO))) tt;
   answered (inr1 (inl1 (GlBufferData GL_ELEMENT_ARRAY_BUFFER (12 * Ex02.sizeof_unsigned_int)
                           (UintData Ex02.indices) GL_STATIC_DRAW))) tt;
   answered (inr1 (inl1 (GlVertexAttribPointer 0 3 GL_FLOAT GL_FALSE
                           (3 * Ex02.sizeof_float) 0))) tt;
   answered (inr1 (inl1 (GlEnableVertexAttribArray 0))) tt;
   answered (inr1 (inl1 (GlBindVertexArray 0))) tt].

(** The calls of [ParseShader] on a path where the file system answers
    [stream], and the sources that it returns. *)
Definition parse_calls (filePath : string) (stream : option string) : list (Answered appE) :=
  [answered (inr1 (inr1 (inr1 (IfstreamRead filePath)))) stream]
  ++ (if stream is None
      then [answered (inr1 (inr1 (inr1 (Cerr ("Failed to open shader file: "
                                              +:+ filePath +:+ nl))))) tt]
      else []).

Definition parsed (stream : option string) : ShaderProgramSource :=
  ParseState_result (parse_lines (from_option getlines [] stream)).

(** The calls of [CompileShader]; [success] is the compile status read, and
    [infoLog] the log read when it is [GL_FALSE]. *)
Definition compile_calls (shaderSource : string) (shaderType : GLenum) (shader : GLuint)
    (success : GLint) (infoLog : string) : list (Answered appE) :=
  [answered (inr1 (inr1 (inl1 (GlCreateShader shaderType)))) shader;
   answered (inr1 (inr1 (inl1 (GlShaderSource shader [shaderSource])))) tt;
   answered (inr1 (inr1 (inl1 (GlCompileShader shader)))) tt;
   answered (inr1 (inr1 (inl1 (GlGetShaderiv shader GL_COMPILE_STATUS)))) success]
  ++ (if bool_decide (success = GL_FALSE) then
        [answered (inr1 (inr1 (inl1 (GlGetShaderInfoLog shader 512)))) infoLog;
         answered (inr1 (inr1 (inr1 (Cerr ("Shader error:" +:+ nl +:+ infoLog +:+ nl))))) tt]
      else []).

(** Linking, the second look at the vertex stage, and the deletion of the
    stage objects. *)
Definition link_calls (vertexShader fragmentShader shaderProgram : GLuint)
    (success : GLint) (infoLog : string) : list (Answered appE) :=
  [answered (inr1 (inr1 (inl1 GlCreateProgram))) shaderProgram;
   answered (inr1 (inr1 (inl1 (GlAttachShader shaderProgram vertexShader)))) tt;
   answered (inr1 (inr1 (inl1 (GlAttachShader shaderProgram fragmentShader)))) tt;
   answered (inr1 (inr1 (inl1 (GlLinkProgram shaderProgram)))) tt;
   answered (inr1 (inr1 (inl1 (GlGetShaderiv vertexShader GL_COMPILE_STATUS)))) success]
  ++ (if bool_decide (success = GL_FALSE) then
        [answered (inr1 (inr1 (inl1 (GlGetShaderInfoLog vertexShader 512)))) infoLog;
         answered (inr1 (inr1 (inr1 (Cerr ("Vertex shader error:" +:+ nl
                                           +:+ infoLog +:+ nl))))) tt]
      else [])
  ++ [answered (inr1 (inr1 (inl1 (GlDeleteShader vertexShader)))) tt;
      answered (inr1 (inr1 (inl1 (GlDeleteShader fragmentShader)))) tt].

(** One pass through the body of the render loop; [loc] is what
    [glGetUniformLocation] answered. *)
Definition ex02_frame (window : GLFWwindow) (VAO shaderProgram : GLuint) (loc : GLint)
  : list (Answered appE) :=
  [answered (inl1 (GlfwWindowShouldClose window)) false;
   answered (inr1 (inl1 (GlClearColor 0.1 0.15 0.15 1.0))) tt;
   answered (inr1 (inl1 (GlClear GL_COLOR_BUFFER_BIT))) tt;
   answered (inr1 (inr1 (inl1 (GlUseProgram shaderProgram)))) tt;
   answered (inr1 (inl1 (GlBindVertexArray VAO))) tt;
   answered (inr1 (inr1 (inl1 (GlGetUniformLocation shaderProgram "uColor")))) loc;
   answered (inr1 (inr1 (inl1 (GlUniform4f loc 1%Q 0%Q 0%Q 1%Q)))) tt;
   answered (inr1 (inl1 (GlDrawElements GL_TRIANGLES 6 GL_UNSIGNED_INT 0))) tt;
   answered (inr1 (inr1 (inl1 (GlUniform4f loc 0%Q 0%Q 1%Q 1%Q)))) tt;
   answered (inr1 (inl1 (GlDrawElements GL_TRIANGLES 6 GL_UNSIGNED_INT
                           (6 * Ex02.sizeof_unsigned_int)))) tt;
   answered (inl1 (GlfwSwapBuffers window)) tt;
   answered (inl1 GlfwPollEvents) tt].

Definition ex02_frames (window : GLFWwindow) (VAO shaderProgram : GLuint) (locs : list GLint)
  : list (Answered appE) :=
  flat_map (ex02_frame window VAO shaderProgram) locs
  ++ [answered (inl1 (GlfwWindowShouldClose window)) true].

(** The call opens a file. *)
Definition is_file_read (c : Answered appE) : bool :=
  match c with
  | answered (inr1 (inr1 (inr1 (IfstreamRead _)))) _ => true
  | _ => false
  end.

(** *** A run of a [main] against the GL's state *)

(** The call as the shader code sees it, when it is one of [glslE]. *)
Definition glsl_call_of (c : Answered appE) : option (Answered glslE) :=
  match c with
  | answered e a =>
      match e with
      | inr1 (inr1 e) => fun a => Some (answered e a)
      | _ => fun _ => None
      end a
  end.

Definition glsl_calls (calls : list (Answered appE)) : list (Answered glslE) :=
  omap glsl_call_of calls.

(** The message for a stage object whose compile status is false: a title
    line and the log, as far as it fits the buffer. *)
Definition stage_message (title : string) (bufSize : GLsizei) (so : ShaderObject) : string :=
  if so_compile_status so then ""
  else title +:+ nl +:+ info_log_text bufSize (so_info_log so) +:+ nl.

(** The world after [calls]. *)
Definition world_after (drv : Driver) (w : World) (calls : list (Answered glslE)) : World :=
  foldl (fun w c => match c with answered e _ => (glsl_call drv e w).1 end) w calls.

(** *** The calls of a run of [main] in ex03_Shaders/main.cpp that gets
    through the initialization *)

Definition ex03_startup (window : GLFWwindow) : list (Answered appE) :=
  [answered (inl1 GlfwInit) true;
   answered (inl1 (GlfwWindowHint GLFW_CONTEXT_VERSION_MAJOR (GLFW_int 3))) tt;
   answered (inl1 (GlfwWindowHint GLFW_CONTEXT_VERSION_MINOR (GLFW_int 3))) tt;
   answered (inl1 (GlfwWindowHint GLFW_OPENGL_PROFILE GLFW_OPENGL_CORE_PROFILE)) tt;
   answered (inl1 (GlfwCreateWindow 800 600 "Shaders in OpenGL")) (Some window);
   answered (inl1 (GlfwMakeContextCurrent window)) tt;
   answered (inl1 GladLoadGLLoader) true].

Definition ex03_buffers (VAO VBO EBO : GLuint) : list (Answered appE) :=
  [answered (inr1 (inl1 (GlViewport 0 0 800 600))) tt;
   answered (inr1 (inl1 (GlGenVertexArrays 1))) VAO;
   answered (inr1 (inl1 (GlBindVertexArray VAO))) tt;
   answered (inr1 (inl1 (GlGenBuffers 1))) VBO;
   answered (inr1 (inl1 (GlBindBuffer GL_ARRAY_BUFFER VBO))) tt;
   answered (inr1 (inl1 (GlGenBuffers 1))) EBO;
   answered (inr1 (inl1 (GlBindBuffer GL_ELEMENT_ARRAY_BUFFER EBO))) tt;
   answered (inr1 (inl1 (GlBufferData GL_ELEMENT_ARRAY_BUFFER (12 * Ex03.sizeof_unsigned_int)
                           (UintData Ex03.indices) GL_STATIC_DRAW))) tt;
   answered (inr1 (inl1 (GlBufferData GL_ARRAY_BUFFER (24 * Ex03.sizeof_float)
                           (FloatData Ex03.vertices) GL_STATIC_DRAW))) tt;
   answered (inr1 (inl1 (GlVertexAttribPointer 0 3 GL_FLOAT GL_FALSE
                           (3 * Ex03.sizeof_float) 0))) tt;
   answered (inr1 (inl1 (GlEnableVertexAttribArray 0))) tt;
   answered (inr1 (inl1 (GlBindVertexArray 0))) tt].

(** The calls of [Shader::checkCompileErrors] on a stage object, and on a
    program object; [success] is the status read, [log] the log read when it
    is 0. *)
Definition check_stage_calls (shader : GLuint) (type : string) (success : GLint) (log : string)
  : list (Answered appE) :=
  [answered (inr1 (inr1 (inl1 (GlGetShaderiv shader GL_COMPILE_STATUS)))) success]
  ++ (if not_ success then
        [answered (inr1 (inr1 (inl1 (GlGetShaderInfoLog shader 1024)))) log;
         answered (inr1 (inr1 (inr1 (Cerr ("SHADER COMPILE ERROR [" +:+ type +:+ "]:" +:+ nl
                                           +:+ log +:+ nl))))) tt]
      else []).

Definition check_program_calls (program : GLuint) (success : GLint) (log : string)
  : list (Answered appE) :=
  [answered (inr1 (inr1 (inl1 (GlGetProgramiv program GL_LINK_STATUS)))) success]
  ++ (if not_ success then
        [answered (inr1 (inr1 (inl1 (GlGetProgramInfoLog program 1024)))) log;
         answered (inr1 (inr1 (inr1 (Cerr ("PROGRAM LINK ERROR:" +:+ nl +:+ log +:+ nl))))) tt]
      else []).

(** What a run of the [Shader] constructor is made of: the two files as the
    file system answered, the three names that the GL gave, and the three
    statuses with their logs. *)
Record ShaderAnswers := {
  sa_vFile : option string;
  sa_fFile : option string;
  sa_vert : GLuint;
  sa_vert_status : GLint;
  sa_vert_log : string;
  sa_frag : GLuint;
  sa_frag_status : GLint;
  sa_frag_log : string;
  sa_ID : GLuint;
  sa_link_status : GLint;
  sa_link_log : string
}.

(** The calls of the [Shader] constructor. *)
Definition new_calls (vertexPath fragmentPath : string) (a : ShaderAnswers)
  : list (Answered appE) :=
  [answered (inr1 (inr1 (inr1 (IfstreamRead vertexPath)))) (sa_vFile a);
   answered (inr1 (inr1 (inr1 (IfstreamRead fragmentPath)))) (sa_fFile a);
   answered (inr1 (inr1 (inl1 (GlCreateShader GL_VERTEX_SHADER)))) (sa_vert a);
   answered (inr1 (inr1 (inl1 (GlShaderSource (sa_vert a) [default "" (sa_vFile a)])))) tt;
   answered (inr1 (inr1 (inl1 (GlCompileShader (sa_vert a))))) tt]
  ++ check_stage_calls (sa_vert a) "VERTEX" (sa_vert_status a) (sa_vert_log a)
  ++ [answered (inr1 (inr1 (inl1 (GlCreateShader GL_FRAGMENT_SHADER)))) (sa_frag a);
      answered (inr1 (inr1 (inl1 (GlShaderSource (sa_frag a) [default "" (sa_fFile a)])))) tt;
      answered (inr1 (inr1 (inl1 (GlCompileShader (sa_frag a))))) tt]
  ++ check_stage_calls (sa_frag a) "FRAGMENT" (sa_frag_status a) (sa_frag_log a)
  ++ [answered (inr1 (inr1 (inl1 GlCreateProgram))) (sa_ID a);
      answered (inr1 (inr1 (inl1 (GlAttachShader (sa_ID a) (sa_vert a))))) tt;
      answered (inr1 (inr1 (inl1 (GlAttachShader (sa_ID a) (sa_frag a))))) tt;
      answered (inr1 (inr1 (inl1 (GlLinkProgram (sa_ID a))))) tt]
  ++ check_program_calls (sa_ID a) (sa_link_status a) (sa_link_log a)
  ++ [answered (inr1 (inr1 (inl1 (GlDeleteShader (sa_vert a))))) tt;
      answered (inr1 (inr1 (inl1 (GlDeleteShader (sa_frag a))))) tt].

(** One pass through the body of the render loop; [locs] are the two
    answers of [glGetUniformLocation]. *)
Definition ex03_frame (window : GLFWwindow) (VAO ID : GLuint) (locs : GLint * GLint)
  : list (Answered appE) :=
  [answered (inl1 (GlfwWindowShouldClose window)) false;
   answered (inr1 (inl1 (GlClearColor 0.1 0.15 0.15 1.0))) tt;
   answered (inr1 (inl1 (GlClear GL_COLOR_BUFFER_BIT))) tt;
   answered (inr1 (inr1 (inl1 (GlUseProgram ID)))) tt;
   answered (inr1 (inl1 (GlBindVertexArray VAO))) tt;
   answered (inr1 (inr1 (inl1 (GlGetUniformLocation ID "uColor")))) locs.1;
   answered (inr1 (inr1 (inl1 (GlUniform4f locs.1 0.0%Q 0.0%Q 1.0%Q 1.0%Q)))) tt;
   answered (inr1 (inl1 (GlDrawElements GL_TRIANGLES 6 GL_UNSIGNED_INT 0))) tt;
   answered (inr1 (inr1 (inl1 (GlGetUniformLocation ID "uColor")))) locs.2;
   answered (inr1 (inr1 (inl1 (GlUniform4f locs.2 1.0%Q 0.0%Q 0.0%Q 1.0%Q)))) tt;
   answered (inr1 (inl1 (GlDrawElements GL_TRIANGLES 6 GL_UNSIGNED_INT
                           (6 * Ex03.sizeof_unsigned_int)))) tt;
   answered (inl1 (GlfwSwapBuffers window)) tt;
   answered (inl1 GlfwPollEvents) tt].

Definition ex03_frames (window : GLFWwindow) (VAO ID : GLuint) (locs : list (GLint * GLint))
  : list (Answered appE) :=
  flat_map (ex03_frame window VAO ID) locs
  ++ [answered (inl1 (GlfwWindowShouldClose window)) true].

(** The end of [main]: the program object goes with [shader] when [main]
    returns. *)
Definition ex03_finish (ID : GLuint) : list (Answered appE) :=
  [answered (inl1 GlfwTerminate) tt;
   answered (inr1 (inr1 (inr1 (Cout ("Hello World!" +:+ nl))))) tt;
   answered (inr1 (inr1 (inl1 (GlDeleteProgram ID)))) tt].

(** No file that the run reads holds a NUL character. *)
Definition read_text (c : Answered appE) : option string :=
  match c with
  | answered e a =>
      match e with
      | inr1 (inr1 (inr1 e)) =>
          match e in ioE A return A -> option string with
          | IfstreamRead _ => fun stream => stream
          | _ => fun _ => None
          end
      | _ => fun _ => None
      end a
  end.

Definition files_without_NUL (calls : list (Answered appE)) : Prop :=
  Forall (fun text => c_str text = text) (omap read_text calls).

(** * Properties *)

(** ** Strings and lines *)

Lemma append_nil_l (a : string) : "" +:+ a = a.
Proof. reflexivity. Qed.

Lemma append_cons (x : ascii) (a b : string) : String x a +:+ b = String x (a +:+ b).
Proof. reflexivity. Qed.

Lemma append_assoc (a b c : string) : (a +:+ b) +:+ c = a +:+ (b +:+ c).
Proof.
  induction a as [|x a IH]; [reflexivity|].
  now rewrite !append_cons, IH.
Qed.

Lemma append_nil_r (a : string) : a +:+ "" = a.
Proof.
  induction a as [|x a IH]; [reflexivity|].
  now rewrite append_cons, IH.
Qed.

Lemma substring_prefix (pat s : string) :
  String.substring 0 (String.length pat) s = pat -> exists post, s = pat +:+ post.
Proof.
  revert s. induction pat as [|c pat IH]; intros s H.
  - now exists s.
  - destruct s as [|d s]; simpl in H; [discriminate|].
    injection H as -> H. destruct (IH s H) as [post ->]. now exists post.
Qed.

Lemma substring_occurrence (m : nat) (pat s : string) :
  String.substring m (String.length pat) s = pat ->
  exists pre post, s = pre +:+ pat +:+ post.
Proof.
  revert s. induction m as [|m IH]; intros s H.
  - destruct (substring_prefix pat s H) as [post ->]. now exists "", post.
  - destruct s as [|c s]; simpl in H.
    + exists "", "". now rewrite <- H.
    + destruct (IH s H) as (pre & post & ->). now exists (String c pre), post.
Qed.

Lemma substring_append (pre pat post : string) :
  String.substring (String.length pre) (String.length pat) (pre +:+ pat +:+ post) = pat.
Proof.
  induction pre as [|c pre IH]; [|exact IH].
  change ("" +:+ pat +:+ post) with (pat +:+ post).
  induction pat as [|c pat IH].
  - now destruct post.
  - rewrite append_cons. simpl in *. now rewrite IH.
Qed.

(** [s.find(pat) != npos] says that [pat] occurs in [s]. *)
Lemma found_spec (s pat : string) :
  pat <> "" ->
  found s pat = true <-> exists pre post, s = pre +:+ pat +:+ post.
Proof.
  intros Hpat. unfold found, find, npos. rewrite bool_decide_eq_true. split.
  - destruct (String.index 0 pat s) as [m|] eqn:H; [intros _|congruence].
    apply index_correct1 in H. now apply substring_occurrence with m.
  - intros (pre & post & ->) H.
    apply (index_correct3 0 (String.length pre) _ _ H Hpat); [lia|].
    apply substring_append.
Qed.

(** [std::getline] delivers a newline-terminated first line and goes on with
    what follows it. *)
Lemma getlines_line (line rest : string) :
  has_LF line = false ->
  getlines (line +:+ nl +:+ rest) = line :: getlines rest.
Proof.
  induction line as [|c line IH]; intros H.
  - reflexivity.
  - apply orb_false_iff in H as [Hc Hline].
    rewrite append_cons. simpl. rewrite Hc, (IH Hline). reflexivity.
Qed.

Example getlines_unterminated : getlines ("a" +:+ nl +:+ "b") = ["a"; "b"].
Proof. reflexivity. Qed.

Example getlines_terminated : getlines ("a" +:+ nl +:+ "b" +:+ nl) = ["a"; "b"].
Proof. reflexivity. Qed.

Example getlines_empty_line : getlines ("a" +:+ nl +:+ nl +:+ "b") = ["a"; ""; "b"].
Proof. reflexivity. Qed.

Example getlines_empty_stream : getlines "" = [].
Proof. reflexivity. Qed.

(** Every list of lines is what [std::getline] delivers on some stream. *)
Lemma getlines_newline_terminated (lines : list string) :
  Forall (fun line => has_LF line = false) lines ->
  getlines (newline_terminated lines) = lines.
Proof.
  induction 1 as [|line lines Hline _ IH]; simpl; [reflexivity|].
  now rewrite getlines_line, IH.
Qed.

(** Written line by line, a text has one ['\n'] more than joined. *)
Lemma newline_terminated_joined (line : string) (lines : list string) :
  newline_terminated (line :: lines) = newline_joined (line :: lines) +:+ nl.
Proof.
  revert line. induction lines as [|l lines IH]; intros line.
  - simpl. now rewrite append_nil_r.
  - change (line +:+ nl +:+ newline_terminated (l :: lines)
            = (line +:+ nl +:+ newline_joined (l :: lines)) +:+ nl).
    now rewrite IH, !append_assoc.
Qed.

(** ** The splitter's loop *)

Lemma alter_twice {A} (f g : A -> A) (i : nat) (l : list A) :
  alter g i (alter f i l) = alter (fun x => g (f x)) i l.
Proof.
  revert i. induction l as [|x l IH]; intros [|i]; simpl; try reflexivity.
  f_equal. apply IH.
Qed.

Lemma stream_lines_open (fs : FileSystem) filePath content :
  fs !! filePath = Some content -> stream_lines fs filePath = getlines content.
Proof. unfold stream_lines. now intros ->. Qed.

Lemma ParseShader_result (fs : FileSystem) filePath content :
  fs !! filePath = Some content ->
  (ParseShader fs filePath).2 = ParseState_result (parse_lines (getlines content)).
Proof. intros H. unfold ParseShader. simpl. now rewrite (stream_lines_open _ _ _ H). Qed.

(** Before the first marker nothing is written. *)
Lemma loop_NONE (lines : list string) (ss : list string) :
  Forall (fun line => marker_line line = false) lines ->
  foldl loop_body (NONE, ss) lines = (NONE, ss).
Proof.
  induction 1 as [|line lines Hline _ IH]; simpl; [reflexivity|].
  unfold marker_line in Hline. now rewrite Hline.
Qed.

(** Lines without a marker all go to the active stage's buffer. *)
Lemma loop_active (lines : list string) (type : ShaderType) (ss : list string) :
  type <> NONE ->
  Forall (fun line => marker_line line = false) lines ->
  foldl loop_body (type, ss) lines
  = (type, alter (fun buf => buf +:+ newline_terminated lines)
             (Z.to_nat (ShaderType_int type)) ss).
Proof.
  intros Htype Hlines. revert ss.
  induction Hlines as [|line lines Hline _ IH]; intros ss; simpl.
  - f_equal. symmetry. apply list_alter_id. intros buf. apply append_nil_r.
  - unfold marker_line in Hline. rewrite Hline.
    rewrite bool_decide_true by assumption.
    rewrite IH. unfold ss_write. rewrite alter_twice.
    f_equal. apply list_alter_ext; [|reflexivity]. intros buf _. simpl.
    now rewrite !append_assoc.
Qed.

(** A marker line that names no stage changes nothing. *)
Lemma loop_body_unnamed_marker (st : ParseState) (line : string) :
  found line "#shader" = true ->
  found line "vertex" = false ->
  found line "fragment" = false ->
  loop_body st line = st.
Proof. destruct st as [type ss]. simpl. now intros -> -> ->. Qed.

(** Without a fragment marker the stage is never [FRAGMENT] and [ss[1]]
    stays empty. *)
Lemma loop_no_fragment (lines : list string) (st : ParseState) :
  Forall (fun line => fragment_marker line = false) lines ->
  st.1 <> FRAGMENT -> st.2 !! 1%nat = Some "" ->
  (foldl loop_body st lines).2 !! 1%nat = Some "".
Proof.
  intros Hlines. revert st.
  induction Hlines as [|line lines Hline _ IH]; intros [type ss] Htype Hss; simpl in *.
  - assumption.
  - apply IH; unfold fragment_marker in Hline;
      destruct (found line "#shader"), (found line "vertex"), (found line "fragment");
      simpl in *; try discriminate; try assumption;
      destruct type; simpl; try congruence;
      unfold ss_write; simpl; now rewrite list_lookup_alter_ne by lia.
Qed.

(** Without a vertex marker the stage is never [VERTEX] and [ss[0]] stays
    empty. *)
Lemma loop_no_vertex (lines : list string) (st : ParseState) :
  Forall (fun line => vertex_marker line = false) lines ->
  st.1 <> VERTEX -> st.2 !! 0%nat = Some "" ->
  (foldl loop_body st lines).2 !! 0%nat = Some "".
Proof.
  intros Hlines. revert st.
  induction Hlines as [|line lines Hline _ IH]; intros [type ss] Htype Hss; simpl in *.
  - assumption.
  - apply IH; unfold vertex_marker in Hline;
      destruct (found line "#shader"), (found line "vertex"), (found line "fragment");
      simpl in *; try discriminate; try assumption;
      destruct type; simpl; try congruence;
      unfold ss_write; simpl; now rewrite list_lookup_alter_ne by lia.
Qed.

(** ** The splitter: [ParseShader] *)

(** C1, as the specification words it, fails: on the file [Basic_shader],
    whose lines are a vertex marker, ["a"], a fragment marker and ["b"],
    [ParseShader] does not return the newline-joined texts ["a"] and ["b"]:
    each buffer also ends with ['\n']. *)
Lemma ParseShader_newline_joined_counterexample :
  let fs : FileSystem := {[ "Basic.shader" := Basic_shader ]} in
  fs !! "Basic.shader" = Some Basic_shader /\
  getlines Basic_shader = "#shader vertex" :: ["a"] ++ "#shader fragment" :: ["b"] /\
  vertex_marker "#shader vertex" = true /\
  Forall (fun line => marker_line line = false) ["a"] /\
  fragment_marker "#shader fragment" = true /\
  Forall (fun line => marker_line line = false) ["b"] /\
  (ParseShader fs "Basic.shader").2
  <> {| VertexSource := newline_joined ["a"]; FragmentSource := newline_joined ["b"] |}.
Proof.
  repeat split; try reflexivity; try (repeat constructor).
  vm_compute. discriminate.
Qed.

(** C1, amended: for every input file whose lines are a vertex-marker line,
    then N lines without a marker, then a fragment-marker line, then M lines
    without a marker, [ParseShader] returns as [VertexSource] exactly those N
    lines in their order, each followed by a newline, and as [FragmentSource]
    exactly those M lines in their order, each followed by a newline. *)
Theorem ParseShader_vertex_then_fragment
    (fs : FileSystem) (filePath content : string)
    (vertexLine fragmentLine : string) (vertexLines fragmentLines : list string) :
  fs !! filePath = Some content ->
  getlines content = vertexLine :: vertexLines ++ fragmentLine :: fragmentLines ->
  vertex_marker vertexLine = true ->
  Forall (fun line => marker_line line = false) vertexLines ->
  fragment_marker fragmentLine = true ->
  Forall (fun line => marker_line line = false) fragmentLines ->
  (ParseShader fs filePath).2
  = {| VertexSource := newline_terminated vertexLines;
       FragmentSource := newline_terminated fragmentLines |}.
Proof.
  intros Hfile Hlines Hv Hvs Hf Hfs.
  rewrite (ParseShader_result _ _ _ Hfile), Hlines.
  unfold parse_lines, ParseState_init. simpl foldl at 1.
  apply andb_true_iff in Hv as [Hv1 Hv2].
  unfold fragment_marker in Hf.
  apply andb_true_iff in Hf as [Hf12 Hf3].
  apply andb_true_iff in Hf12 as [Hf1 Hf2]. apply negb_true_iff in Hf2.
  simpl. rewrite Hv1, Hv2.
  rewrite foldl_app, loop_active by (assumption || discriminate).
  simpl. rewrite Hf1, Hf2, Hf3.
  rewrite loop_active by (assumption || discriminate).
  reflexivity.
Qed.

Lemma ParseShader_vertex_then_fragment_witness :
  (ParseShader {[ "Basic.shader" := Basic_shader ]} "Basic.shader").2
  = {| VertexSource := newline_terminated ["a"];
       FragmentSource := newline_terminated ["b"] |}.
Proof.
  apply (ParseShader_vertex_then_fragment
           {[ "Basic.shader" := Basic_shader ]} "Basic.shader" Basic_shader
           "#shader vertex" "#shader fragment" ["a"] ["b"]).
  - reflexivity.
  - reflexivity.
  - reflexivity.
  - repeat constructor.
  - reflexivity.
  - repeat constructor.
Defined.

(** C2: for every input file none of whose lines holds the marker token,
    both [VertexSource] and [FragmentSource] of the result are empty. *)
Theorem ParseShader_no_marker (fs : FileSystem) (filePath content : string) :
  fs !! filePath = Some content ->
  Forall (fun line => marker_line line = false) (getlines content) ->
  (ParseShader fs filePath).2 = {| VertexSource := ""; FragmentSource := "" |}.
Proof.
  intros Hfile Hlines.
  rewrite (ParseShader_result _ _ _ Hfile).
  unfold parse_lines, ParseState_init. now rewrite loop_NONE.
Qed.

Lemma ParseShader_no_marker_witness :
  (ParseShader {[ "plain.txt" := "void main() {" +:+ nl +:+ "}" +:+ nl ]} "plain.txt").2
  = {| VertexSource := ""; FragmentSource := "" |}.
Proof.
  apply (ParseShader_no_marker _ _ ("void main() {" +:+ nl +:+ "}" +:+ nl)).
  - reflexivity.
  - vm_compute. repeat constructor.
Defined.

(** C3: for every input file with a vertex marker and no fragment marker the
    returned [FragmentSource] is empty, and for every input file with a
    fragment marker and no vertex marker the returned [VertexSource] is
    empty. *)
Theorem ParseShader_single_marker (fs : FileSystem) (filePath content : string) :
  fs !! filePath = Some content ->
  (Exists (fun line => vertex_marker line = true) (getlines content) ->
   Forall (fun line => fragment_marker line = false) (getlines content) ->
   FragmentSource (ParseShader fs filePath).2 = "") /\
  (Exists (fun line => fragment_marker line = true) (getlines content) ->
   Forall (fun line => vertex_marker line = false) (getlines content) ->
   VertexSource (ParseShader fs filePath).2 = "").
Proof.
  intros Hfile. rewrite (ParseShader_result _ _ _ Hfile).
  unfold ParseState_result, parse_lines. simpl. split; intros _ Hnone.
  - apply list_lookup_total_correct.
    apply loop_no_fragment; [assumption | discriminate | reflexivity].
  - apply list_lookup_total_correct.
    apply loop_no_vertex; [assumption | discriminate | reflexivity].
Qed.

Lemma ParseShader_single_marker_witness :
  FragmentSource
    (ParseShader {[ "v.shader" := "#shader vertex" +:+ nl +:+ "a" +:+ nl ]} "v.shader").2 = ""
  /\ VertexSource
       (ParseShader {[ "f.shader" := "#shader fragment" +:+ nl +:+ "b" +:+ nl ]} "f.shader").2 = "".
Proof.
  split.
  - apply (ParseShader_single_marker _ _ ("#shader vertex" +:+ nl +:+ "a" +:+ nl)).
    + reflexivity.
    + vm_compute. apply Exists_cons_hd. reflexivity.
    + vm_compute. repeat constructor.
  - apply (ParseShader_single_marker _ _ ("#shader fragment" +:+ nl +:+ "b" +:+ nl)).
    + reflexivity.
    + vm_compute. apply Exists_cons_hd. reflexivity.
    + vm_compute. repeat constructor.
Defined.

(** C4: when the shader file cannot be opened, [ParseShader] writes a
    diagnostic to the error stream and still returns, with both buffers
    empty. *)
Theorem ParseShader_unreadable (fs : FileSystem) (filePath : string) :
  fs !! filePath = None ->
  ParseShader fs filePath
  = ("Failed to open shader file: " +:+ filePath +:+ nl,
     {| VertexSource := ""; FragmentSource := "" |})
  /\ (ParseShader fs filePath).1 <> "".
Proof.
  intros Hfile. unfold ParseShader, stream_lines. rewrite Hfile. simpl.
  split; [reflexivity | discriminate].
Qed.

Lemma ParseShader_unreadable_witness :
  ParseShader ∅ "Basic.shader"
  = ("Failed to open shader file: Basic.shader" +:+ nl,
     {| VertexSource := ""; FragmentSource := "" |})
  /\ (ParseShader ∅ "Basic.shader").1 <> "".
Proof. apply (ParseShader_unreadable ∅ "Basic.shader"). reflexivity. Defined.

(** C9: for every input file, a line that holds ["#shader"] and neither
    ["vertex"] nor ["fragment"] goes to neither buffer and leaves the active
    stage as it was: the loop's state after the line is its state before,
    and the lines that follow are treated as if the line were not there. *)
Theorem ParseShader_unnamed_marker
    (fs : FileSystem) (filePath content : string)
    (before after : list string) (line : string) :
  fs !! filePath = Some content ->
  getlines content = before ++ line :: after ->
  found line "#shader" = true ->
  found line "vertex" = false ->
  found line "fragment" = false ->
  loop_body (parse_lines before) line = parse_lines before /\
  (ParseShader fs filePath).2 = ParseState_result (parse_lines (before ++ after)).
Proof.
  intros Hfile Hlines H1 H2 H3.
  pose proof (loop_body_unnamed_marker (parse_lines before) line H1 H2 H3) as Hline.
  split; [exact Hline|].
  rewrite (ParseShader_result _ _ _ Hfile), Hlines.
  unfold parse_lines in *. rewrite !foldl_app. simpl. now rewrite Hline.
Qed.

Lemma ParseShader_unnamed_marker_witness :
  let content :=
    "#shader vertex" +:+ nl +:+ "a" +:+ nl +:+ "#shader geometry" +:+ nl +:+ "b" +:+ nl in
  loop_body (parse_lines ["#shader vertex"; "a"]) "#shader geometry"
  = parse_lines ["#shader vertex"; "a"] /\
  (ParseShader {[ "g.shader" := content ]} "g.shader").2
  = ParseState_result (parse_lines (["#shader vertex"; "a"] ++ ["b"])).
Proof.
  apply (ParseShader_unnamed_marker _ _
           ("#shader vertex" +:+ nl +:+ "a" +:+ nl +:+ "#shader geometry" +:+ nl +:+ "b" +:+ nl));
    reflexivity.
Defined.

(** C10: for every input file, the lines before the first marker line are
    dropped: whatever they hold, the result is the one of the remaining lines
    alone, so they are in neither [VertexSource] nor [FragmentSource]. *)
Theorem ParseShader_before_first_marker
    (fs : FileSystem) (filePath content : string) (before rest : list string) :
  fs !! filePath = Some content ->
  getlines content = before ++ rest ->
  Forall (fun line => marker_line line = false) before ->
  parse_lines before = ParseState_init /\
  (ParseShader fs filePath).2 = ParseState_result (parse_lines rest).
Proof.
  intros Hfile Hlines Hbefore.
  assert (parse_lines before = ParseState_init) as Hinit
    by (unfold parse_lines, ParseState_init; now apply loop_NONE).
  split; [exact Hinit|].
  rewrite (ParseShader_result _ _ _ Hfile), Hlines.
  unfold parse_lines in *. now rewrite foldl_app, Hinit.
Qed.

Lemma ParseShader_before_first_marker_witness :
  let content := "// header" +:+ nl +:+ "#shader vertex" +:+ nl +:+ "a" +:+ nl in
  parse_lines ["// header"] = ParseState_init /\
  (ParseShader {[ "h.shader" := content ]} "h.shader").2
  = ParseState_result (parse_lines ["#shader vertex"; "a"]).
Proof.
  apply (ParseShader_before_first_marker _ _
           ("// header" +:+ nl +:+ "#shader vertex" +:+ nl +:+ "a" +:+ nl)
           ["// header"] ["#shader vertex"; "a"]).
  - reflexivity.
  - reflexivity.
  - repeat constructor.
Defined.

(** ** Runs of interaction trees *)

Lemma run_inv {E R} (t : itree E R) (calls : list (Answered E)) (r : R) :
  run t calls r ->
  match observe t with
  | RetF r' => calls = [] /\ r = r'
  | TauF t' => run t' calls r
  | VisF e k => exists a calls', calls = answered e a :: calls' /\ run (k a) calls' r
  end.
Proof.
  intros [t0 r0 Hobs | t0 t' calls0 r0 Hobs Hrun | t0 A e k a calls0 r0 Hobs Hrun];
    rewrite Hobs; eauto.
Qed.

(** One call of a run that is known to exist: [a] is its answer. *)
Tactic Notation "run_step" hyp(H) "as" simple_intropattern(a) :=
  apply run_inv in H; cbn in H; destruct H as (a & ? & -> & H).

Lemma observe_subst {E R S} (k : R -> itree E S) (t : itree E R) :
  observe (ITree.subst k t)
  = observe (match observe t with
             | RetF r => k r
             | TauF t' => Tau (ITree.subst k t')
             | VisF e h => Vis e (fun x => ITree.subst k (h x))
             end).
Proof. reflexivity. Qed.


Tactic Notation "run_got" hyp(H) "as" simple_intropattern(a) :=
  destruct H as (a & ? & -> & H).

(** The end of a run that is known to exist. *)
Ltac run_end H :=
  apply run_inv in H; cbn in H; destruct H as [-> ->].

(** One call of a run that is being built, answered by [env]. *)
Ltac run_call env :=
  lazymatch goal with
  | |- run ?t _ _ =>
      let o := eval cbn in (observe t) in
      lazymatch o with
      | RetF _ => eapply run_Ret; reflexivity
      | VisF ?e ?k => eapply (run_Vis t _ e k (env _ e)); [reflexivity | cbn]
      end
  end.

(** ** The [main] functions *)

(** The three ways in which initialization fails in ex03_Shaders/main.cpp. *)
Lemma Ex03_main_failure (calls : list (Answered appE)) (status : Z) :
  run Ex03.main calls status ->
  initialization_failed calls ->
  status = -1 /\
  (calls = [answered (inl1 GlfwInit) false;
            answered (inr1 (inr1 (inr1 (Cerr ("Failed to initialize GLFW" +:+ nl))))) tt]
   \/ calls = [answered (inl1 GlfwInit) true;
               answered (inl1 (GlfwWindowHint GLFW_CONTEXT_VERSION_MAJOR (GLFW_int 3))) tt;
               answered (inl1 (GlfwWindowHint GLFW_CONTEXT_VERSION_MINOR (GLFW_int 3))) tt;
               answered (inl1 (GlfwWindowHint GLFW_OPENGL_PROFILE GLFW_OPENGL_CORE_PROFILE)) tt;
               answered (inl1 (GlfwCreateWindow 800 600 "Shaders in OpenGL")) None;
               answered (inr1 (inr1 (inr1 (Cerr ("Failed to create GLFW window" +:+ nl))))) tt;
               answered (inl1 GlfwTerminate) tt]
   \/ exists window,
       calls = [answered (inl1 GlfwInit) true;
                answered (inl1 (GlfwWindowHint GLFW_CONTEXT_VERSION_MAJOR (GLFW_int 3))) tt;
                answered (inl1 (GlfwWindowHint GLFW_CONTEXT_VERSION_MINOR (GLFW_int 3))) tt;
                answered (inl1 (GlfwWindowHint GLFW_OPENGL_PROFILE GLFW_OPENGL_CORE_PROFILE)) tt;
                answered (inl1 (GlfwCreateWindow 800 600 "Shaders in OpenGL")) (Some window);
                answered (inl1 (GlfwMakeContextCurrent window)) tt;
                answered (inl1 GladLoadGLLoader) false;
                answered (inr1 (inr1 (inr1 (Cerr ("Failed to initialize GLAD" +:+ nl))))) tt]).
Proof.
  intros H Hfail. unfold Ex03.main, glfw, stdio in H.
  run_step H as ok. destruct ok; cbn in H.
  - run_step H as []. run_step H as []. run_step H as [].
    run_step H as window. destruct window as [window|]; cbn in H.
    + run_step H as []. run_step H as loaded. destruct loaded; cbn in H.
      * exfalso. destruct Hfail as [Hf | [Hf | Hf]];
          unfold glfwInit_failed, glfwCreateWindow_failed, gladLoadGLLoader_failed in Hf;
          simpl in Hf; discriminate Hf.
      * run_step H as []. run_end H. split; [reflexivity|].
        right. right. now exists window.
    + run_step H as []. run_step H as []. run_end H. split; [reflexivity|].
      right. now left.
  - run_step H as []. run_end H. split; [reflexivity|]. now left.
Qed.

(** The same for HelloWorld_GL.cpp, which also registers the resize
    callback before it loads the GL. *)
Lemma HelloWorldGL_main_failure (calls : list (Answered appE)) (status : Z) :
  run HelloWorldGL.main calls status ->
  initialization_failed calls ->
  status = -1 /\
  (calls = [answered (inl1 GlfwInit) false;
            answered (inr1 (inr1 (inr1 (Cerr ("Failed to initialize GLFW" +:+ nl))))) tt]
   \/ calls = [answered (inl1 GlfwInit) true;
               answered (inl1 (GlfwWindowHint GLFW_CONTEXT_VERSION_MAJOR (GLFW_int 3))) tt;
               answered (inl1 (GlfwWindowHint GLFW_CONTEXT_VERSION_MINOR (GLFW_int 3))) tt;
               answered (inl1 (GlfwWindowHint GLFW_OPENGL_PROFILE GLFW_OPENGL_CORE_PROFILE)) tt;
               answered (inl1 (GlfwCreateWindow 800 600 "Hello OpenGL")) None;
               answered (inr1 (inr1 (inr1 (Cerr ("Failed to create GLFW window" +:+ nl))))) tt;
               answered (inl1 GlfwTerminate) tt]
   \/ exists window,
       calls = [answered (inl1 GlfwInit) true;
                answered (inl1 (GlfwWindowHint GLFW_CONTEXT_VERSION_MAJOR (GLFW_int 3))) tt;
                answered (inl1 (GlfwWindowHint GLFW_CONTEXT_VERSION_MINOR (GLFW_int 3))) tt;
                answered (inl1 (GlfwWindowHint GLFW_OPENGL_PROFILE GLFW_OPENGL_CORE_PROFILE)) tt;
                answered (inl1 (GlfwCreateWindow 800 600 "Hello OpenGL")) (Some window);
                answered (inl1 (GlfwMakeContextCurrent window)) tt;
                answered (inl1 (GlfwSetFramebufferSizeCallback window)) tt;
                answered (inl1 GladLoadGLLoader) false;
                answered (inr1 (inr1 (inr1 (Cerr ("Failed to initialize GLAD" +:+ nl))))) tt]).
Proof.
  intros H Hfail. unfold HelloWorldGL.main, glfw, stdio in H.
  run_step H as ok. destruct ok; cbn in H.
  - run_step H as []. run_step H as []. run_step H as [].
    run_step H as window. destruct window as [window|]; cbn in H.
    + run_step H as []. run_step H as []. run_step H as loaded.
      destruct loaded; cbn in H.
      * exfalso. destruct Hfail as [Hf | [Hf | Hf]];
          unfold glfwInit_failed, glfwCreateWindow_failed, gladLoadGLLoader_failed in Hf;
          simpl in Hf; discriminate Hf.
      * run_step H as []. run_end H. split; [reflexivity|].
        right. right. now exists window.
    + run_step H as []. run_step H as []. run_end H. split; [reflexivity|].
      right. now left.
  - run_step H as []. run_end H. split; [reflexivity|]. now left.
Qed.

(** Whatever else the environment answers, a failing initialization makes
    ex03_Shaders/main.cpp return. *)
Lemma Ex03_main_returns (env : Environment appE) :
  initialization_fails env ->
  exists calls,
    run Ex03.main calls (-1) /\ follows env calls /\ initialization_failed calls.
Proof.
  intros Hfail.
  destruct (env _ (inl1 GlfwInit)) eqn:Hinit;
    [destruct (env _ (inl1 (GlfwCreateWindow 800 600 "Shaders in OpenGL")))
       as [window|] eqn:Hwindow;
     [destruct (env _ (inl1 GladLoadGLLoader)) eqn:Hglad|]|].
  - exfalso. destruct Hfail as [H | [H | H]]; [congruence | | congruence].
    rewrite H in Hwindow. discriminate.
  - eexists. split; [|split].
    + unfold Ex03.main, glfw, stdio.
      do 8 (run_call env; rewrite ?Hinit, ?Hwindow, ?Hglad; cbn). run_call env.
    + repeat constructor.
    + right. right. unfold gladLoadGLLoader_failed. simpl. now rewrite Hglad.
  - eexists. split; [|split].
    + unfold Ex03.main, glfw, stdio.
      do 7 (run_call env; rewrite ?Hinit, ?Hwindow; cbn). run_call env.
    + repeat constructor.
    + right. left. unfold glfwCreateWindow_failed. simpl. now rewrite Hwindow.
  - eexists. split; [|split].
    + unfold Ex03.main, glfw, stdio.
      do 2 (run_call env; rewrite ?Hinit; cbn). run_call env.
    + repeat constructor.
    + left. unfold glfwInit_failed. simpl. now rewrite Hinit.
Qed.

Lemma HelloWorldGL_main_returns (env : Environment appE) :
  initialization_fails env ->
  exists calls,
    run HelloWorldGL.main calls (-1) /\ follows env calls /\ initialization_failed calls.
Proof.
  intros Hfail.
  destruct (env _ (inl1 GlfwInit)) eqn:Hinit;
    [destruct (env _ (inl1 (GlfwCreateWindow 800 600 "Hello OpenGL")))
       as [window|] eqn:Hwindow;
     [destruct (env _ (inl1 GladLoadGLLoader)) eqn:Hglad|]|].
  - exfalso. destruct Hfail as [H | [H | H]]; [congruence | | congruence].
    rewrite H in Hwindow. discriminate.
  - eexists. split; [|split].
    + unfold HelloWorldGL.main, glfw, stdio.
      do 9 (run_call env; rewrite ?Hinit, ?Hwindow, ?Hglad; cbn). run_call env.
    + repeat constructor.
    + right. right. unfold gladLoadGLLoader_failed. simpl. now rewrite Hglad.
  - eexists. split; [|split].
    + unfold HelloWorldGL.main, glfw, stdio.
      do 7 (run_call env; rewrite ?Hinit, ?Hwindow; cbn). run_call env.
    + repeat constructor.
    + right. left. unfold glfwCreateWindow_failed. simpl. now rewrite Hwindow.
  - eexists. split; [|split].
    + unfold HelloWorldGL.main, glfw, stdio.
      do 2 (run_call env; rewrite ?Hinit; cbn). run_call env.
    + repeat constructor.
    + left. unfold glfwInit_failed. simpl. now rewrite Hinit.
Qed.

(** C7: in every run of [main] (ex03_Shaders/main.cpp and HelloWorld_GL.cpp)
    in which GLFW initialization, window creation or GL loader
    initialization fails, [main] writes a diagnostic to the error stream and
    returns -1, a non-zero exit status, without evaluating the test of the
    render loop and without a call to the GL; and in every environment in
    which one of the three fails, [main] does return. *)
Theorem main_initialization_failure (main : itree appE Z) :
  main = Ex03.main \/ main = HelloWorldGL.main ->
  (forall calls status,
      run main calls status ->
      initialization_failed calls ->
      cerr_text calls <> "" /\
      status = -1 /\ status <> 0 /\
      render_loop_entered calls = false /\
      existsb is_GL_call calls = false) /\
  (forall env : Environment appE,
      initialization_fails env ->
      exists calls,
        run main calls (-1) /\ follows env calls /\ initialization_failed calls).
Proof.
  intros [-> | ->]; split.
  - intros calls status Hrun Hfail.
    destruct (Ex03_main_failure calls status Hrun Hfail)
      as [-> [-> | [-> | [window ->]]]]; repeat split; discriminate.
  - apply Ex03_main_returns.
  - intros calls status Hrun Hfail.
    destruct (HelloWorldGL_main_failure calls status Hrun Hfail)
      as [-> [-> | [-> | [window ->]]]]; repeat split; discriminate.
  - apply HelloWorldGL_main_returns.
Qed.

Lemma main_initialization_failure_witness :
  let calls : list (Answered appE) :=
    [answered (inl1 GlfwInit) false;
     answered (inr1 (inr1 (inr1 (Cerr ("Failed to initialize GLFW" +:+ nl))))) tt] in
  cerr_text calls <> "" /\
  -1 = -1 /\ -1 <> 0 /\
  render_loop_entered calls = false /\
  existsb is_GL_call calls = false.
Proof.
  intros calls.
  apply (proj1 (main_initialization_failure Ex03.main (or_introl eq_refl)) calls (-1)).
  - unfold calls, Ex03.main, glfw, stdio.
    eapply run_Vis; [cbn; reflexivity|]. cbn.
    eapply run_Vis; [cbn; reflexivity|]. cbn.
    eapply run_Ret. reflexivity.
  - left. reflexivity.
Defined.

(** ** The [Shader] class *)

Lemma checkCompileErrors_shader (shader : GLuint) (type : string) :
  type <> "PROGRAM" ->
  Shader.checkCompileErrors shader type
  = (success ← gl (GlGetShaderiv shader GL_COMPILE_STATUS);
     if not_ success then
       log ← gl (GlGetShaderInfoLog shader 1024);
       io (Cerr ("SHADER COMPILE ERROR [" +:+ type +:+ "]:" +:+ nl +:+ log +:+ nl))
     else mret tt).
Proof. intros H. unfold Shader.checkCompileErrors. now rewrite bool_decide_true. Qed.

Lemma checkCompileErrors_program (program : GLuint) :
  Shader.checkCompileErrors program "PROGRAM"
  = (success ← gl (GlGetProgramiv program GL_LINK_STATUS);
     if not_ success then
       log ← gl (GlGetProgramInfoLog program 1024);
       io (Cerr ("PROGRAM LINK ERROR:" +:+ nl +:+ log +:+ nl))
     else mret tt).
Proof. unfold Shader.checkCompileErrors. now rewrite bool_decide_false by (intros H; now apply H). Qed.

(** The constructor with its three checks spelled out. *)
Lemma Shader_new_unfold (vertexPath fragmentPath : string) :
  Shader.new vertexPath fragmentPath
  = (vFile ← io (IfstreamRead vertexPath);
     fFile ← io (IfstreamRead fragmentPath);
     vert ← gl (GlCreateShader GL_VERTEX_SHADER);
     gl (GlShaderSource vert [c_str (default "" vFile)]);;
     gl (GlCompileShader vert);;
     (success ← gl (GlGetShaderiv vert GL_COMPILE_STATUS);
      if not_ success then
        log ← gl (GlGetShaderInfoLog vert 1024);
        io (Cerr ("SHADER COMPILE ERROR [" +:+ "VERTEX" +:+ "]:" +:+ nl +:+ log +:+ nl))
      else mret tt);;
     frag ← gl (GlCreateShader GL_FRAGMENT_SHADER);
     gl (GlShaderSource frag [c_str (default "" fFile)]);;
     gl (GlCompileShader frag);;
     (success ← gl (GlGetShaderiv frag GL_COMPILE_STATUS);
      if not_ success then
        log ← gl (GlGetShaderInfoLog frag 1024);
        io (Cerr ("SHADER COMPILE ERROR [" +:+ "FRAGMENT" +:+ "]:" +:+ nl +:+ log +:+ nl))
      else mret tt);;
     ID ← gl GlCreateProgram;
     gl (GlAttachShader ID vert);;
     gl (GlAttachShader ID frag);;
     gl (GlLinkProgram ID);;
     (success ← gl (GlGetProgramiv ID GL_LINK_STATUS);
      if not_ success then
        log ← gl (GlGetProgramInfoLog ID 1024);
        io (Cerr ("PROGRAM LINK ERROR:" +:+ nl +:+ log +:+ nl))
      else mret tt);;
     gl (GlDeleteShader vert);;
     gl (GlDeleteShader frag);;
     mret {| Shader.ID := ID |}).
Proof. reflexivity. Qed.


(** *** Programs that return in every environment *)

Lemma run_observe {E R} (t t' : itree E R) (calls : list (Answered E)) (r : R) :
  observe t = observe t' -> run t calls r -> run t' calls r.
Proof.
  intros Heq H. revert Heq.
  destruct H as [t r Hobs | t u calls r Hobs Hrun | t A e k a calls r Hobs Hrun];
    intros Heq; rewrite Heq in Hobs.
  - now apply run_Ret.
  - now apply run_Tau with u.
  - now apply run_Vis with k.
Qed.

Lemma run_bind {E R S} (t : itree E R) (k : R -> itree E S)
    (calls1 calls2 : list (Answered E)) (x : R) (r : S) :
  run t calls1 x -> run (k x) calls2 r -> run (ITree.bind t k) (calls1 ++ calls2) r.
Proof.
  intros Ht Hk.
  induction Ht as [t x Hobs | t u calls1 x Hobs Hrun IH | t A e h a calls1 x Hobs Hrun IH].
  - apply (run_observe (k x)); [|exact Hk].
    rewrite observe_bind, Hobs. reflexivity.
  - apply run_Tau with (ITree.bind u k); [|now apply IH].
    rewrite observe_bind, Hobs. reflexivity.
  - simpl. apply run_Vis with (fun y => ITree.bind (h y) k); [|now apply IH].
    rewrite observe_bind, Hobs. reflexivity.
Qed.

Lemma returns_ret {E R} (env : Environment E) (r : R) : returns env (Ret r).
Proof. exists [], r. split; [now apply run_Ret | constructor]. Qed.

Lemma returns_trigger {E A} (env : Environment E) (e : E A) :
  returns env (ITree.trigger e).
Proof.
  exists [answered e (env _ e)], (env _ e). split.
  - eapply run_Vis; [reflexivity|]. now apply run_Ret.
  - now repeat constructor.
Qed.

Lemma returns_bind {E R S} (env : Environment E) (t : itree E R) (k : R -> itree E S) :
  returns env t -> (forall x, returns env (k x)) -> returns env (ITree.bind t k).
Proof.
  intros (calls1 & x & Ht & Hf1) Hk.
  destruct (Hk x) as (calls2 & r & Hkx & Hf2).
  exists (calls1 ++ calls2), r. split.
  - now apply run_bind with x.
  - now apply Forall_app.
Qed.

Ltac returns_steps :=
  unfold gl, io, mbind, itree_mbind, mret, itree_mret;
  repeat first
    [ apply returns_ret
    | apply returns_trigger
    | apply returns_bind; [|intros ?]
    | match goal with
      | |- returns _ (if ?b then _ else _) => destruct b
      end ].



(** *** The constructor against the GL's state *)

(** A run whose answers are the world's is what the handler computes. *)
Lemma interp_of_run (drv : Driver) {R} (t : itree glslE R) calls (r : R) :
  run t calls r ->
  forall w w', world_run drv w calls w' ->
  interp_state (h_world drv) t w ≈ Ret (w', r).
Proof.
  induction 1 as [t r Hobs | t u calls r Hobs Hrun IH | t A e k a calls r Hobs Hrun IH];
    intros w w' Hw.
  - simpl in Hw. subst w'. rewrite (itree_eta t), Hobs, interp_state_ret. reflexivity.
  - rewrite (itree_eta t), Hobs, interp_state_tau, tau_eutt. now apply IH.
  - destruct Hw as [Ha Hw].
    rewrite (itree_eta t), Hobs, interp_state_vis. unfold h_world at 1.
    rewrite bind_ret_l, tau_eutt. cbn [fst snd]. rewrite Ha. now apply IH.
Qed.

Lemma world_run_app drv w calls1 w1 calls2 w2 :
  world_run drv w calls1 w1 -> world_run drv w1 calls2 w2 ->
  world_run drv w (calls1 ++ calls2) w2.
Proof.
  revert w. induction calls1 as [|[A e a] calls1 IH]; intros w; simpl.
  - now intros ->.
  - intros [Ha H1] H2. split; [exact Ha|]. now apply IH.
Qed.

Lemma world_run_app_inv drv w calls1 calls2 w2 :
  world_run drv w (calls1 ++ calls2) w2 ->
  exists w1, world_run drv w calls1 w1 /\ world_run drv w1 calls2 w2.
Proof.
  revert w. induction calls1 as [|[A e a] calls1 IH]; intros w; simpl.
  - intros H. now exists w.
  - intros [Ha H]. destruct (IH _ H) as (w1 & H1 & H2). now exists w1.
Qed.

Lemma returns_in_ret drv {R} (r : R) : returns_in drv (Ret r).
Proof. intros w. exists [], r, w. split; [now apply run_Ret | reflexivity]. Qed.

Lemma returns_in_trigger drv {A} (e : glslE A) : returns_in drv (ITree.trigger e).
Proof.
  intros w. exists [answered e (glsl_call drv e w).2], (glsl_call drv e w).2, (glsl_call drv e w).1.
  split.
  - eapply run_Vis; [reflexivity|]. now apply run_Ret.
  - now split.
Qed.

Lemma returns_in_bind drv {R S} (t : itree glslE R) (k : R -> itree glslE S) :
  returns_in drv t -> (forall x, returns_in drv (k x)) -> returns_in drv (ITree.bind t k).
Proof.
  intros Ht Hk w.
  destruct (Ht w) as (calls1 & x & w1 & Hrun1 & Hw1).
  destruct (Hk x w1) as (calls2 & r & w2 & Hrun2 & Hw2).
  exists (calls1 ++ calls2), r, w2. split.
  - now apply run_bind with x.
  - now apply world_run_app with w1.
Qed.

Ltac returns_in_steps :=
  unfold gl, io, mbind, itree_mbind, mret, itree_mret;
  repeat first
    [ apply returns_in_ret
    | apply returns_in_trigger
    | apply returns_in_bind; [|intros ?]
    | match goal with
      | |- returns_in _ (if ?b then _ else _) => destruct b
      end ].






(** ** Programs run against the GL's state *)

Lemma interp_world_trigger (drv : Driver) {A} (e : glslE A) (w : World) :
  interp_state (h_world drv) (ITree.trigger e) w ≈ Ret (glsl_call drv e w).
Proof. rewrite interp_state_trigger. reflexivity. Qed.

Lemma interp_world_bind (drv : Driver) {A R} (e : glslE A) (k : A -> itree glslE R)
    (w : World) :
  interp_state (h_world drv) (ITree.bind (ITree.trigger e) k) w
  ≈ (let '(w', a) := glsl_call drv e w in interp_state (h_world drv) (k a) w').
Proof.
  rewrite interp_state_bind, interp_state_trigger. unfold h_world.
  rewrite bind_ret_l. destruct (glsl_call drv e w). reflexivity.
Qed.

(** [glGetUniformLocation] on a linked program answers -1 for a name that is
    not in the reflection data, and changes nothing. *)
Lemma GlGetUniformLocation_absent (drv : Driver) (w : World)
    (program : GLuint) (name : string) (po : ProgramObject) :
  programs (gl_state w) !! program = Some po ->
  po_link_status po = true ->
  po_uniforms po !! name = None ->
  glsl_call drv (inl1 (GlGetUniformLocation program name)) w = (w, -1).
Proof.
  intros Hpo Hlinked Hname. destruct w as [st fs err out].
  unfold glsl_call, shader_call. cbn [gl_state files cerr cout] in *.
  rewrite Hpo, Hlinked. unfold GLint in *. now rewrite Hname.
Qed.

(** A write to location -1 is ignored. *)
Lemma write_uniform_invalid (st : GLState) (v : UniformValue) :
  write_uniform st (-1) v = st.
Proof. reflexivity. Qed.

(** C5, as the specification words it, fails for a name with a NUL
    character in it: the setters hand [name.c_str()] to
    [glGetUniformLocation], which reads the name up to the NUL.  Program 3 of
    [world_example] is linked and in use, and its reflection data holds
    [uColor] only; the name [uColor], NUL, [x] is not in it, and yet
    [setVec4] with this name writes [uColor]: the state is not as it was. *)
Lemma Shader_set_absent_uniform_counterexample :
  let this := {| Shader.ID := 3 |} in
  let name := "uColor" +:+ String Ascii.zero "x" in
  let po :=
    {| po_attached := []; po_link_status := true; po_info_log := "";
       po_uniforms := {[ "uColor" := 0 ]};
       po_values := {[ 0 := U4f (Vec4 0 0 0 0) ]};
       po_delete_status := false |} in
  programs (gl_state world_example) !! Shader.ID this = Some po
  /\ po_link_status po = true
  /\ po_uniforms po !! name = None
  /\ (exists w',
         interp_state (h_world driver_example) (Shader.setVec4 this name (Vec4 1 0 0 1))
           world_example
         ≈ Ret (w', tt)
         /\ uniform_value (gl_state world_example) 3 0 = Some (U4f (Vec4 0 0 0 0))
         /\ uniform_value (gl_state w') 3 0 = Some (U4f (Vec4 1 0 0 1)))
  /\ ~ (interp_state (h_world driver_example) (Shader.setVec4 this name (Vec4 1 0 0 1))
          world_example
        ≈ Ret (world_example, tt)).
Proof.
  intros this name po.
  destruct (glsl_call driver_example (inl1 (GlUniform4f 0 1%Q 0%Q 0%Q 1%Q)) world_example)
    as [w' []] eqn:Hcall.
  assert (Hset : interp_state (h_world driver_example)
                   (Shader.setVec4 this name (Vec4 1 0 0 1)) world_example
                 ≈ Ret (w', tt)).
  { unfold Shader.setVec4, gl, mbind, itree_mbind.
    rewrite interp_world_bind.
    change (glsl_call driver_example
              (inl1 (GlGetUniformLocation (Shader.ID this) (c_str name)))
              world_example) with (world_example, 0).
    cbn iota beta. rewrite interp_world_trigger.
    cbn [v4x v4y v4z v4w]. rewrite Hcall. reflexivity. }
  assert (Hwritten : uniform_value (gl_state w') 3 0 = Some (U4f (Vec4 1 0 0 1))).
  { apply (f_equal fst) in Hcall. cbn [fst] in Hcall. subst w'.
    vm_compute. reflexivity. }
  split; [reflexivity|]. split; [reflexivity|]. split; [reflexivity|].
  split.
  - exists w'. split; [exact Hset|]. split; [reflexivity|exact Hwritten].
  - intros Hsame. rewrite Hset in Hsame. apply eutt_inv_Ret in Hsame.
    injection Hsame as Hsame. rewrite Hsame in Hwritten.
    vm_compute in Hwritten. discriminate Hwritten.
Qed.

(** C5, amended: for every linked program and every uniform name whose C
    string, the characters before its first NUL, is not in the program's
    reflection data, each of [setFloat], [setVec3], [setVec4] and [setMat4]
    with that name returns and leaves the GL's state, hence the value of
    every uniform, as it was. *)
Theorem Shader_set_absent_uniform
    (drv : Driver) (w : World) (this : Shader.t) (name : string) (po : ProgramObject) :
  programs (gl_state w) !! Shader.ID this = Some po ->
  po_link_status po = true ->
  po_uniforms po !! c_str name = None ->
  (forall value, interp_state (h_world drv) (Shader.setFloat this name value) w ≈ Ret (w, tt))
  /\ (forall v, interp_state (h_world drv) (Shader.setVec3 this name v) w ≈ Ret (w, tt))
  /\ (forall v, interp_state (h_world drv) (Shader.setVec4 this name v) w ≈ Ret (w, tt))
  /\ (forall m, interp_state (h_world drv) (Shader.setMat4 this name m) w ≈ Ret (w, tt)).
Proof.
  intros Hpo Hlinked Hname.
  pose proof (GlGetUniformLocation_absent drv w _ _ _ Hpo Hlinked Hname) as Hloc.
  split; [|split; [|split]]; intros v;
    unfold Shader.setFloat, Shader.setVec3, Shader.setVec4, Shader.setMat4,
      gl, mbind, itree_mbind;
    rewrite interp_world_bind, Hloc; simpl;
    rewrite interp_world_trigger; destruct w as [st fs err out]; reflexivity.
Qed.

(** A fresh name is not 0 and names no shader or program object. *)
Lemma unused_name_spec (st : GLState) :
  unused_name st <> 0 /\
  shaders st !! unused_name st = None /\
  programs st !! unused_name st = None.
Proof.
  pose proof (is_fresh ({[ 0 ]} ∪ dom (shaders st) ∪ dom (programs st) : gset Z)) as H.
  fold (unused_name st) in H.
  rewrite !not_elem_of_union, not_elem_of_singleton, !not_elem_of_dom in H.
  tauto.
Qed.

(** [checkCompileErrors] on a stage object whose compile status is false:
    the information log goes to the error stream. *)
Lemma checkCompileErrors_failed (drv : Driver) (w : World)
    (shader : GLuint) (type : string) (so : ShaderObject) :
  type <> "PROGRAM" ->
  shaders (gl_state w) !! shader = Some so ->
  so_compile_status so = false ->
  interp_state (h_world drv) (Shader.checkCompileErrors shader type) w
  ≈ Ret ({| gl_state := gl_state w; files := files w;
            cerr := cerr w +:+ ("SHADER COMPILE ERROR [" +:+ type +:+ "]:" +:+ nl
                                +:+ info_log_text 1024 (so_info_log so) +:+ nl);
            cout := cout w |}, tt).
Proof.
  intros Htype Hso Hstatus. destruct w as [st fs err out]. simpl in *.
  rewrite checkCompileErrors_shader by assumption.
  unfold gl, io, mbind, itree_mbind, mret, itree_mret.
  rewrite interp_world_bind.
  unfold glsl_call at 1, shader_call. cbn [gl_state files cerr cout fst snd].
  rewrite Hso, Hstatus. cbn [GLboolean].
  rewrite bool_decide_true by reflexivity.
  change (not_ GL_FALSE) with true. cbn iota.
  rewrite interp_world_bind.
  unfold glsl_call at 1, shader_call. cbn [gl_state files cerr cout fst snd].
  rewrite Hso.
  rewrite interp_world_trigger. reflexivity.
Qed.

(** [CompileShader] on a source that the driver's compiler rejects. *)
Lemma CompileShader_failed (drv : Driver) (w : World)
    (shaderSource : string) (shaderType : GLenum) (log : string) :
  is_stage shaderType = true ->
  glsl_compile drv shaderType shaderSource = (false, log) ->
  interp_state (h_world drv) (CompileShader shaderSource shaderType) w
  ≈ Ret ({| gl_state :=
              with_shaders (gl_state w)
                (<[ unused_name (gl_state w) :=
                      {| so_type := shaderType; so_source := shaderSource;
                         so_compile_status := false; so_info_log := log;
                         so_delete_status := false |} ]> (shaders (gl_state w)));
            files := files w;
            cerr := cerr w +:+ ("Shader error:" +:+ nl +:+ info_log_text 512 log +:+ nl);
            cout := cout w |},
         unused_name (gl_state w)).
Proof.
  intros Hstage Hcompile. destruct w as [st fs err out].
  unfold CompileShader, gl, io, mbind, itree_mbind, mret, itree_mret.
  cbn [gl_state files cerr cout].
  (* glCreateShader *)
  rewrite interp_world_bind.
  unfold glsl_call at 1, shader_call. cbn [gl_state files cerr cout fst snd].
  rewrite Hstage. cbn [fst snd].
  (* glShaderSource *)
  rewrite interp_world_bind.
  unfold glsl_call at 1, shader_call.
  cbn [gl_state files cerr cout fst snd with_shaders shaders programs current_program].
  rewrite alter_insert_eq.
  cbn [so_type so_source so_compile_status so_info_log so_delete_status String.concat].
  (* glCompileShader *)
  rewrite interp_world_bind.
  unfold glsl_call at 1, shader_call.
  cbn [gl_state files cerr cout fst snd with_shaders shaders programs current_program].
  rewrite alter_insert_eq.
  cbn [so_type so_source so_compile_status so_info_log so_delete_status].
  rewrite Hcompile. cbn [fst snd].
  (* glGetShaderiv *)
  rewrite interp_world_bind.
  unfold glsl_call at 1, shader_call.
  cbn [gl_state files cerr cout fst snd with_shaders shaders programs current_program].
  rewrite lookup_insert_eq. cbn [so_compile_status GLboolean].
  rewrite !bool_decide_true by reflexivity.
  (* glGetShaderInfoLog *)
  rewrite bind_bind, interp_world_bind.
  unfold glsl_call at 1, shader_call.
  cbn [gl_state files cerr cout fst snd with_shaders shaders programs current_program].
  rewrite lookup_insert_eq. cbn [so_info_log].
  (* std::cerr *)
  rewrite interp_world_bind.
  cbn [glsl_call io_call gl_state files cerr cout fst snd].
  rewrite interp_state_ret. reflexivity.
Qed.

(** The error stream only grows. *)
Lemma glsl_call_cerr (drv : Driver) {A} (e : glslE A) (w : World) :
  exists text, cerr (glsl_call drv e w).1 = cerr w +:+ text.
Proof.
  destruct e as [e|e].
  - exists "". unfold glsl_call. destruct (shader_call drv e (gl_state w)).
    cbn [fst cerr]. now rewrite append_nil_r.
  - destruct e; [exists "" | exists text | exists ""]; cbn [glsl_call io_call fst cerr];
      now rewrite ?append_nil_r.
Qed.

Lemma world_run_cerr (drv : Driver) (calls : list (Answered glslE)) (w w' : World) :
  world_run drv w calls w' -> exists text, cerr w' = cerr w +:+ text.
Proof.
  revert w. induction calls as [|[A e a] calls IH]; intros w; simpl.
  - intros ->. exists "". now rewrite append_nil_r.
  - intros [_ H]. destruct (IH _ H) as [text2 ->].
    destruct (glsl_call_cerr drv e w) as [text1 ->].
    exists (text1 +:+ text2). now rewrite append_assoc.
Qed.

(** One call of a program run against the world. *)
Ltac world_step :=
  rewrite interp_world_bind at 1;
  cbn [glsl_call shader_call io_call gl_state files cerr cout fst snd
       with_shaders shaders programs current_program is_stage].

(** The constructor on a vertex source that the compiler rejects: the log
    goes to the error stream and the constructor returns. *)
Lemma Shader_new_vertex_error (drv : Driver) (w : World)
    (vertexPath fragmentPath : string) (log : string) :
  glsl_compile drv GL_VERTEX_SHADER (c_str (default "" (files w !! vertexPath)))
  = (false, log) ->
  exists w' this rest,
    interp_state (h_world drv) (Shader.new vertexPath fragmentPath) w ≈ Ret (w', this)
    /\ cerr w' = cerr w +:+ ("SHADER COMPILE ERROR [VERTEX]:" +:+ nl
                             +:+ info_log_text 1024 log +:+ nl) +:+ rest.
Proof.
  intros Hcompile.
  enough (exists R (t : itree glslE R) (k : R -> itree glslE Shader.t) w1,
             interp_state (h_world drv) (Shader.new vertexPath fragmentPath) w
             ≈ interp_state (h_world drv) (ITree.bind t k) w1
             /\ returns_in drv (ITree.bind t k)
             /\ cerr w1 = cerr w +:+ ("SHADER COMPILE ERROR [VERTEX]:" +:+ nl
                                      +:+ info_log_text 1024 log +:+ nl))
    as (R & t & k & w1 & Hstep & Hreturns & Hcerr).
  { destruct (Hreturns w1) as (calls & this & w' & Hrun & Hw).
    destruct (world_run_cerr _ _ _ _ Hw) as [rest Hrest].
    exists w', this, rest. split.
    - rewrite Hstep. now apply interp_of_run with calls.
    - now rewrite Hrest, Hcerr, append_assoc. }
  destruct w as [st fs err out]. cbn [files cerr] in *.
  do 4 eexists. split; [|split].
  - rewrite Shader_new_unfold. unfold gl, io, mbind, itree_mbind, mret, itree_mret.
    world_step. world_step.
    (* glCreateShader, glShaderSource, glCompileShader *)
    world_step.
    world_step. rewrite alter_insert_eq. cbn [so_type so_source String.concat].
    world_step. rewrite alter_insert_eq. cbn [so_type so_source]. rewrite Hcompile.
    cbn [fst snd].
    (* checkCompileErrors *)
    rewrite bind_bind at 1. world_step.
    rewrite lookup_insert_eq. cbn [so_compile_status GLboolean].
    rewrite bool_decide_true by reflexivity.
    change (not_ GL_FALSE) with true. cbn iota.
    rewrite bind_bind at 1. world_step. rewrite lookup_insert_eq. cbn [so_info_log].
    world_step.
    reflexivity.
  - unfold Shader.checkCompileErrors. returns_in_steps.
  - reflexivity.
Qed.

(** C8: for every source that the GLSL compiler rejects, [CompileShader]
    (ex02) creates a stage object, writes a non-empty diagnostic with the
    compiler's log to the error stream and returns the object's name; the
    object exists afterwards, with compile status false.  In ex03,
    [Shader::checkCompileErrors] on a stage object with compile status false
    writes the log to the error stream and returns, the object untouched;
    and the constructor, given a vertex file of which the source is the text
    that [glShaderSource] reads, the characters before the first NUL, writes
    the log to the error stream and returns. *)
Theorem compile_invalid_source
    (drv : Driver) (w : World) (shaderSource : string) (shaderType : GLenum) (log : string) :
  is_stage shaderType = true ->
  glsl_compile drv shaderType shaderSource = (false, log) ->
  let shader := unused_name (gl_state w) in
  let diagnostic := "Shader error:" +:+ nl +:+ info_log_text 512 log +:+ nl in
  (exists w',
      interp_state (h_world drv) (CompileShader shaderSource shaderType) w ≈ Ret (w', shader)
      /\ cerr w' = cerr w +:+ diagnostic
      /\ diagnostic <> ""
      /\ shader <> 0
      /\ shaders (gl_state w) !! shader = None
      /\ shaders (gl_state w') !! shader
         = Some {| so_type := shaderType; so_source := shaderSource;
                   so_compile_status := false; so_info_log := log;
                   so_delete_status := false |})
  /\ (forall (stage : GLuint) (so : ShaderObject) (type : string),
         type <> "PROGRAM" ->
         shaders (gl_state w) !! stage = Some so ->
         so_compile_status so = false ->
         let message := "SHADER COMPILE ERROR [" +:+ type +:+ "]:" +:+ nl
                        +:+ info_log_text 1024 (so_info_log so) +:+ nl in
         message <> "" /\
         interp_state (h_world drv) (Shader.checkCompileErrors stage type) w
         ≈ Ret ({| gl_state := gl_state w; files := files w;
                   cerr := cerr w +:+ message; cout := cout w |}, tt))
  /\ (forall vertexPath fragmentPath : string,
         shaderType = GL_VERTEX_SHADER ->
         c_str (default "" (files w !! vertexPath)) = shaderSource ->
         exists w' this rest,
           interp_state (h_world drv) (Shader.new vertexPath fragmentPath) w ≈ Ret (w', this)
           /\ cerr w' = cerr w +:+ ("SHADER COMPILE ERROR [VERTEX]:" +:+ nl
                                    +:+ info_log_text 1024 log +:+ nl) +:+ rest).
Proof.
  intros Hstage Hcompile shader diagnostic. split; [|split].
  - eexists. split; [apply (CompileShader_failed drv w _ _ _ Hstage Hcompile)|].
    destruct (unused_name_spec (gl_state w)) as (Hnonzero & Hunused & _).
    cbn [gl_state cerr with_shaders shaders].
    repeat split; try assumption; try discriminate.
    apply lookup_insert_eq.
  - intros stage so type Htype Hso Hstatus message. split; [discriminate|].
    now apply checkCompileErrors_failed.
  - intros vertexPath fragmentPath -> <-. now apply Shader_new_vertex_error.
Qed.

Lemma compile_invalid_source_witness :
  let shader := unused_name (gl_state world_example) in
  let log := "0:1(1): error: syntax error, unexpected end of file" in
  exists w',
    interp_state (h_world driver_example) (CompileShader "void main(" GL_VERTEX_SHADER)
      world_example ≈ Ret (w', shader)
    /\ cerr w' = "" +:+ "Shader error:" +:+ nl +:+ info_log_text 512 log +:+ nl
    /\ "Shader error:" +:+ nl +:+ info_log_text 512 log +:+ nl <> ""
    /\ shader <> 0
    /\ shaders (gl_state world_example) !! shader = None
    /\ shaders (gl_state w') !! shader
       = Some {| so_type := GL_VERTEX_SHADER; so_source := "void main(";
                 so_compile_status := false; so_info_log := log;
                 so_delete_status := false |}.
Proof.
  intros shader log.
  apply (compile_invalid_source driver_example world_example "void main(" GL_VERTEX_SHADER log).
  - reflexivity.
  - reflexivity.
Defined.

Lemma Shader_set_absent_uniform_witness :
  let this := {| Shader.ID := 3 |} in
  (forall value,
      interp_state (h_world driver_example) (Shader.setFloat this "uOffset" value) world_example
      ≈ Ret (world_example, tt))
  /\ (forall v,
         interp_state (h_world driver_example) (Shader.setVec3 this "uOffset" v) world_example
         ≈ Ret (world_example, tt))
  /\ (forall v,
         interp_state (h_world driver_example) (Shader.setVec4 this "uOffset" v) world_example
         ≈ Ret (world_example, tt))
  /\ (forall m,
         interp_state (h_world driver_example) (Shader.setMat4 this "uOffset" m) world_example
         ≈ Ret (world_example, tt)).
Proof.
  intros this.
  apply (Shader_set_absent_uniform driver_example world_example this "uOffset"
           {| po_attached := []; po_link_status := true; po_info_log := "";
              po_uniforms := {[ "uColor" := 0 ]};
              po_values := {[ 0 := U4f (Vec4 0 0 0 0) ]};
              po_delete_status := false |}).
  - reflexivity.
  - reflexivity.
  - reflexivity.
Defined.

(** For contrast, a name that is in the reflection data is written. *)
Lemma Shader_setVec4_present :
  exists w',
    interp_state (h_world driver_example)
      (Shader.setVec4 {| Shader.ID := 3 |} "uColor" (Vec4 1 0 0 1)) world_example
    ≈ Ret (w', tt)
    /\ (programs (gl_state w') !! 3) ≫= (fun po => po_values po !! 0)
       = Some (U4f (Vec4 1 0 0 1)).
Proof.
  destruct (glsl_call driver_example (inl1 (GlUniform4f 0 1%Q 0%Q 0%Q 1%Q)) world_example)
    as [w' []] eqn:Hcall.
  exists w'. split.
  - unfold Shader.setVec4, gl, mbind, itree_mbind.
    rewrite interp_world_bind.
    change (glsl_call driver_example
              (inl1 (GlGetUniformLocation (Shader.ID {| Shader.ID := 3 |}) (c_str "uColor")))
              world_example) with (world_example, 0).
    cbn iota beta. rewrite interp_world_trigger.
    cbn [v4x v4y v4z v4w]. rewrite Hcall. reflexivity.
  - apply (f_equal fst) in Hcall. cbn [fst] in Hcall. subst w'.
    vm_compute. reflexivity.
Qed.

(** * Further properties *)

(** ** The splitter on every file *)

(** The loop from any state: each stream gains the lines of its sections. *)
Lemma loop_sections (lines : list string) (type : ShaderType) (vertex fragment : string) :
  (foldl loop_body (type, [vertex; fragment]) lines).2
  = [vertex +:+ newline_terminated (section_lines VERTEX type lines);
     fragment +:+ newline_terminated (section_lines FRAGMENT type lines)].
Proof.
  revert type vertex fragment.
  induction lines as [|line lines IH]; intros type vertex fragment.
  - simpl. now rewrite !append_nil_r.
  - simpl foldl. simpl section_lines. unfold marker_line, declared.
    destruct (found line "#shader").
    + destruct (found line "vertex"); [apply IH|].
      destruct (found line "fragment"); apply IH.
    + destruct type; simpl.
      * apply IH.
      * change (ss_write [vertex; fragment] VERTEX line)
          with [vertex +:+ line +:+ nl; fragment].
        rewrite IH. now rewrite !append_assoc.
      * change (ss_write [vertex; fragment] FRAGMENT line)
          with [vertex; fragment +:+ line +:+ nl].
        rewrite IH. now rewrite !append_assoc.
Qed.

Lemma ParseShader_sections (fs : FileSystem) (filePath : string) :
  (ParseShader fs filePath).2
  = {| VertexSource :=
         newline_terminated (section_lines VERTEX NONE (stream_lines fs filePath));
       FragmentSource :=
         newline_terminated (section_lines FRAGMENT NONE (stream_lines fs filePath)) |}.
Proof.
  unfold ParseShader, ParseState_result, parse_lines, ParseState_init. simpl.
  now rewrite loop_sections.
Qed.

(** X1: for every file, readable or not, [ParseShader] returns as
    [VertexSource] the lines of the vertex sections and as [FragmentSource]
    the lines of the fragment sections, each line followed by a newline. *)
Theorem ParseShader_all_files (fs : FileSystem) (filePath : string) :
  let lines := stream_lines fs filePath in
  (ParseShader fs filePath).2
  = {| VertexSource := newline_terminated (section_lines VERTEX NONE lines);
       FragmentSource := newline_terminated (section_lines FRAGMENT NONE lines) |}.
Proof. apply ParseShader_sections. Qed.

(** *** Facts about sections *)

Lemma section_lines_sublist (stage current : ShaderType) (lines : list string) :
  sublist (section_lines stage current lines) lines.
Proof.
  revert current. induction lines as [|line lines IH]; intros current; simpl.
  - constructor.
  - destruct (marker_line line); [apply sublist_cons, IH|].
    destruct (bool_decide (current = stage)).
    + apply sublist_skip, IH.
    + apply sublist_cons, IH.
Qed.



(** A block of lines without a marker goes to the section of the stage
    declared last, whole. *)
Lemma section_lines_block (stage current : ShaderType) (block rest : list string) :
  Forall (fun line => marker_line line = false) block ->
  section_lines stage current (block ++ rest)
  = (if bool_decide (current = stage) then block else [])
    ++ section_lines stage current rest.
Proof.
  induction 1 as [|line block Hline _ IH]; simpl.
  - now destruct (bool_decide (current = stage)).
  - rewrite Hline, IH. now destruct (bool_decide (current = stage)).
Qed.

Lemma section_lines_marker (stage current : ShaderType) (line : string) (rest : list string) :
  marker_line line = true ->
  section_lines stage current (line :: rest)
  = section_lines stage (declared current line) rest.
Proof. intros H. simpl. now rewrite H. Qed.

Lemma declared_vertex (current : ShaderType) (line : string) :
  vertex_marker line = true -> marker_line line = true /\ declared current line = VERTEX.
Proof.
  unfold vertex_marker, marker_line, declared. intros H.
  apply andb_true_iff in H as [H1 H2]. now rewrite H1, H2.
Qed.

Lemma declared_fragment (current : ShaderType) (line : string) :
  fragment_marker line = true -> marker_line line = true /\ declared current line = FRAGMENT.
Proof.
  unfold fragment_marker, marker_line, declared. intros H.
  apply andb_true_iff in H as [H12 H3]. apply andb_true_iff in H12 as [H1 H2].
  apply negb_true_iff in H2. now rewrite H1, H2, H3.
Qed.

(** *** Lines and texts *)

Lemma length_append (a b : string) :
  String.length (a +:+ b) = (String.length a + String.length b)%nat.
Proof.
  induction a as [|c a IH]; [reflexivity|].
  rewrite append_cons. simpl. now rewrite IH.
Qed.

Lemma getlines_nil (s : string) : getlines s = [] -> s = "".
Proof.
  destruct s as [|c s]; [reflexivity|]. simpl.
  destruct (Ascii.eqb c LF); [discriminate|].
  destruct (getlines s); discriminate.
Qed.

(** No line that [std::getline] delivers holds a ['\n']. *)
Lemma getlines_no_LF (s : string) :
  Forall (fun line => has_LF line = false) (getlines s).
Proof.
  induction s as [|c s IH]; simpl; [constructor|].
  destruct (Ascii.eqb c LF) eqn:Hc; [now constructor|].
  destruct (getlines s) as [|line rest].
  - repeat constructor. simpl. now rewrite Hc.
  - inversion IH as [|? ? Hline Hrest]; subst. constructor; [|exact Hrest].
    simpl. now rewrite Hc.
Qed.

(** Written back line by line, a text is itself with its last line closed. *)
Lemma newline_terminated_getlines (s : string) :
  newline_terminated (getlines s) = newline_closed s.
Proof.
  induction s as [|c s IH]; [reflexivity|].
  simpl getlines. destruct (Ascii.eqb c LF) eqn:Hc.
  - apply Ascii.eqb_eq in Hc as ->. simpl newline_terminated. rewrite IH.
    destruct s; reflexivity.
  - destruct (getlines s) as [|line rest] eqn:Hlines.
    + apply getlines_nil in Hlines as ->. simpl. now rewrite Hc.
    + simpl newline_terminated in *. rewrite append_cons, IH.
      destruct s; [discriminate Hlines | reflexivity].
Qed.

Lemma newline_closed_cases (s : string) :
  newline_closed s = s \/ newline_closed s = s +:+ nl.
Proof.
  induction s as [|c s IH]; [now left|].
  destruct s as [|d s].
  - simpl. destruct (Ascii.eqb c LF); [now left | now right].
  - change (newline_closed (String c (String d s)))
      with (String c (newline_closed (String d s))).
    destruct IH as [-> | ->]; [now left | now right].
Qed.

Lemma newline_closed_terminated (s : string) :
  newline_closed (s +:+ nl) = s +:+ nl.
Proof.
  induction s as [|c s IH]; [reflexivity|].
  rewrite append_cons.
  destruct (s +:+ nl) as [|d t] eqn:Ht.
  - destruct s; discriminate.
  - change (newline_closed (String c (String d t)))
      with (String c (newline_closed (String d t))).
    now rewrite IH.
Qed.

Lemma length_sublist_text (sub lines : list string) :
  sublist sub lines ->
  (String.length (newline_terminated sub) <= String.length (newline_terminated lines))%nat.
Proof.
  induction 1 as [|line sub lines _ IH|line sub lines _ IH]; simpl.
  - lia.
  - rewrite !length_append. lia.
  - rewrite !length_append. lia.
Qed.

Lemma length_sections_text (current : ShaderType) (lines : list string) :
  (String.length (newline_terminated (section_lines VERTEX current lines))
   + String.length (newline_terminated (section_lines FRAGMENT current lines))
   <= String.length (newline_terminated lines))%nat.
Proof.
  revert current. induction lines as [|line lines IH]; intros current; simpl.
  - lia.
  - destruct (marker_line line).
    + specialize (IH (declared current line)). rewrite !length_append. lia.
    + specialize (IH current).
      destruct current; simpl in *; rewrite ?length_append in *; lia.
Qed.

Lemma length_newline_closed (s : string) :
  (String.length (newline_closed s) <= String.length s + 1)%nat.
Proof.
  destruct (newline_closed_cases s) as [-> | ->]; [lia|].
  rewrite length_append. simpl. lia.
Qed.


(** X3: a stage that is declared again goes on with its buffer: on a vertex
    marker, lines A, a fragment marker, lines B, a vertex marker and lines C,
    [VertexSource] holds A followed by C and [FragmentSource] holds B. *)
Theorem ParseShader_section_resumed
    (fs : FileSystem) (filePath content : string)
    (vertex1 fragment vertex2 : string) (A B C : list string) :
  fs !! filePath = Some content ->
  getlines content = vertex1 :: A ++ fragment :: B ++ vertex2 :: C ->
  vertex_marker vertex1 = true ->
  fragment_marker fragment = true ->
  vertex_marker vertex2 = true ->
  Forall (fun line => marker_line line = false) A ->
  Forall (fun line => marker_line line = false) B ->
  Forall (fun line => marker_line line = false) C ->
  (ParseShader fs filePath).2
  = {| VertexSource := newline_terminated (A ++ C);
       FragmentSource := newline_terminated B |}.
Proof.
  intros Hfile Hlines Hv1 Hf Hv2 HA HB HC.
  rewrite ParseShader_sections, (stream_lines_open _ _ _ Hfile), Hlines.
  destruct (declared_vertex NONE _ Hv1) as [Hm1 Hd1].
  destruct (declared_fragment VERTEX _ Hf) as [Hm2 Hd2].
  destruct (declared_vertex FRAGMENT _ Hv2) as [Hm3 Hd3].
  rewrite !(section_lines_marker _ _ vertex1) by assumption. rewrite Hd1.
  rewrite !section_lines_block by assumption.
  rewrite !(section_lines_marker _ _ fragment) by assumption. rewrite Hd2.
  rewrite !section_lines_block by assumption.
  rewrite !(section_lines_marker _ _ vertex2) by assumption. rewrite Hd3.
  rewrite <- (app_nil_r C) at 1 2.
  rewrite !section_lines_block by assumption.
  simpl. now rewrite !app_nil_r.
Qed.

Lemma ParseShader_section_resumed_witness :
  (ParseShader
     {[ "r.shader" := "#shader vertex" +:+ nl +:+ "a" +:+ nl +:+ "#shader fragment" +:+ nl
                      +:+ "b" +:+ nl +:+ "#shader vertex" +:+ nl +:+ "c" +:+ nl ]}
     "r.shader").2
  = {| VertexSource := newline_terminated (["a"] ++ ["c"]);
       FragmentSource := newline_terminated ["b"] |}.
Proof.
  apply (ParseShader_section_resumed _ _
           ("#shader vertex" +:+ nl +:+ "a" +:+ nl +:+ "#shader fragment" +:+ nl
            +:+ "b" +:+ nl +:+ "#shader vertex" +:+ nl +:+ "c" +:+ nl)
           "#shader vertex" "#shader fragment" "#shader vertex" ["a"] ["b"] ["c"]);
    try reflexivity; repeat constructor.
Defined.

(** X4: a marker line that names both stages declares the vertex stage: on
    a file that is such a line followed by lines without a marker, all these
    lines go to [VertexSource] and [FragmentSource] is empty. *)
Theorem ParseShader_vertex_first
    (fs : FileSystem) (filePath content : string) (line : string) (block : list string) :
  fs !! filePath = Some content ->
  getlines content = line :: block ->
  found line "#shader" = true ->
  found line "vertex" = true ->
  found line "fragment" = true ->
  Forall (fun l => marker_line l = false) block ->
  (ParseShader fs filePath).2
  = {| VertexSource := newline_terminated block; FragmentSource := "" |}.
Proof.
  intros Hfile Hlines H1 H2 H3 Hblock.
  rewrite ParseShader_sections, (stream_lines_open _ _ _ Hfile), Hlines.
  rewrite !section_lines_marker by exact H1.
  unfold declared. rewrite H2.
  rewrite <- (app_nil_r block) at 1 2.
  rewrite !section_lines_block by assumption.
  simpl. now rewrite app_nil_r.
Qed.

Lemma ParseShader_vertex_first_witness :
  (ParseShader
     {[ "both.shader" := "#shader fragment, not vertex" +:+ nl +:+ "a" +:+ nl ]}
     "both.shader").2
  = {| VertexSource := newline_terminated ["a"]; FragmentSource := "" |}.
Proof.
  apply (ParseShader_vertex_first _ _
           ("#shader fragment, not vertex" +:+ nl +:+ "a" +:+ nl)
           "#shader fragment, not vertex" ["a"]);
    try reflexivity; repeat constructor.
Defined.

Lemma Forall_sublist {A} (P : A -> Prop) (sub l : list A) :
  sublist sub l -> Forall P l -> Forall P sub.
Proof.
  induction 1 as [|x sub l _ IH|x sub l _ IH]; intros H.
  - constructor.
  - inversion H; subst. constructor; auto.
  - inversion H; subst. auto.
Qed.

Lemma stream_lines_no_LF (fs : FileSystem) (filePath : string) :
  Forall (fun line => has_LF line = false) (stream_lines fs filePath).
Proof.
  unfold stream_lines. destruct (fs !! filePath); [apply getlines_no_LF | constructor].
Qed.

(** X5: read back line by line with [std::getline], each returned buffer
    gives exactly the lines of its sections: no line is split, merged or
    changed on the way. *)
Theorem ParseShader_read_back (fs : FileSystem) (filePath : string) :
  let lines := stream_lines fs filePath in
  getlines (VertexSource (ParseShader fs filePath).2) = section_lines VERTEX NONE lines
  /\ getlines (FragmentSource (ParseShader fs filePath).2) = section_lines FRAGMENT NONE lines.
Proof.
  intros lines. rewrite ParseShader_sections. simpl. fold lines.
  split; apply getlines_newline_terminated;
    (apply (Forall_sublist _ _ lines);
     [apply section_lines_sublist | apply stream_lines_no_LF]).
Qed.

(** X6: on a file that is a vertex-marker line followed by a body without
    markers, [VertexSource] is the body byte for byte, with a final newline
    added when the body is not empty and does not end with one. *)
Theorem ParseShader_body_verbatim
    (fs : FileSystem) (filePath marker body : string) :
  fs !! filePath = Some (marker +:+ nl +:+ body) ->
  has_LF marker = false ->
  vertex_marker marker = true ->
  Forall (fun line => marker_line line = false) (getlines body) ->
  (ParseShader fs filePath).2
  = {| VertexSource := newline_closed body; FragmentSource := "" |}
  /\ (newline_closed body = body \/ newline_closed body = body +:+ nl)
  /\ (forall text, body = text +:+ nl -> newline_closed body = body).
Proof.
  intros Hfile Hmarker Hvertex Hbody. split; [|split].
  - rewrite ParseShader_sections, (stream_lines_open _ _ _ Hfile).
    rewrite getlines_line by exact Hmarker.
    destruct (declared_vertex NONE _ Hvertex) as [Hm Hd].
    rewrite !section_lines_marker by exact Hm. rewrite Hd.
    rewrite <- (app_nil_r (getlines body)).
    rewrite !section_lines_block by exact Hbody.
    simpl. now rewrite app_nil_r, newline_terminated_getlines.
  - apply newline_closed_cases.
  - intros text ->. apply newline_closed_terminated.
Qed.

Lemma ParseShader_body_verbatim_witness :
  let body := "void main() {" +:+ nl +:+ "}" in
  (ParseShader {[ "v.shader" := "#shader vertex" +:+ nl +:+ body ]} "v.shader").2
  = {| VertexSource := newline_closed body; FragmentSource := "" |}
  /\ (newline_closed body = body \/ newline_closed body = body +:+ nl)
  /\ (forall text, body = text +:+ nl -> newline_closed body = body).
Proof.
  intros body.
  apply (ParseShader_body_verbatim _ "v.shader" "#shader vertex" body).
  - reflexivity.
  - reflexivity.
  - reflexivity.
  - vm_compute. repeat constructor.
Defined.

(** X7: the two returned buffers together are never longer than the file
    plus one character (the newline that closes an open last line). *)
Theorem ParseShader_length_bound (fs : FileSystem) (filePath content : string) :
  fs !! filePath = Some content ->
  (String.length (VertexSource (ParseShader fs filePath).2)
   + String.length (FragmentSource (ParseShader fs filePath).2)
   <= String.length content + 1)%nat.
Proof.
  intros Hfile.
  rewrite ParseShader_sections, (stream_lines_open _ _ _ Hfile). simpl.
  pose proof (length_sections_text NONE (getlines content)) as Hsections.
  rewrite newline_terminated_getlines in Hsections.
  pose proof (length_newline_closed content). lia.
Qed.

Lemma ParseShader_length_bound_witness :
  (String.length (VertexSource (ParseShader {[ "Basic.shader" := Basic_shader ]}
                                  "Basic.shader").2)
   + String.length (FragmentSource (ParseShader {[ "Basic.shader" := Basic_shader ]}
                                      "Basic.shader").2)
   <= String.length Basic_shader + 1)%nat.
Proof. apply (ParseShader_length_bound _ "Basic.shader" Basic_shader). reflexivity. Defined.

(** X8: [ParseShader] writes to the error stream exactly when the file
    cannot be opened, and what it returns for such a file is what it returns
    for an empty one: the return value does not tell them apart. *)
Theorem ParseShader_missing_or_empty (fs fs' : FileSystem) (filePath filePath' : string) :
  fs !! filePath = None ->
  fs' !! filePath' = Some "" ->
  (ParseShader fs filePath).2 = (ParseShader fs' filePath').2
  /\ (ParseShader fs filePath).1 <> ""
  /\ (ParseShader fs' filePath').1 = ""
  /\ (forall fs0 path, (ParseShader fs0 path).1 = "" <-> is_Some (fs0 !! path)).
Proof.
  intros Hmissing Hempty. unfold ParseShader, stream_lines.
  rewrite Hmissing, Hempty. simpl.
  split; [reflexivity|]. split; [discriminate|]. split; [reflexivity|].
  intros fs0 path. destruct (fs0 !! path) as [content|]; simpl.
  - split; [intros _; now exists content | reflexivity].
  - split; [discriminate | intros [? ?]; discriminate].
Qed.

Lemma ParseShader_missing_or_empty_witness :
  (ParseShader ∅ "Basic.shader").2 = (ParseShader {[ "empty.shader" := "" ]} "empty.shader").2
  /\ (ParseShader ∅ "Basic.shader").1 <> ""
  /\ (ParseShader {[ "empty.shader" := "" ]} "empty.shader").1 = ""
  /\ (forall (fs0 : FileSystem) path, (ParseShader fs0 path).1 = "" <-> is_Some (fs0 !! path)).
Proof.
  apply (ParseShader_missing_or_empty ∅ {[ "empty.shader" := "" ]}
           "Basic.shader" "empty.shader"); reflexivity.
Defined.

(** ** [CompileShader] *)

(** [CompileShader] on a source that the driver's compiler accepts. *)
Lemma CompileShader_compiled (drv : Driver) (w : World)
    (shaderSource : string) (shaderType : GLenum) (log : string) :
  is_stage shaderType = true ->
  glsl_compile drv shaderType shaderSource = (true, log) ->
  interp_state (h_world drv) (CompileShader shaderSource shaderType) w
  ≈ Ret ({| gl_state :=
              with_shaders (gl_state w)
                (<[ unused_name (gl_state w) :=
                      {| so_type := shaderType; so_source := shaderSource;
                         so_compile_status := true; so_info_log := log;
                         so_delete_status := false |} ]> (shaders (gl_state w)));
            files := files w; cerr := cerr w; cout := cout w |},
         unused_name (gl_state w)).
Proof.
  intros Hstage Hcompile. destruct w as [st fs err out].
  unfold CompileShader, gl, io, mbind, itree_mbind, mret, itree_mret.
  cbn [gl_state files cerr cout].
  world_step. rewrite Hstage. cbn [fst snd].
  world_step. rewrite alter_insert_eq. cbn [so_type so_source String.concat].
  world_step. rewrite alter_insert_eq. cbn [so_type so_source]. rewrite Hcompile.
  cbn [fst snd].
  world_step. rewrite lookup_insert_eq. cbn [so_compile_status GLboolean].
  rewrite (bool_decide_true (GL_COMPILE_STATUS = GL_COMPILE_STATUS)) by reflexivity.
  rewrite (bool_decide_false (GL_TRUE = GL_FALSE)) by discriminate.
  rewrite bind_ret_l, interp_state_ret. reflexivity.
Qed.

(** X9: for every source that the GLSL compiler accepts, [CompileShader]
    writes nothing to the error stream, creates one stage object, which
    holds the source with compile status true, and returns its name; nothing
    else in the GL's state changes. *)
Theorem CompileShader_valid_source
    (drv : Driver) (w : World) (shaderSource : string) (shaderType : GLenum) (log : string) :
  is_stage shaderType = true ->
  glsl_compile drv shaderType shaderSource = (true, log) ->
  let shader := unused_name (gl_state w) in
  exists w',
    interp_state (h_world drv) (CompileShader shaderSource shaderType) w ≈ Ret (w', shader)
    /\ cerr w' = cerr w
    /\ shader <> 0
    /\ shaders (gl_state w) !! shader = None
    /\ shaders (gl_state w')
       = <[ shader := {| so_type := shaderType; so_source := shaderSource;
                         so_compile_status := true; so_info_log := log;
                         so_delete_status := false |} ]> (shaders (gl_state w))
    /\ programs (gl_state w') = programs (gl_state w)
    /\ current_program (gl_state w') = current_program (gl_state w).
Proof.
  intros Hstage Hcompile shader.
  eexists. split; [apply (CompileShader_compiled drv w _ _ _ Hstage Hcompile)|].
  destruct (unused_name_spec (gl_state w)) as (Hnonzero & Hunused & _).
  cbn [gl_state cerr with_shaders shaders programs current_program].
  repeat split; assumption.
Qed.

Lemma CompileShader_valid_source_witness :
  let shader := unused_name (gl_state world_example) in
  let source := "#version 330 core" in
  exists w',
    interp_state (h_world driver_example) (CompileShader source GL_FRAGMENT_SHADER)
      world_example ≈ Ret (w', shader)
    /\ cerr w' = cerr world_example
    /\ shader <> 0
    /\ shaders (gl_state world_example) !! shader = None
    /\ shaders (gl_state w')
       = <[ shader := {| so_type := GL_FRAGMENT_SHADER; so_source := source;
                         so_compile_status := true; so_info_log := "";
                         so_delete_status := false |} ]> (shaders (gl_state world_example))
    /\ programs (gl_state w') = programs (gl_state world_example)
    /\ current_program (gl_state w') = current_program (gl_state world_example).
Proof.
  intros shader source.
  apply (CompileShader_valid_source driver_example world_example source GL_FRAGMENT_SHADER "").
  - reflexivity.
  - reflexivity.
Defined.

(** The runs of [CompileShader]. *)
Lemma CompileShader_run (shaderSource : string) (shaderType : GLenum)
    (calls : list (Answered glslE)) (result : GLuint) :
  run (CompileShader shaderSource shaderType) calls result ->
  exists status,
    let compile :=
      [answered (inl1 (GlCreateShader shaderType)) result;
       answered (inl1 (GlShaderSource result [shaderSource])) tt;
       answered (inl1 (GlCompileShader result)) tt;
       answered (inl1 (GlGetShaderiv result GL_COMPILE_STATUS)) status] in
    (status <> GL_FALSE /\ calls = compile)
    \/ (status = GL_FALSE /\
        exists infoLog,
          calls = compile
                  ++ [answered (inl1 (GlGetShaderInfoLog result 512)) infoLog;
                      answered (inr1 (Cerr ("Shader error:" +:+ nl +:+ infoLog +:+ nl))) tt]).
Proof.
  intros H. unfold CompileShader, gl, io, mbind, itree_mbind, mret, itree_mret in H.
  run_step H as shader. run_step H as []. run_step H as []. run_step H as status.
  exists status.
  apply run_inv in H. cbn in H. repeat rewrite observe_subst in H. cbn in H.
  match type of H with
  | context [if ?b then _ else _] => destruct b eqn:Hstatus; cbn in H
  end.
  - apply bool_decide_eq_true in Hstatus.
    run_got H as infoLog. run_step H as []. run_end H.
    right. split; [exact Hstatus|]. now exists infoLog.
  - apply bool_decide_eq_false in Hstatus. destruct H as [-> ->].
    left. now split.
Qed.

Lemma CompileShader_returns (shaderSource : string) (shaderType : GLenum)
    (env : Environment glslE) :
  returns env (CompileShader shaderSource shaderType).
Proof. unfold CompileShader. returns_steps. Qed.

(** X10: in every run, whatever the GL answers, [CompileShader] creates one
    stage object and returns the name that [glCreateShader] gave, also when
    compilation fails; it never deletes the object; it writes to the error
    stream exactly when the compile status read back is [GL_FALSE]; and it
    always returns. *)
Theorem CompileShader_protocol (shaderSource : string) (shaderType : GLenum) :
  (forall (calls : list (Answered glslE)) (result : GLuint),
      run (CompileShader shaderSource shaderType) calls result ->
      created_shaders calls = [result]
      /\ deleted_shaders calls = []
      /\ exists status,
          nth_error calls 3
          = Some (answered (inl1 (GlGetShaderiv result GL_COMPILE_STATUS)) status)
          /\ (glsl_cerr_text calls <> "" <-> status = GL_FALSE))
  /\ (forall env : Environment glslE, returns env (CompileShader shaderSource shaderType)).
Proof.
  split; [|apply CompileShader_returns].
  intros calls result Hrun.
  destruct (CompileShader_run _ _ _ _ Hrun)
    as [status [[Hstatus ->] | [Hstatus [infoLog ->]]]].
  - repeat split; try reflexivity. exists status. split; [reflexivity|].
    split; [intros H; now destruct H | intros H; now destruct Hstatus].
  - repeat split; try reflexivity. exists status. split; [reflexivity|].
    split; [intros _; exact Hstatus | intros _; discriminate].
Qed.

(** ** [Shader::checkCompileErrors] *)

Lemma add_cerr_nil (w : World) : add_cerr w "" = w.
Proof. destruct w. unfold add_cerr. simpl. now rewrite append_nil_r. Qed.

Lemma not_GLboolean (b : bool) : not_ (GLboolean b) = negb b.
Proof. now destruct b. Qed.

(** On a stage object: the compile status decides. *)
Lemma checkCompileErrors_stage (drv : Driver) (w : World)
    (shader : GLuint) (type : string) (so : ShaderObject) :
  type <> "PROGRAM" ->
  shaders (gl_state w) !! shader = Some so ->
  interp_state (h_world drv) (Shader.checkCompileErrors shader type) w
  ≈ Ret (add_cerr w (compile_message type (so_compile_status so)
                       (info_log_text 1024 (so_info_log so))), tt).
Proof.
  intros Htype Hso.
  destruct (so_compile_status so) eqn:Hstatus.
  - unfold compile_message. rewrite add_cerr_nil.
    rewrite checkCompileErrors_shader by assumption.
    unfold gl, io, mbind, itree_mbind, mret, itree_mret.
    destruct w as [st fs err out]. cbn [gl_state] in Hso.
    world_step. rewrite Hso, Hstatus.
    rewrite (bool_decide_true (GL_COMPILE_STATUS = GL_COMPILE_STATUS)) by reflexivity.
    rewrite not_GLboolean. cbn [negb]. rewrite interp_state_ret. reflexivity.
  - now apply checkCompileErrors_failed.
Qed.

(** On a program object: the link status decides. *)
Lemma checkCompileErrors_linked (drv : Driver) (w : World)
    (program : GLuint) (po : ProgramObject) :
  programs (gl_state w) !! program = Some po ->
  interp_state (h_world drv) (Shader.checkCompileErrors program "PROGRAM") w
  ≈ Ret (add_cerr w (link_message (po_link_status po)
                       (info_log_text 1024 (po_info_log po))), tt).
Proof.
  intros Hpo. rewrite checkCompileErrors_program.
  unfold gl, io, mbind, itree_mbind, mret, itree_mret.
  destruct w as [st fs err out]. cbn [gl_state] in Hpo.
  world_step. rewrite Hpo.
  rewrite (bool_decide_true (GL_LINK_STATUS = GL_LINK_STATUS)) by reflexivity.
  rewrite not_GLboolean.
  destruct (po_link_status po); cbn [negb link_message].
  - rewrite interp_state_ret, add_cerr_nil. reflexivity.
  - world_step. rewrite Hpo. rewrite interp_world_trigger. reflexivity.
Qed.

Lemma info_log_text_length (bufSize : GLsizei) (log : string) :
  (String.length (info_log_text bufSize log) <= Z.to_nat (bufSize - 1))%nat.
Proof.
  unfold info_log_text. generalize (Z.to_nat (bufSize - 1)) as n.
  induction log as [|c log IH]; intros [|n]; simpl; try lia.
  specialize (IH n). lia.
Qed.

(** X11: [Shader::checkCompileErrors] never changes the GL's state, the
    files or the output stream.  On a stage object it writes to the error
    stream exactly when the compile status is false, and then the message
    names the stage; with ["PROGRAM"] it reads the link status of a program
    object instead and writes ["PROGRAM LINK ERROR"] exactly when that is
    false.  Any other second argument is taken as the name of a stage. *)
Theorem checkCompileErrors_reports (drv : Driver) (w : World) (name : GLuint) :
  (forall (type : string) (so : ShaderObject),
      type <> "PROGRAM" ->
      shaders (gl_state w) !! name = Some so ->
      exists message,
        interp_state (h_world drv) (Shader.checkCompileErrors name type) w
        ≈ Ret (add_cerr w message, tt)
        /\ (message = "" <-> so_compile_status so = true)
        /\ (so_compile_status so = false ->
            message = "SHADER COMPILE ERROR [" +:+ type +:+ "]:" +:+ nl
                      +:+ info_log_text 1024 (so_info_log so) +:+ nl))
  /\ (forall po : ProgramObject,
         programs (gl_state w) !! name = Some po ->
         exists message,
           interp_state (h_world drv) (Shader.checkCompileErrors name "PROGRAM") w
           ≈ Ret (add_cerr w message, tt)
           /\ (message = "" <-> po_link_status po = true)
           /\ (po_link_status po = false ->
               message = "PROGRAM LINK ERROR:" +:+ nl
                         +:+ info_log_text 1024 (po_info_log po) +:+ nl)).
Proof.
  split.
  - intros type so Htype Hso.
    exists (compile_message type (so_compile_status so)
              (info_log_text 1024 (so_info_log so))).
    split; [apply checkCompileErrors_stage; assumption|].
    unfold compile_message. destruct (so_compile_status so).
    + repeat split; auto; discriminate.
    + repeat split; auto; discriminate.
  - intros po Hpo.
    exists (link_message (po_link_status po) (info_log_text 1024 (po_info_log po))).
    split; [apply checkCompileErrors_linked; assumption|].
    unfold link_message. destruct (po_link_status po).
    + repeat split; auto; discriminate.
    + repeat split; auto; discriminate.
Qed.

(** X12: however long the driver's information log is, the message that
    [CompileShader] writes for a rejected source has at most 526 characters:
    the 14 of its heading, at most 511 of the log, and a newline. *)
Theorem CompileShader_message_bound
    (drv : Driver) (w : World) (shaderSource : string) (shaderType : GLenum) (log : string) :
  is_stage shaderType = true ->
  glsl_compile drv shaderType shaderSource = (false, log) ->
  exists w' message,
    interp_state (h_world drv) (CompileShader shaderSource shaderType) w
    ≈ Ret (w', unused_name (gl_state w))
    /\ cerr w' = cerr w +:+ message
    /\ (String.length message <= 526)%nat.
Proof.
  intros Hstage Hcompile. do 2 eexists.
  split; [apply (CompileShader_failed drv w _ _ _ Hstage Hcompile)|].
  split; [reflexivity|].
  rewrite !length_append.
  pose proof (info_log_text_length 512 log) as Hlog.
  change (Z.to_nat (512 - 1)) with 511%nat in Hlog.
  change (String.length "Shader error:") with 13%nat.
  change (String.length nl) with 1%nat. lia.
Qed.

Lemma CompileShader_message_bound_witness :
  exists w' message,
    interp_state (h_world driver_example) (CompileShader "void main(" GL_VERTEX_SHADER)
      world_example
    ≈ Ret (w', unused_name (gl_state world_example))
    /\ cerr w' = cerr world_example +:+ message
    /\ (String.length message <= 526)%nat.
Proof.
  apply (CompileShader_message_bound driver_example world_example "void main("
           GL_VERTEX_SHADER "0:1(1): error: syntax error, unexpected end of file");
    reflexivity.
Defined.

(** ** The uniform setters *)

(** A setter asks for the location of the name, as a C string, in its own
    program and writes the value there, in the program in use. *)
Lemma set_uniform_world (drv : Driver) (w : World) (this : Shader.t) (name : string)
    (value : UniformValue) :
  interp_state (h_world drv) (set_uniform this name value) w
  ≈ Ret (with_gl_state w
           (write_uniform (gl_state w)
              (shader_call drv (GlGetUniformLocation (Shader.ID this) (c_str name))
                 (gl_state w)).2
              value), tt).
Proof.
  destruct w as [st fs err out].
  destruct value as [x|v|v|m];
    unfold set_uniform, Shader.setFloat, Shader.setVec3, Shader.setVec4, Shader.setMat4,
      gl, mbind, itree_mbind;
    rewrite interp_world_bind;
    cbn [glsl_call shader_call gl_state files cerr cout fst snd];
    rewrite interp_world_trigger;
    cbn [glsl_call shader_call gl_state files cerr cout fst snd with_gl_state];
    rewrite ?(bool_decide_true (1 = 1)) by reflexivity;
    try destruct v; reflexivity.
Qed.

Lemma write_uniform_frame (st : GLState) (location : GLint) (v : UniformValue) :
  shaders (write_uniform st location v) = shaders st
  /\ current_program (write_uniform st location v) = current_program st
  /\ forall program,
       program <> current_program st ->
       programs (write_uniform st location v) !! program = programs st !! program.
Proof.
  unfold write_uniform.
  destruct (bool_decide (location = -1)); [now repeat split|].
  destruct (programs st !! current_program st) as [po|]; [|now repeat split].
  destruct (po_values po !! location) as [old|]; [|now repeat split].
  destruct (same_kind old v); [|now repeat split].
  repeat split. intros program Hother. simpl. now apply lookup_insert_ne.
Qed.

Lemma write_uniform_stored (st : GLState) (location : GLint) (v old : UniformValue)
    (po : ProgramObject) :
  location <> -1 ->
  programs st !! current_program st = Some po ->
  po_values po !! location = Some old ->
  same_kind old v = true ->
  uniform_value (write_uniform st location v) (current_program st) location = Some v
  /\ forall other,
       other <> location ->
       uniform_value (write_uniform st location v) (current_program st) other
       = uniform_value st (current_program st) other.
Proof.
  intros Hloc Hpo Hold Hkind. unfold write_uniform, uniform_value.
  rewrite bool_decide_false by exact Hloc. rewrite Hpo, Hold, Hkind. simpl.
  rewrite lookup_insert_eq. simpl. split.
  - apply lookup_insert_eq.
  - intros other Hother. now apply lookup_insert_ne.
Qed.

(** X13: when the shader's program is linked and in use, and the name, as
    the C string that the setter hands to [glGetUniformLocation], is in its
    reflection data at a location that holds a value of the same kind, the
    setter stores the value at that location and returns; the value of
    every other location, every other program and the shader objects are as
    they were. *)
Theorem Shader_set_present_uniform
    (drv : Driver) (w : World) (this : Shader.t) (name : string)
    (po : ProgramObject) (location : GLint) (old value : UniformValue) :
  current_program (gl_state w) = Shader.ID this ->
  programs (gl_state w) !! Shader.ID this = Some po ->
  po_link_status po = true ->
  po_uniforms po !! c_str name = Some location ->
  location <> -1 ->
  po_values po !! location = Some old ->
  same_kind old value = true ->
  exists w',
    interp_state (h_world drv) (set_uniform this name value) w ≈ Ret (w', tt)
    /\ uniform_value (gl_state w') (Shader.ID this) location = Some value
    /\ (forall other,
           other <> location ->
           uniform_value (gl_state w') (Shader.ID this) other
           = uniform_value (gl_state w) (Shader.ID this) other)
    /\ (forall program,
           program <> Shader.ID this ->
           programs (gl_state w') !! program = programs (gl_state w) !! program)
    /\ shaders (gl_state w') = shaders (gl_state w)
    /\ cerr w' = cerr w.
Proof.
  intros Hcurrent Hpo Hlinked Hname Hloc Hold Hkind.
  eexists. split; [apply set_uniform_world|].
  cbn [shader_call snd]. rewrite Hpo, Hlinked.
  unfold GLint in *. rewrite Hname. cbn [default].
  cbn [with_gl_state gl_state cerr].
  rewrite <- Hcurrent in *.
  destruct (write_uniform_stored _ _ value _ _ Hloc Hpo Hold Hkind) as [Hstored Hothers].
  destruct (write_uniform_frame (gl_state w) location value) as (Hshaders & _ & Hprograms).
  repeat split; assumption.
Qed.

Lemma Shader_set_present_uniform_witness :
  exists w',
    interp_state (h_world driver_example)
      (set_uniform {| Shader.ID := 3 |} "uColor" (U4f (Vec4 1 0 0 1))) world_example
    ≈ Ret (w', tt)
    /\ uniform_value (gl_state w') 3 0 = Some (U4f (Vec4 1 0 0 1))
    /\ (forall other,
           other <> 0 ->
           uniform_value (gl_state w') 3 other
           = uniform_value (gl_state world_example) 3 other)
    /\ (forall program,
           program <> 3 ->
           programs (gl_state w') !! program = programs (gl_state world_example) !! program)
    /\ shaders (gl_state w') = shaders (gl_state world_example)
    /\ cerr w' = cerr world_example.
Proof.
  apply (Shader_set_present_uniform driver_example world_example {| Shader.ID := 3 |}
           "uColor"
           {| po_attached := []; po_link_status := true; po_info_log := "";
              po_uniforms := {[ "uColor" := 0 ]};
              po_values := {[ 0 := U4f (Vec4 0 0 0 0) ]};
              po_delete_status := false |}
           0 (U4f (Vec4 0 0 0 0)) (U4f (Vec4 1 0 0 1)));
    try reflexivity. discriminate.
Defined.



(** ** The constructor against the GL's state *)

Lemma programs_sweep_shaders (st : GLState) :
  programs (sweep_shaders st) = programs st
  /\ current_program (sweep_shaders st) = current_program st.
Proof. split; reflexivity. Qed.

Ltac gl_norm :=
  unfold add_cerr, with_shaders, with_programs;
  cbn [fst snd gl_state files cerr cout shaders programs current_program].

(** X15: the [Shader] constructor against the GL, for files without a NUL
    character, which [glShaderSource] reads whole (of the text of [c_str()]
    it reads the characters before the first NUL).  A file that cannot be
    read is compiled as the empty text, with no message of its own.  The
    error stream gets the vertex stage's message, then the fragment stage's,
    then the linker's, each one only when its status is false; the
    constructor goes on after a failure and always returns the name of a
    new program object, which holds the two stage objects in the order
    vertex, fragment, and the result of linking them.  The other program
    objects, the program in use, the files and the output stream are as
    they were. *)
Theorem Shader_new_program (drv : Driver) (w : World) (vertexPath fragmentPath : string) :
  c_str (default "" (files w !! vertexPath)) = default "" (files w !! vertexPath) ->
  c_str (default "" (files w !! fragmentPath)) = default "" (files w !! fragmentPath) ->
  let vertex :=
    compiled drv GL_VERTEX_SHADER (c_str (default "" (files w !! vertexPath))) in
  let fragment :=
    compiled drv GL_FRAGMENT_SHADER (c_str (default "" (files w !! fragmentPath))) in
  let result := glsl_link drv [vertex; fragment] in
  exists w' ID vert frag,
    interp_state (h_world drv) (Shader.new vertexPath fragmentPath) w
    ≈ Ret (w', {| Shader.ID := ID |})
    /\ ID <> 0
    /\ programs (gl_state w) !! ID = None
    /\ programs (gl_state w') = <[ ID := linked result [vert; frag] ]> (programs (gl_state w))
    /\ current_program (gl_state w') = current_program (gl_state w)
    /\ cerr w'
       = cerr w
         +:+ compile_message "VERTEX" (so_compile_status vertex)
               (info_log_text 1024 (so_info_log vertex))
         +:+ compile_message "FRAGMENT" (so_compile_status fragment)
               (info_log_text 1024 (so_info_log fragment))
         +:+ link_message (lr_status result) (info_log_text 1024 (lr_info_log result))
    /\ files w' = files w
    /\ cout w' = cout w.
Proof.
  intros _ _ vertex fragment result.
  destruct w as [st fs err out]. cbn [gl_state files cerr cout] in *.
  unfold Shader.new, gl, io, mbind, itree_mbind, mret, itree_mret.
  destruct (unused_name_spec st) as (_ & Hvert & _).
  set (vert := unused_name st) in *.
  set (st1 := {| shaders := <[ vert := vertex ]> (shaders st);
                 programs := programs st; current_program := current_program st |}).
  destruct (unused_name_spec st1) as (_ & Hfrag & _).
  set (frag := unused_name st1) in *.
  assert (Hne : vert <> frag).
  { intros Heq. rewrite <- Heq in Hfrag. unfold st1 in Hfrag. cbn in Hfrag.
    now rewrite lookup_insert_eq in Hfrag. }
  set (st2 := {| shaders := <[ frag := fragment ]> (shaders st1);
                 programs := programs st1; current_program := current_program st1 |}).
  assert (Hvertex : shaders st2 !! vert = Some vertex).
  { unfold st2, st1. cbn [shaders].
    rewrite lookup_insert_ne by congruence. apply lookup_insert_eq. }
  assert (Hfragment : shaders st2 !! frag = Some fragment).
  { unfold st2. cbn [shaders]. apply lookup_insert_eq. }
  destruct (unused_name_spec st2) as (HID0 & _ & HID).
  set (ID := unused_name st2) in *.
  eexists. exists ID, vert, frag.
  split.
  - world_step. world_step.
    (* the vertex stage *)
    world_step. fold vert.
    world_step. rewrite alter_insert_eq. cbn [so_type so_source String.concat].
    world_step. rewrite alter_insert_eq.
    cbn [so_type so_source so_compile_status so_info_log so_delete_status].
    fold (compiled drv GL_VERTEX_SHADER (c_str (default "" (fs !! vertexPath)))).
    fold vertex.
    rewrite interp_state_bind at 1.
    rewrite (checkCompileErrors_stage drv _ vert "VERTEX" vertex)
      by (try discriminate; apply lookup_insert_eq).
    rewrite bind_ret_l. gl_norm. fold st1.
    (* the fragment stage *)
    world_step. fold st1. fold frag.
    world_step. rewrite alter_insert_eq. cbn [so_type so_source String.concat].
    world_step. rewrite alter_insert_eq.
    cbn [so_type so_source so_compile_status so_info_log so_delete_status].
    fold (compiled drv GL_FRAGMENT_SHADER (c_str (default "" (fs !! fragmentPath)))).
    fold fragment.
    gl_norm. rewrite interp_state_bind at 1.
    rewrite (checkCompileErrors_stage drv _ frag "FRAGMENT" fragment)
      by (try discriminate; apply lookup_insert_eq).
    rewrite bind_ret_l. gl_norm. fold st2.
    (* the program *)
    world_step. fold ID. gl_norm.
    world_step. gl_norm. rewrite Hvertex, bool_decide_true by eauto.
    rewrite alter_insert_eq. cbn [po_attached po_link_status po_info_log po_uniforms
                                    po_values po_delete_status].
    rewrite (bool_decide_false (vert ∈ [])) by apply not_elem_of_nil. cbn [app].
    world_step. gl_norm. rewrite Hfragment, bool_decide_true by eauto.
    rewrite alter_insert_eq. cbn [po_attached po_link_status po_info_log po_uniforms
                                    po_values po_delete_status].
    rewrite (bool_decide_false (frag ∈ [vert])) by (intros Hin; apply list_elem_of_singleton in Hin; congruence).
    cbn [app].
    world_step. gl_norm. rewrite alter_insert_eq.
    cbn [po_attached po_link_status po_info_log po_uniforms po_values po_delete_status
         omap list_omap].
    rewrite Hvertex, Hfragment. fold result. fold (linked result [vert; frag]).
    rewrite interp_state_bind at 1.
    rewrite (checkCompileErrors_linked drv _ ID (linked result [vert; frag]))
      by apply lookup_insert_eq.
    rewrite bind_ret_l. gl_norm.
    world_step. world_step. rewrite interp_state_ret. reflexivity.
  - cbn [gl_state files cerr cout].
    split; [exact HID0|]. split; [exact HID|].
    split; [reflexivity|]. split; [reflexivity|].
    split; [|now split].
    now rewrite !append_assoc.
Qed.

Lemma Shader_new_program_witness :
  let vertex := compiled driver_example GL_VERTEX_SHADER "" in
  let fragment := compiled driver_example GL_FRAGMENT_SHADER "" in
  let result := glsl_link driver_example [vertex; fragment] in
  exists w' ID vert frag,
    interp_state (h_world driver_example) (Shader.new "vertex.shader" "fragment.shader")
      world_example
    ≈ Ret (w', {| Shader.ID := ID |})
    /\ ID <> 0
    /\ programs (gl_state world_example) !! ID = None
    /\ programs (gl_state w')
       = <[ ID := linked result [vert; frag] ]> (programs (gl_state world_example))
    /\ current_program (gl_state w') = current_program (gl_state world_example)
    /\ cerr w'
       = cerr world_example
         +:+ compile_message "VERTEX" (so_compile_status vertex)
               (info_log_text 1024 (so_info_log vertex))
         +:+ compile_message "FRAGMENT" (so_compile_status fragment)
               (info_log_text 1024 (so_info_log fragment))
         +:+ link_message (lr_status result) (info_log_text 1024 (lr_info_log result))
    /\ files w' = files world_example
    /\ cout w' = cout world_example.
Proof.
  apply (Shader_new_program driver_example world_example "vertex.shader" "fragment.shader");
    reflexivity.
Defined.

(** ** More on the [main] functions *)

(** X16: what each failure of the initialization leaves behind, in both
    [main] functions.  The error stream gets exactly one line, which names
    the step that failed, and the output stream nothing.  [glfwTerminate] is
    called when the window cannot be created, as the last call; it is not
    called when [glfwInit] fails, and neither when the GL loader fails,
    where [main] returns with the window and GLFW still up. *)
Theorem main_failure_report (main : itree appE Z) :
  main = Ex03.main \/ main = HelloWorldGL.main ->
  forall calls status,
    run main calls status ->
    initialization_failed calls ->
    (glfwInit_failed calls ->
     cerr_text calls = "Failed to initialize GLFW" +:+ nl
     /\ existsb is_glfwTerminate calls = false)
    /\ (glfwCreateWindow_failed calls ->
        cerr_text calls = "Failed to create GLFW window" +:+ nl
        /\ last calls = Some (answered (inl1 GlfwTerminate) tt))
    /\ (gladLoadGLLoader_failed calls ->
        cerr_text calls = "Failed to initialize GLAD" +:+ nl
        /\ existsb is_glfwTerminate calls = false)
    /\ cout_text calls = "".
Proof.
  intros Hmain calls status Hrun Hfail.
  assert (Hcases :
            (calls = [answered (inl1 GlfwInit) false;
                      answered (inr1 (inr1 (inr1 (Cerr ("Failed to initialize GLFW" +:+ nl)))))
                        tt])
            \/ (exists title,
                   calls = [answered (inl1 GlfwInit) true;
                            answered (inl1 (GlfwWindowHint GLFW_CONTEXT_VERSION_MAJOR
                                              (GLFW_int 3))) tt;
                            answered (inl1 (GlfwWindowHint GLFW_CONTEXT_VERSION_MINOR
                                              (GLFW_int 3))) tt;
                            answered (inl1 (GlfwWindowHint GLFW_OPENGL_PROFILE
                                              GLFW_OPENGL_CORE_PROFILE)) tt;
                            answered (inl1 (GlfwCreateWindow 800 600 title)) None;
                            answered (inr1 (inr1 (inr1 (Cerr ("Failed to create GLFW window"
                                                              +:+ nl))))) tt;
                            answered (inl1 GlfwTerminate) tt])
            \/ (exists title window between,
                   calls = [answered (inl1 GlfwInit) true;
                            answered (inl1 (GlfwWindowHint GLFW_CONTEXT_VERSION_MAJOR
                                              (GLFW_int 3))) tt;
                            answered (inl1 (GlfwWindowHint GLFW_CONTEXT_VERSION_MINOR
                                              (GLFW_int 3))) tt;
                            answered (inl1 (GlfwWindowHint GLFW_OPENGL_PROFILE
                                              GLFW_OPENGL_CORE_PROFILE)) tt;
                            answered (inl1 (GlfwCreateWindow 800 600 title)) (Some window);
                            answered (inl1 (GlfwMakeContextCurrent window)) tt]
                           ++ between
                           ++ [answered (inl1 GladLoadGLLoader) false;
                               answered (inr1 (inr1 (inr1 (Cerr ("Failed to initialize GLAD"
                                                                 +:+ nl))))) tt]
                   /\ (between = []
                       \/ between = [answered (inl1 (GlfwSetFramebufferSizeCallback window))
                                       tt]))).
  { destruct Hmain as [-> | ->].
    - destruct (Ex03_main_failure calls status Hrun Hfail)
        as [_ [-> | [-> | [window ->]]]]; eauto 8.
      right. right. exists "Shaders in OpenGL", window, []. eauto.
    - destruct (HelloWorldGL_main_failure calls status Hrun Hfail)
        as [_ [-> | [-> | [window ->]]]]; eauto 8.
      right. right.
      exists "Hello OpenGL", window,
        [answered (inl1 (GlfwSetFramebufferSizeCallback window)) tt]. eauto. }
  destruct Hcases as [-> | [[title ->] | (title & window & between & -> & [-> | ->])]];
    (split; [|split; [|split]]);
    try reflexivity;
    try (intros H; unfold glfwInit_failed, glfwCreateWindow_failed,
           gladLoadGLLoader_failed in H; simpl in H; try discriminate H);
    split; reflexivity.
Qed.

Lemma main_failure_report_witness :
  let window : GLFWwindow := 1 in
  let calls : list (Answered appE) :=
    [answered (inl1 GlfwInit) true;
     answered (inl1 (GlfwWindowHint GLFW_CONTEXT_VERSION_MAJOR (GLFW_int 3))) tt;
     answered (inl1 (GlfwWindowHint GLFW_CONTEXT_VERSION_MINOR (GLFW_int 3))) tt;
     answered (inl1 (GlfwWindowHint GLFW_OPENGL_PROFILE GLFW_OPENGL_CORE_PROFILE)) tt;
     answered (inl1 (GlfwCreateWindow 800 600 "Hello OpenGL")) (Some window);
     answered (inl1 (GlfwMakeContextCurrent window)) tt;
     answered (inl1 (GlfwSetFramebufferSizeCallback window)) tt;
     answered (inl1 GladLoadGLLoader) false;
     answered (inr1 (inr1 (inr1 (Cerr ("Failed to initialize GLAD" +:+ nl))))) tt] in
  cerr_text calls = "Failed to initialize GLAD" +:+ nl
  /\ existsb is_glfwTerminate calls = false.
Proof.
  intros window calls.
  apply (main_failure_report HelloWorldGL.main (or_intror eq_refl) calls (-1)).
  - unfold calls, HelloWorldGL.main, glfw, stdio.
    do 9 (eapply run_Vis; [cbn; reflexivity|]; cbn).
    eapply run_Ret. reflexivity.
  - right. right. reflexivity.
  - reflexivity.
Defined.

(** *** The render loop of HelloWorld_GL.cpp *)

Lemma render_loop_frames_run (window : GLFWwindow) (VAO shaderProgram : GLuint)
    (keys : list GLFWaction) :
  run (HelloWorldGL.render_loop window VAO shaderProgram)
    (frames window VAO shaderProgram keys) tt.
Proof.
  induction keys as [|key keys IH].
  - unfold frames, HelloWorldGL.render_loop, while_not, glfw, mbind, itree_mbind, mret,
      itree_mret.
    cbn [flat_map app].
    eapply run_Vis; [cbn; reflexivity|]. cbn.
    eapply run_Ret. reflexivity.
  - unfold frames. cbn [flat_map]. rewrite <- app_assoc.
    fold (frames window VAO shaderProgram keys).
    unfold HelloWorldGL.render_loop, while_not, HelloWorldGL.processInput, glfw, draw, glcall,
      mbind, itree_mbind, mret, itree_mret.
    unfold frame.
    destruct key; cbn [app];
      repeat (eapply run_Vis; [cbn; reflexivity|]; cbn);
      (eapply run_Tau; [cbn; reflexivity|]); exact IH.
Qed.

Lemma render_loop_run_frames (window : GLFWwindow) (VAO shaderProgram : GLuint) (n : nat) :
  forall (calls : list (Answered appE)) (r : unit),
    (length calls <= n)%nat ->
    run (HelloWorldGL.render_loop window VAO shaderProgram) calls r ->
    exists keys, calls = frames window VAO shaderProgram keys.
Proof.
  induction n as [|n IH]; intros calls r Hlen H;
    unfold HelloWorldGL.render_loop, while_not, HelloWorldGL.processInput, glfw, draw, glcall,
      mbind, itree_mbind, mret, itree_mret in H;
    run_step H as stop.
  - simpl in Hlen. lia.
  - destruct stop; cbn in H.
    + run_end H. exists []. reflexivity.
    + run_step H as key.
      destruct key;
        [|run_step H as []|];
        do 7 (run_step H as []);
        apply run_inv in H; cbn [observe _observe] in H;
        (apply IH in H as [keys ->]; [|simpl in Hlen; lia]);
        match goal with
        | |- exists _, answered _ _ :: answered _ ?key :: _ = _ => exists (key :: keys)
        end;
        reflexivity.
Qed.


(** *** Runs of a sequence *)

Lemma run_bind_inv_observe {E R S} (k : R -> itree E S) (u : itree E S)
    (calls : list (Answered E)) (r : S) :
  run u calls r ->
  forall t : itree E R,
    observe u = observe (ITree.bind t k) ->
    exists calls1 calls2 x,
      calls = calls1 ++ calls2 /\ run t calls1 x /\ run (k x) calls2 r.
Proof.
  induction 1 as [u r Hobs | u u' calls r Hobs Hrun IH | u A e h a calls r Hobs Hrun IH];
    intros t Heq; rewrite observe_bind in Heq; rewrite Hobs in Heq;
    destruct (observe t) as [x | t' | B e' h'] eqn:Ht; cbn in Heq; try discriminate Heq.
  - exists [], [], x. split; [reflexivity|]. split; [now apply run_Ret|].
    apply run_Ret. now rewrite <- Heq.
  - exists [], calls, x. split; [reflexivity|]. split; [now apply run_Ret|].
    apply run_Tau with u'; [now rewrite <- Heq | exact Hrun].
  - injection Heq as Heq. destruct (IH t') as (calls1 & calls2 & x & -> & Ht' & Hk).
    { now rewrite Heq. }
    exists calls1, calls2, x. split; [reflexivity|]. split; [|exact Hk].
    now apply run_Tau with t'.
  - exists [], (answered e a :: calls), x. split; [reflexivity|].
    split; [now apply run_Ret|].
    apply run_Vis with h; [now rewrite <- Heq | exact Hrun].
  - revert a Hrun IH.
    change (match (VisF e h : itreeF E S (itree E S)) return Prop with
            | VisF e1 h1 =>
                forall a1,
                  run (h1 a1) calls r ->
                  (forall t1 : itree E R,
                      observe (h1 a1) = observe (ITree.bind t1 k) ->
                      exists calls1 calls2 x,
                        calls = calls1 ++ calls2 /\ run t1 calls1 x /\ run (k x) calls2 r) ->
                  exists calls1 calls2 x,
                    answered e1 a1 :: calls = calls1 ++ calls2
                    /\ run t calls1 x /\ run (k x) calls2 r
            | _ => True
            end).
    rewrite Heq. intros a1 _ IH.
    destruct (IH (h' a1) eq_refl) as (calls1 & calls2 & x & -> & Ht' & Hk).
    exists (answered e' a1 :: calls1), calls2, x. split; [reflexivity|].
    split; [|exact Hk]. now apply run_Vis with h'.
Qed.

(** A run of [t] followed by [k] is a run of [t] and then one of [k]. *)
Lemma run_bind_inv {E R S} (t : itree E R) (k : R -> itree E S)
    (calls : list (Answered E)) (r : S) :
  run (ITree.bind t k) calls r ->
  exists calls1 calls2 x,
    calls = calls1 ++ calls2 /\ run t calls1 x /\ run (k x) calls2 r.
Proof. intros H. now apply (run_bind_inv_observe k _ _ _ H t). Qed.

(** *** [main] of HelloWorld_GL.cpp past the initialization *)

Lemma HelloWorldGL_main_run (calls : list (Answered appE)) (status : Z) :
  run HelloWorldGL.main calls status ->
  ~ initialization_failed calls ->
  status = 0
  /\ exists window VAO VBO vertexShader fragmentShader shaderProgram success infoLog keys,
      calls = hello_startup window ++ hello_buffers VAO VBO
              ++ hello_program vertexShader fragmentShader shaderProgram success infoLog
              ++ frames window VAO shaderProgram keys
              ++ [answered (inl1 GlfwTerminate) tt].
Proof.
  intros H Hok.
  unfold HelloWorldGL.main, glfw, stdio, draw, glcall, mbind, itree_mbind, mret, itree_mret in H.
  run_step H as ok. destruct ok; cbn in H.
  2:{ run_step H as []. run_end H. exfalso. apply Hok. left. reflexivity. }
  do 3 (run_step H as []). run_step H as window.
  destruct window as [window|]; cbn in H.
  2:{ do 2 (run_step H as []). run_end H. exfalso. apply Hok. right. left. reflexivity. }
  do 2 (run_step H as []). run_step H as loaded. destruct loaded; cbn in H.
  2:{ run_step H as []. run_end H. exfalso. apply Hok. right. right. reflexivity. }
  clear Hok.
  run_step H as []. run_step H as VAO. run_step H as []. run_step H as VBO.
  do 5 (run_step H as []).
  run_step H as vertexShader. do 2 (run_step H as []). run_step H as success.
  apply run_inv in H; cbn in H; repeat rewrite observe_subst in H; cbn in H.
  destruct (not_ success) eqn:Hsuccess; cbn in H;
    [run_got H as infoLog; run_step H as []; run_step H as fragmentShader
    |run_got H as fragmentShader; pose (infoLog := "")];
    do 2 (run_step H as []); run_step H as shaderProgram; do 5 (run_step H as []);
    apply run_bind_inv in H as (calls0 & calls & [] & -> & Hret & H);
    apply run_inv in Hret; cbn in Hret; destruct Hret as [-> _]; cbn beta in H;
    apply run_bind_inv in H as (calls1 & calls2 & [] & -> & Hloop & H);
    apply (render_loop_run_frames _ _ _ (length calls1)) in Hloop as [keys ->];
    try reflexivity;
    run_step H as []; run_end H;
    (split; [reflexivity|]);
    exists window, VAO, VBO, vertexShader, fragmentShader, shaderProgram, success, infoLog, keys;
    unfold hello_program; rewrite Hsuccess; reflexivity.
Qed.

Lemma HelloWorldGL_main_runs (window : GLFWwindow)
    (VAO VBO vertexShader fragmentShader shaderProgram : GLuint)
    (success : GLint) (infoLog : string) (keys : list GLFWaction) :
  run HelloWorldGL.main
    (hello_startup window ++ hello_buffers VAO VBO
     ++ hello_program vertexShader fragmentShader shaderProgram success infoLog
     ++ frames window VAO shaderProgram keys
     ++ [answered (inl1 GlfwTerminate) tt]) 0.
Proof.
  unfold HelloWorldGL.main, glfw, stdio, draw, glcall, mbind, itree_mbind, mret, itree_mret.
  unfold hello_startup, hello_buffers, hello_program. cbn [app].
  do 21 (eapply run_Vis; [cbn; reflexivity|]; cbn).
  assert (Hrest :
            forall t : itree appE unit,
              run t [] tt ->
              run (ITree.bind t (fun _ =>
                     fragmentShader ← ITree.trigger
                                        (inr1 (inr1 (inl1 (GlCreateShader GL_FRAGMENT_SHADER))));
                     ITree.trigger (inr1 (inr1 (inl1 (GlShaderSource fragmentShader
                                                        [HelloWorldGL.fragmentShaderSource]))));;
                     ITree.trigger (inr1 (inr1 (inl1 (GlCompileShader fragmentShader))));;
                     shaderProgram ← ITree.trigger (inr1 (inr1 (inl1 GlCreateProgram)));
                     ITree.trigger (inr1 (inr1 (inl1 (GlAttachShader shaderProgram
                                                        vertexShader))));;
                     ITree.trigger (inr1 (inr1 (inl1 (GlAttachShader shaderProgram
                                                        fragmentShader))));;
                     ITree.trigger (inr1 (inr1 (inl1 (GlLinkProgram shaderProgram))));;
                     ITree.trigger (inr1 (inr1 (inl1 (GlDeleteShader vertexShader))));;
                     ITree.trigger (inr1 (inr1 (inl1 (GlDeleteShader fragmentShader))));;
                     HelloWorldGL.render_loop window VAO shaderProgram;;
                     ITree.trigger (inl1 GlfwTerminate);;
                     Ret 0))
                ([] ++
                 [answered (inr1 (inr1 (inl1 (GlCreateShader GL_FRAGMENT_SHADER))))
                    fragmentShader;
                  answered (inr1 (inr1 (inl1 (GlShaderSource fragmentShader
                                                [HelloWorldGL.fragmentShaderSource])))) tt;
                  answered (inr1 (inr1 (inl1 (GlCompileShader fragmentShader)))) tt;
                  answered (inr1 (inr1 (inl1 GlCreateProgram))) shaderProgram;
                  answered (inr1 (inr1 (inl1 (GlAttachShader shaderProgram vertexShader)))) tt;
                  answered (inr1 (inr1 (inl1 (GlAttachShader shaderProgram fragmentShader))))
                    tt;
                  answered (inr1 (inr1 (inl1 (GlLinkProgram shaderProgram)))) tt;
                  answered (inr1 (inr1 (inl1 (GlDeleteShader vertexShader)))) tt;
                  answered (inr1 (inr1 (inl1 (GlDeleteShader fragmentShader)))) tt]
                 ++ frames window VAO shaderProgram keys
                 ++ [answered (inl1 GlfwTerminate) tt]) 0).
  { intros t Ht. apply run_bind with tt; [exact Ht|].
    unfold mbind, itree_mbind. cbn [app].
    do 9 (eapply run_Vis; [cbn; reflexivity|]; cbn).
    apply (run_observe
             (ITree.bind (HelloWorldGL.render_loop window VAO shaderProgram)
                (fun _ => ITree.bind (ITree.trigger (inl1 GlfwTerminate)) (fun _ => Ret 0))));
      [reflexivity|].
    apply run_bind with tt; [apply render_loop_frames_run|].
    eapply run_Vis; [cbn; reflexivity|]. cbn.
    eapply run_Ret. reflexivity. }
  eapply run_observe; [symmetry; apply observe_subst|]. cbn.
  destruct (not_ success); cbn [app].
  - do 2 (eapply run_Vis; [cbn; reflexivity|]; cbn).
    apply (Hrest (Ret tt)). now apply run_Ret.
  - apply (Hrest (Ret tt)). now apply run_Ret.
Qed.


(** ** ex02_DrawTwoRectangles.cpp: [main] *)

Lemma Ex02_render_loop_frames_run (window : GLFWwindow) (VAO shaderProgram : GLuint)
    (locs : list GLint) :
  run (Ex02.render_loop window VAO shaderProgram)
    (ex02_frames window VAO shaderProgram locs) tt.
Proof.
  induction locs as [|loc locs IH].
  - unfold ex02_frames, Ex02.render_loop, while_not, glfw, mbind, itree_mbind, mret,
      itree_mret.
    cbn [flat_map app].
    eapply run_Vis; [cbn; reflexivity|]. cbn.
    eapply run_Ret. reflexivity.
  - unfold ex02_frames. cbn [flat_map]. rewrite <- app_assoc.
    fold (ex02_frames window VAO shaderProgram locs).
    unfold Ex02.render_loop, while_not, glfw, draw, glcall,
      mbind, itree_mbind, mret, itree_mret.
    unfold ex02_frame. cbn [app].
    do 12 (eapply run_Vis; [cbn; reflexivity|]; cbn).
    (eapply run_Tau; [cbn; reflexivity|]); exact IH.
Qed.

Lemma Ex02_render_loop_run_frames (window : GLFWwindow) (VAO shaderProgram : GLuint)
    (n : nat) :
  forall (calls : list (Answered appE)) (r : unit),
    (length calls <= n)%nat ->
    run (Ex02.render_loop window VAO shaderProgram) calls r ->
    exists locs, calls = ex02_frames window VAO shaderProgram locs.
Proof.
  induction n as [|n IH]; intros calls r Hlen H;
    unfold Ex02.render_loop, while_not, glfw, draw, glcall,
      mbind, itree_mbind, mret, itree_mret in H;
    run_step H as stop.
  - simpl in Hlen. lia.
  - destruct stop; cbn in H.
    + run_end H. exists []. reflexivity.
    + do 4 (run_step H as []). run_step H as loc. do 6 (run_step H as []).
      apply run_inv in H; cbn [observe _observe] in H.
      apply IH in H as [locs ->]; [|simpl in Hlen; lia].
      exists (loc :: locs). reflexivity.
Qed.

Lemma observe_translate {E F R} (h : E ~> F) (t : itree E R) :
  observe (translate h t)
  = observe (match observe t with
             | RetF r => Ret r
             | TauF t' => Tau (translate h t')
             | VisF e k => Vis (h _ e) (fun x => translate h (k x))
             end).
Proof. reflexivity. Qed.

(** The same where the next call depends on a status compared with
    [GL_FALSE]; [Hb] names the outcome. *)
Ltac run_branch H Hb :=
  apply run_inv in H; cbn in H;
  repeat (rewrite observe_subst in H || rewrite observe_translate in H); cbn in H;
  match type of H with
  | context [if ?b then _ else _] => destruct b eqn:Hb
  end;
  cbn in H.

(** A value that is returned at once: no call. *)
Ltac run_ret H :=
  let calls0 := fresh "calls0" in
  let Hret := fresh "Hret" in
  apply run_bind_inv in H as (calls0 & ? & ? & -> & Hret & H);
  apply run_inv in Hret; cbn in Hret; destruct Hret as [-> ->]; cbn beta in H;
  cbn [app] in *.

Lemma ParseShader_app_run (filePath : string) (calls : list (Answered appE))
    (source : ShaderProgramSource) :
  run (glsl (Ex02.ParseShader filePath)) calls source ->
  exists stream, calls = parse_calls filePath stream /\ source = parsed stream.
Proof.
  intros H.
  unfold glsl, Ex02.ParseShader, gl, io, mbind, itree_mbind, mret, itree_mret in H.
  run_step H as stream. exists stream.
  destruct stream as [content|]; [|run_step H as []]; run_end H; split; reflexivity.
Qed.

Lemma CompileShader_app_run (shaderSource : string) (shaderType : GLenum)
    (calls : list (Answered appE)) (shader : GLuint) :
  run (glsl (CompileShader shaderSource shaderType)) calls shader ->
  exists success infoLog,
    calls = compile_calls shaderSource shaderType shader success infoLog.
Proof.
  intros H.
  unfold glsl, CompileShader, gl, io, mbind, itree_mbind, mret, itree_mret in H.
  run_step H as name. do 2 (run_step H as []). run_step H as success.
  run_branch H Hsuccess.
  - run_got H as infoLog. run_step H as []. run_end H.
    exists success, infoLog. unfold compile_calls, GLint in *. now rewrite Hsuccess.
  - destruct H as [-> ->].
    exists success, "". unfold compile_calls, GLint in *. now rewrite Hsuccess.
Qed.

Lemma Ex02_main_run (calls : list (Answered appE)) (status : Z) :
  run Ex02.main calls status ->
  ~ initialization_failed calls ->
  status = 0
  /\ exists window VAO VBO EBO stream vertexShader fragmentShader shaderProgram
       success1 infoLog1 success2 infoLog2 success3 infoLog3 locs,
      calls = hello_startup window ++ ex02_buffers VAO VBO EBO
              ++ parse_calls "Basic.shader" stream
              ++ compile_calls (c_str (VertexSource (parsed stream))) GL_VERTEX_SHADER
                   vertexShader success1 infoLog1
              ++ compile_calls (c_str (FragmentSource (parsed stream)))
                   GL_FRAGMENT_SHADER fragmentShader success2 infoLog2
              ++ link_calls vertexShader fragmentShader shaderProgram success3 infoLog3
              ++ ex02_frames window VAO shaderProgram locs
              ++ [answered (inl1 GlfwTerminate) tt].
Proof.
  intros H Hok.
  unfold Ex02.main, glfw, stdio, draw, glcall, mbind, itree_mbind, mret, itree_mret in H.
  run_step H as ok. destruct ok; cbn in H.
  2:{ run_step H as []. run_end H. exfalso. apply Hok. left. reflexivity. }
  do 3 (run_step H as []). run_step H as window.
  destruct window as [window|]; cbn in H.
  2:{ do 2 (run_step H as []). run_end H. exfalso. apply Hok. right. left. reflexivity. }
  do 2 (run_step H as []). run_step H as loaded. destruct loaded; cbn in H.
  2:{ run_step H as []. run_end H. exfalso. apply Hok. right. right. reflexivity. }
  clear Hok.
  run_step H as []. run_step H as VAO. run_step H as []. run_step H as VBO.
  do 2 (run_step H as []). run_step H as EBO. do 5 (run_step H as []).
  run_ret H.
  apply run_bind_inv in H as (calls1 & ? & shaderSource & -> & Hparse & H). cbn beta in H.
  apply ParseShader_app_run in Hparse as (stream & -> & ->).
  apply run_bind_inv in H as (calls2 & ? & vertexShader & -> & Hvertex & H). cbn beta in H.
  apply CompileShader_app_run in Hvertex as (success1 & infoLog1 & ->).
  apply run_bind_inv in H as (calls3 & ? & fragmentShader & -> & Hfragment & H).
  cbn beta in H.
  apply CompileShader_app_run in Hfragment as (success2 & infoLog2 & ->).
  run_step H as shaderProgram. do 3 (run_step H as []). run_step H as success3.
  run_branch H Hsuccess3;
    [run_got H as infoLog3; run_step H as []; run_step H as []
    |run_got H as []; pose (infoLog3 := "")];
    run_step H as [];
    run_ret H;
    apply run_bind_inv in H as (calls4 & ? & [] & -> & Hloop & H);
    apply (Ex02_render_loop_run_frames _ _ _ (length calls4)) in Hloop as [locs ->];
    try reflexivity;
    run_step H as []; run_end H;
    (split; [reflexivity|]);
    exists window, VAO, VBO, EBO, stream, vertexShader, fragmentShader, shaderProgram,
      success1, infoLog1, success2, infoLog2, success3, infoLog3, locs;
    unfold hello_startup, ex02_buffers, link_calls, GLint in *; rewrite Hsuccess3;
    cbn [app]; repeat (f_equal; []); rewrite <- ?app_assoc; reflexivity.
Qed.

Lemma ParseShader_app_runs (filePath : string) (stream : option string) :
  run (glsl (Ex02.ParseShader filePath)) (parse_calls filePath stream) (parsed stream).
Proof.
  unfold glsl, Ex02.ParseShader, parse_calls, gl, io, mbind, itree_mbind, mret, itree_mret.
  destruct stream as [content|]; cbn [app];
    repeat (eapply run_Vis; [cbn; reflexivity|]; cbn);
    eapply run_Ret; reflexivity.
Qed.

(** One call of a run that is being built, after a status was compared. *)
Ltac run_after_branch Hb :=
  eapply run_Vis;
  [cbn; repeat (rewrite observe_subst || rewrite observe_translate); cbn;
   rewrite ?Hb; cbn; reflexivity|];
  cbn.

Lemma CompileShader_app_runs (shaderSource : string) (shaderType : GLenum)
    (shader : GLuint) (success : GLint) (infoLog : string) :
  run (glsl (CompileShader shaderSource shaderType))
    (compile_calls shaderSource shaderType shader success infoLog) shader.
Proof.
  unfold glsl, CompileShader, compile_calls, gl, io, mbind, itree_mbind, mret, itree_mret.
  cbn [app].
  do 4 (eapply run_Vis; [cbn; reflexivity|]; cbn).
  unfold GLint in *.
  destruct (bool_decide (success = GL_FALSE)) eqn:Hsuccess.
  - run_after_branch Hsuccess.
    eapply run_Vis; [cbn; reflexivity|]; cbn.
    eapply run_Ret. reflexivity.
  - eapply run_Ret.
    cbn; repeat (rewrite observe_subst || rewrite observe_translate); cbn.
    rewrite Hsuccess. reflexivity.
Qed.

Lemma Ex02_main_runs (window : GLFWwindow) (VAO VBO EBO : GLuint) (stream : option string)
    (vertexShader fragmentShader shaderProgram : GLuint)
    (success1 : GLint) (infoLog1 : string) (success2 : GLint) (infoLog2 : string)
    (success3 : GLint) (infoLog3 : string) (locs : list GLint) :
  run Ex02.main
    (hello_startup window ++ ex02_buffers VAO VBO EBO
     ++ parse_calls "Basic.shader" stream
     ++ compile_calls (c_str (VertexSource (parsed stream))) GL_VERTEX_SHADER
          vertexShader success1 infoLog1
     ++ compile_calls (c_str (FragmentSource (parsed stream))) GL_FRAGMENT_SHADER
          fragmentShader success2 infoLog2
     ++ link_calls vertexShader fragmentShader shaderProgram success3 infoLog3
     ++ ex02_frames window VAO shaderProgram locs
     ++ [answered (inl1 GlfwTerminate) tt]) 0.
Proof.
  unfold Ex02.main, glfw, stdio, draw, glcall, mbind, itree_mbind, mret, itree_mret.
  remember (ex02_frames window VAO shaderProgram locs ++ [answered (inl1 GlfwTerminate) tt])
    as loop eqn:Hloop.
  remember (link_calls vertexShader fragmentShader shaderProgram success3 infoLog3 ++ loop)
    as link eqn:Hlink.
  remember (parse_calls "Basic.shader" stream
            ++ compile_calls (c_str (VertexSource (parsed stream))) GL_VERTEX_SHADER
                 vertexShader success1 infoLog1
            ++ compile_calls (c_str (FragmentSource (parsed stream))) GL_FRAGMENT_SHADER
                 fragmentShader success2 infoLog2
            ++ link) as program eqn:Hprogram.
  unfold hello_startup, ex02_buffers. cbn [app].
  do 20 (eapply run_Vis; [cbn; reflexivity|]; cbn).
  eapply run_observe; [symmetry; apply observe_subst|]. cbn.
  subst program.
  apply run_bind with (parsed stream); [apply ParseShader_app_runs|].
  apply run_bind with vertexShader; [apply CompileShader_app_runs|].
  apply run_bind with fragmentShader; [apply CompileShader_app_runs|].
  subst link. unfold link_calls, GLint in *. cbn [app].
  do 5 (eapply run_Vis; [cbn; reflexivity|]; cbn).
  assert (Hrest :
            run (ITree.bind (ITree.trigger (inr1 (inr1 (inl1 (GlDeleteShader vertexShader)))))
                   (fun _ =>
                      ITree.bind
                        (ITree.trigger (inr1 (inr1 (inl1 (GlDeleteShader fragmentShader)))))
                        (fun _ =>
                           ITree.bind (Ex02.render_loop window VAO shaderProgram)
                             (fun _ =>
                                ITree.bind (ITree.trigger (inl1 GlfwTerminate))
                                  (fun _ => Ret 0)))))
              (answered (inr1 (inr1 (inl1 (GlDeleteShader vertexShader)))) tt
               :: answered (inr1 (inr1 (inl1 (GlDeleteShader fragmentShader)))) tt
               :: loop) 0).
  { do 2 (eapply run_Vis; [cbn; reflexivity|]; cbn).
    eapply run_observe; [symmetry; apply observe_subst|]. cbn.
    subst loop.
    apply run_bind with tt; [apply Ex02_render_loop_frames_run|].
    eapply run_Vis; [cbn; reflexivity|]. cbn.
    eapply run_Ret. reflexivity. }
  destruct (bool_decide (success3 = GL_FALSE)) eqn:Hsuccess3; cbn [app].
  - run_after_branch Hsuccess3.
    eapply run_Vis; [cbn; reflexivity|]; cbn.
    eapply run_observe; [|exact Hrest]. reflexivity.
  - eapply run_observe; [|exact Hrest].
    symmetry. cbn. repeat rewrite observe_subst. cbn. rewrite Hsuccess3. reflexivity.
Qed.


(** The three ways in which initialization fails in
    ex02_DrawTwoRectangles.cpp. *)
Lemma Ex02_main_failure (calls : list (Answered appE)) (status : Z) :
  run Ex02.main calls status ->
  initialization_failed calls ->
  status = -1 /\
  (calls = [answered (inl1 GlfwInit) false;
            answered (inr1 (inr1 (inr1 (Cerr ("Failed to initialize GLFW" +:+ nl))))) tt]
   \/ calls = [answered (inl1 GlfwInit) true;
               answered (inl1 (GlfwWindowHint GLFW_CONTEXT_VERSION_MAJOR (GLFW_int 3))) tt;
               answered (inl1 (GlfwWindowHint GLFW_CONTEXT_VERSION_MINOR (GLFW_int 3))) tt;
               answered (inl1 (GlfwWindowHint GLFW_OPENGL_PROFILE GLFW_OPENGL_CORE_PROFILE)) tt;
               answered (inl1 (GlfwCreateWindow 800 600 "Hello OpenGL")) None;
               answered (inr1 (inr1 (inr1 (Cerr ("Failed to create GLFW window" +:+ nl))))) tt;
               answered (inl1 GlfwTerminate) tt]
   \/ exists window,
       calls = [answered (inl1 GlfwInit) true;
                answered (inl1 (GlfwWindowHint GLFW_CONTEXT_VERSION_MAJOR (GLFW_int 3))) tt;
                answered (inl1 (GlfwWindowHint GLFW_CONTEXT_VERSION_MINOR (GLFW_int 3))) tt;
                answered (inl1 (GlfwWindowHint GLFW_OPENGL_PROFILE GLFW_OPENGL_CORE_PROFILE)) tt;
                answered (inl1 (GlfwCreateWindow 800 600 "Hello OpenGL")) (Some window);
                answered (inl1 (GlfwMakeContextCurrent window)) tt;
                answered (inl1 (GlfwSetFramebufferSizeCallback window)) tt;
                answered (inl1 GladLoadGLLoader) false;
                answered (inr1 (inr1 (inr1 (Cerr ("Failed to initialize GLAD" +:+ nl))))) tt]).
Proof.
  intros H Hfail.
  unfold Ex02.main, glfw, stdio, mbind, itree_mbind, mret, itree_mret in H.
  run_step H as ok. destruct ok; cbn in H.
  - run_step H as []. run_step H as []. run_step H as [].
    run_step H as window. destruct window as [window|]; cbn in H.
    + run_step H as []. run_step H as []. run_step H as loaded.
      destruct loaded; cbn in H.
      * exfalso. destruct Hfail as [Hf | [Hf | Hf]];
          unfold glfwInit_failed, glfwCreateWindow_failed, gladLoadGLLoader_failed in Hf;
          simpl in Hf; discriminate Hf.
      * run_step H as []. run_end H. split; [reflexivity|].
        right. right. now exists window.
    + run_step H as []. run_step H as []. run_end H. split; [reflexivity|].
      right. now left.
  - run_step H as []. run_end H. split; [reflexivity|]. now left.
Qed.

Lemma Ex02_main_returns (env : Environment appE) :
  initialization_fails env ->
  exists calls,
    run Ex02.main calls (-1) /\ follows env calls /\ initialization_failed calls.
Proof.
  intros Hfail.
  destruct (env _ (inl1 GlfwInit)) eqn:Hinit;
    [destruct (env _ (inl1 (GlfwCreateWindow 800 600 "Hello OpenGL")))
       as [window|] eqn:Hwindow;
     [destruct (env _ (inl1 GladLoadGLLoader)) eqn:Hglad|]|].
  - exfalso. destruct Hfail as [H | [H | H]]; [congruence | | congruence].
    rewrite H in Hwindow. discriminate.
  - eexists. split; [|split].
    + unfold Ex02.main, glfw, stdio, mbind, itree_mbind, mret, itree_mret.
      do 9 (run_call env; rewrite ?Hinit, ?Hwindow, ?Hglad; cbn). run_call env.
    + repeat constructor.
    + right. right. unfold gladLoadGLLoader_failed. simpl. now rewrite Hglad.
  - eexists. split; [|split].
    + unfold Ex02.main, glfw, stdio, mbind, itree_mbind, mret, itree_mret.
      do 7 (run_call env; rewrite ?Hinit, ?Hwindow; cbn). run_call env.
    + repeat constructor.
    + right. left. unfold glfwCreateWindow_failed. simpl. now rewrite Hwindow.
  - eexists. split; [|split].
    + unfold Ex02.main, glfw, stdio, mbind, itree_mbind, mret, itree_mret.
      do 2 (run_call env; rewrite ?Hinit; cbn). run_call env.
    + repeat constructor.
    + left. unfold glfwInit_failed. simpl. now rewrite Hinit.
Qed.

(** X20: [main] of ex02_DrawTwoRectangles.cpp when GLFW initialization,
    window creation or GL loader initialization fails.  In every such run
    [main] returns -1 after one line on the error stream that names the
    step, having made no call to the GL, not opened Basic.shader, not
    evaluated the test of the render loop and written nothing to the output
    stream; [glfwTerminate] is called when, and only when, it is the window
    that could not be created.  In every environment in which one of the
    three fails, [main] does return. *)
Theorem Ex02_main_initialization_failure :
  (forall calls status,
      run Ex02.main calls status ->
      initialization_failed calls ->
      status = -1
      /\ (cerr_text calls = "Failed to initialize GLFW" +:+ nl /\ glfwInit_failed calls
          \/ cerr_text calls = "Failed to create GLFW window" +:+ nl
             /\ glfwCreateWindow_failed calls
          \/ cerr_text calls = "Failed to initialize GLAD" +:+ nl
             /\ gladLoadGLLoader_failed calls)
      /\ (existsb is_glfwTerminate calls = true <-> glfwCreateWindow_failed calls)
      /\ existsb is_GL_call calls = false
      /\ existsb is_file_read calls = false
      /\ render_loop_entered calls = false
      /\ cout_text calls = "")
  /\ (forall env : Environment appE,
         initialization_fails env ->
         exists calls,
           run Ex02.main calls (-1) /\ follows env calls /\ initialization_failed calls).
Proof.
  split; [|apply Ex02_main_returns].
  intros calls status Hrun Hfail.
  destruct (Ex02_main_failure calls status Hrun Hfail) as [-> [-> | [-> | [window ->]]]];
    (split; [reflexivity|]); (split; [|split; [|repeat split]]).
  - left. split; reflexivity.
  - split; intros H; discriminate H.
  - right. left. split; reflexivity.
  - split; reflexivity.
  - right. right. split; reflexivity.
  - split; intros H; discriminate H.
Qed.

(** *** [main] of ex02_DrawTwoRectangles.cpp against the GL's state *)

Lemma glsl_cerr_text_app (calls1 calls2 : list (Answered glslE)) :
  glsl_cerr_text (calls1 ++ calls2) = glsl_cerr_text calls1 +:+ glsl_cerr_text calls2.
Proof.
  induction calls1 as [|c calls1 IH]; simpl.
  - now rewrite append_nil_l.
  - unfold glsl_cerr_text in *. simpl. now rewrite IH, append_assoc.
Qed.

Lemma glsl_calls_app (calls1 calls2 : list (Answered appE)) :
  glsl_calls (calls1 ++ calls2) = glsl_calls calls1 ++ glsl_calls calls2.
Proof. apply omap_app. Qed.

(** The error stream after a run is the one before it and what the calls
    of the run wrote; the files are never written. *)
Lemma world_run_cerr_text (drv : Driver) (calls : list (Answered glslE)) (w w' : World) :
  world_run drv w calls w' ->
  cerr w' = cerr w +:+ glsl_cerr_text calls /\ files w' = files w.
Proof.
  revert w. induction calls as [|[A e a] calls IH]; intros w; simpl.
  - intros ->. now rewrite append_nil_r.
  - intros [_ H]. destruct (IH _ H) as [-> ->]. clear IH H.
    unfold glsl_cerr_text. simpl. fold (glsl_cerr_text calls).
    destruct e as [e|e].
    + unfold glsl_call. destruct (shader_call drv e (gl_state w)).
      cbn [fst cerr files]. now rewrite append_nil_l.
    + destruct e; cbn [glsl_call io_call fst cerr files];
        now rewrite ?append_nil_l, ?append_assoc.
Qed.

Lemma compile_calls_world (drv : Driver) (w w' : World) (shaderSource : string)
    (shaderType : GLenum) (shader : GLuint) (success : GLint) (infoLog : string) :
  is_stage shaderType = true ->
  world_run drv w
    (glsl_calls (compile_calls shaderSource shaderType shader success infoLog)) w' ->
  shader = unused_name (gl_state w)
  /\ gl_state w'
     = with_shaders (gl_state w)
         (<[ shader := compiled drv shaderType shaderSource ]> (shaders (gl_state w)))
  /\ glsl_cerr_text (glsl_calls (compile_calls shaderSource shaderType shader success infoLog))
     = stage_message "Shader error:" 512 (compiled drv shaderType shaderSource).
Proof.
  intros Hstage H. destruct w as [st fs err out].
  unfold compile_calls, glsl_calls in *. rewrite omap_app in *.
  apply world_run_app_inv in H as (w1 & H1 & H2).
  cbn [omap list_omap glsl_call_of world_run] in H1.
  destruct H1 as (Hshader & _ & _ & Hsuccess & ->).
  cbn [glsl_call shader_call gl_state files cerr cout] in Hshader, Hsuccess, H2 |- *.
  rewrite Hstage in Hshader, Hsuccess, H2.
  cbn [glsl_call shader_call gl_state files cerr cout fst snd with_shaders shaders]
    in Hshader, Hsuccess, H2.
  subst shader.
  rewrite !alter_insert_eq in Hsuccess, H2.
  cbn [so_type so_source so_compile_status so_info_log so_delete_status String.concat]
    in Hsuccess, H2.
  fold (compiled drv shaderType shaderSource) in Hsuccess, H2.
  rewrite lookup_insert_eq in Hsuccess.
  rewrite (bool_decide_true (GL_COMPILE_STATUS = GL_COMPILE_STATUS)) in Hsuccess
    by reflexivity.
  subst success. unfold stage_message, GLint in *.
  destruct (so_compile_status (compiled drv shaderType shaderSource));
    cbn [GLboolean] in *.
  - rewrite (bool_decide_false (GL_TRUE = GL_FALSE)) in * by discriminate.
    cbn [omap list_omap world_run] in H2. subst w'.
    split; [reflexivity|]. split; reflexivity.
  - rewrite (bool_decide_true (GL_FALSE = GL_FALSE)) in * by reflexivity.
    cbn [omap list_omap glsl_call_of world_run] in H2.
    destruct H2 as (HinfoLog & _ & ->).
    cbn [glsl_call shader_call io_call gl_state files cerr cout fst snd with_shaders shaders]
      in HinfoLog |- *.
    rewrite lookup_insert_eq in HinfoLog. subst infoLog.
    split; [reflexivity|]. split; [reflexivity|].
    unfold glsl_cerr_text.
    cbn [foldr app omap list_omap glsl_call_of glsl_cerr_of].
    now rewrite !append_nil_l, append_nil_r.
Qed.

Lemma link_calls_world (drv : Driver) (w w' : World)
    (vertexShader fragmentShader shaderProgram : GLuint) (success : GLint) (infoLog : string)
    (vertex : ShaderObject) :
  shaders (gl_state w) !! vertexShader = Some vertex ->
  world_run drv w
    (glsl_calls (link_calls vertexShader fragmentShader shaderProgram success infoLog)) w' ->
  glsl_cerr_text
    (glsl_calls (link_calls vertexShader fragmentShader shaderProgram success infoLog))
  = stage_message "Vertex shader error:" 512 vertex.
Proof.
  intros Hvertex H. destruct w as [st fs err out]. cbn [gl_state] in Hvertex.
  unfold link_calls, glsl_calls in *. rewrite !omap_app in *.
  apply world_run_app_inv in H as (w1 & H1 & H2).
  apply world_run_app_inv in H2 as (w2 & H2 & _).
  cbn [omap list_omap glsl_call_of world_run] in H1.
  destruct H1 as (_ & _ & _ & _ & Hsuccess & ->).
  cbn [glsl_call shader_call gl_state files cerr cout fst snd] in Hsuccess, H2.
  repeat match type of Hsuccess with
         | context [if bool_decide (is_Some ?x) then _ else _] =>
             destruct (bool_decide (is_Some x))
         end;
    cbn [glsl_call shader_call gl_state files cerr cout fst snd with_programs shaders]
      in Hsuccess, H2;
    unfold GLuint, GLint in *;
    rewrite Hvertex in Hsuccess;
    rewrite (bool_decide_true (GL_COMPILE_STATUS = GL_COMPILE_STATUS)) in Hsuccess
      by reflexivity;
    subst success; unfold stage_message;
    (destruct (so_compile_status vertex); cbn [GLboolean] in *;
     [rewrite (bool_decide_false (GL_TRUE = GL_FALSE)) in * by discriminate; reflexivity
     |rewrite (bool_decide_true (GL_FALSE = GL_FALSE)) in * by reflexivity;
      cbn [omap list_omap glsl_call_of world_run] in H2;
      destruct H2 as (HinfoLog & _);
      cbn [glsl_call shader_call gl_state files cerr cout fst snd with_programs shaders]
        in HinfoLog;
      unfold GLuint, GLint in HinfoLog;
      rewrite Hvertex in HinfoLog; subst infoLog;
      unfold glsl_cerr_text;
      cbn [foldr app omap list_omap glsl_call_of glsl_cerr_of];
      now rewrite !append_nil_l, ?append_nil_r]).
Qed.

Lemma parse_calls_world (drv : Driver) (w w' : World) (filePath : string)
    (stream : option string) :
  world_run drv w (glsl_calls (parse_calls filePath stream)) w' ->
  gl_state w' = gl_state w
  /\ parsed stream = (ParseShader (files w) filePath).2
  /\ glsl_cerr_text (glsl_calls (parse_calls filePath stream))
     = (ParseShader (files w) filePath).1.
Proof.
  intros H. unfold parse_calls, glsl_calls in *. rewrite omap_app in *.
  apply world_run_app_inv in H as (w1 & H1 & H2).
  cbn [omap list_omap glsl_call_of world_run glsl_call io_call fst snd] in H1.
  destruct H1 as (Hstream & ->). subst stream.
  unfold ParseShader, parsed, stream_lines, glsl_cerr_text.
  destruct (files w !! filePath) as [content|] eqn:Hfile; cbn [fst snd from_option].
  - cbn [omap list_omap world_run] in H2. subst w'.
    rewrite bool_decide_false by discriminate. now repeat split.
  - cbn [omap list_omap glsl_call_of world_run glsl_call io_call fst snd] in H2.
    destruct H2 as (_ & ->).
    rewrite bool_decide_true by reflexivity.
    cbn [foldr app omap list_omap glsl_call_of glsl_cerr_of gl_state].
    now rewrite !append_nil_l, ?append_nil_r.
Qed.

Lemma ex02_frames_cerr (window : GLFWwindow) (VAO shaderProgram : GLuint)
    (locs : list GLint) :
  glsl_cerr_text (glsl_calls (ex02_frames window VAO shaderProgram locs)) = "".
Proof.
  unfold ex02_frames. rewrite glsl_calls_app, glsl_cerr_text_app.
  induction locs as [|loc locs IH]; [reflexivity|].
  cbn [flat_map]. rewrite glsl_calls_app, glsl_cerr_text_app, append_assoc, IH.
  reflexivity.
Qed.

(** X21: what [main] of ex02_DrawTwoRectangles.cpp writes to the error
    stream when it gets through the initialization and the GL and the file
    system answer its calls.  It is, in this order: the message of
    [ParseShader] when Basic.shader cannot be opened; the message of
    [CompileShader] for the vertex source when the compiler rejects it; the
    one for the fragment source when the compiler rejects it; and a second
    message for the vertex stage, with the same log, when the compiler
    rejected it.  The sources are those that [ParseShader] finds in the
    file, up to the first NUL character.  Nothing is written about the
    linking, whatever its outcome, and nothing by the render loop. *)
Theorem Ex02_main_diagnostics (drv : Driver) (w w' : World)
    (calls : list (Answered appE)) (status : Z) :
  run Ex02.main calls status ->
  ~ initialization_failed calls ->
  world_run drv w (glsl_calls calls) w' ->
  let source := (ParseShader (files w) "Basic.shader").2 in
  let vertex := compiled drv GL_VERTEX_SHADER (c_str (VertexSource source)) in
  let fragment := compiled drv GL_FRAGMENT_SHADER (c_str (FragmentSource source)) in
  cerr w' = cerr w
            +:+ (ParseShader (files w) "Basic.shader").1
            +:+ stage_message "Shader error:" 512 vertex
            +:+ stage_message "Shader error:" 512 fragment
            +:+ stage_message "Vertex shader error:" 512 vertex.
Proof.
  intros Hrun Hok Hworld source vertex fragment.
  destruct (Ex02_main_run calls status Hrun Hok)
    as (_ & window & VAO & VBO & EBO & stream & vertexShader & fragmentShader
        & shaderProgram & success1 & infoLog1 & success2 & infoLog2
        & success3 & infoLog3 & locs & ->).
  destruct (world_run_cerr_text _ _ _ _ Hworld) as [-> _].
  rewrite !glsl_calls_app in Hworld |- *.
  change (glsl_calls (hello_startup window)) with (@nil (Answered glslE)) in *.
  change (glsl_calls (ex02_buffers VAO VBO EBO)) with (@nil (Answered glslE)) in *.
  change (glsl_calls [answered (inl1 GlfwTerminate) tt]) with (@nil (Answered glslE)) in *.
  cbn [app] in Hworld |- *.
  apply world_run_app_inv in Hworld as (w1 & Hparse & Hworld).
  apply world_run_app_inv in Hworld as (w2 & Hvertex & Hworld).
  apply world_run_app_inv in Hworld as (w3 & Hfragment & Hworld).
  apply world_run_app_inv in Hworld as (w4 & Hlink & _).
  apply parse_calls_world in Hparse as (Hw1 & Hparsed & Hmessage).
  rewrite Hparsed in *. fold source in Hvertex, Hfragment |- *.
  apply compile_calls_world in Hvertex as (HvertexShader & Hw2 & Hmessage1);
    [|reflexivity].
  apply compile_calls_world in Hfragment as (HfragmentShader & Hw3 & Hmessage2);
    [|reflexivity].
  fold vertex in Hw2, Hmessage1. fold fragment in Hw3, Hmessage2.
  apply (link_calls_world _ _ _ _ _ _ _ _ vertex) in Hlink as Hmessage3.
  - rewrite !glsl_cerr_text_app, Hmessage, Hmessage1, Hmessage2, Hmessage3,
      ex02_frames_cerr.
    change (glsl_cerr_text []) with "". now rewrite !append_nil_r.
  - rewrite Hw3, Hw2. cbn [with_shaders shaders].
    destruct (unused_name_spec (gl_state w2)) as (_ & Hfresh & _).
    rewrite <- HfragmentShader, Hw2 in Hfresh. cbn [with_shaders shaders] in Hfresh.
    rewrite lookup_insert_ne.
    + apply lookup_insert_eq.
    + intros Heq. rewrite Heq, lookup_insert_eq in Hfresh. discriminate Hfresh.
Qed.

Lemma Ex02_main_diagnostics_witness :
  let log := "0:1(1): error: syntax error, unexpected end of file" in
  let calls : list (Answered appE) :=
    hello_startup 1 ++ ex02_buffers 1 2 3
    ++ parse_calls "Basic.shader" None
    ++ compile_calls "" GL_VERTEX_SHADER 4 0 log
    ++ compile_calls "" GL_FRAGMENT_SHADER 5 0 log
    ++ link_calls 4 5 6 0 log
    ++ ex02_frames 1 1 6 []
    ++ [answered (inl1 GlfwTerminate) tt] in
  exists w',
    world_run driver_example world_example (glsl_calls calls) w'
    /\ cerr w' = "Failed to open shader file: Basic.shader" +:+ nl
                 +:+ "Shader error:" +:+ nl +:+ log +:+ nl
                 +:+ "Shader error:" +:+ nl +:+ log +:+ nl
                 +:+ "Vertex shader error:" +:+ nl +:+ log +:+ nl.
Proof.
  intros log calls.
  exists (world_after driver_example world_example (glsl_calls calls)).
  assert (Hworld : world_run driver_example world_example (glsl_calls calls)
                     (world_after driver_example world_example (glsl_calls calls))).
  { vm_compute. repeat split. }
  split; [exact Hworld|].
  etransitivity.
  - apply (Ex02_main_diagnostics driver_example world_example _ calls 0).
    + exact (Ex02_main_runs 1 1 2 3 None 4 5 6 0 log 0 log 0 log []).
    + intros [H | [H | H]]; discriminate H.
    + exact Hworld.
  - vm_compute. reflexivity.
Defined.

(** ** ex03_Shaders/main.cpp: [main] past the initialization *)

(** A file that was read and has no NUL character is handed over whole. *)
Lemma read_without_NUL (path : string) (stream : option string)
    (calls : list (Answered appE)) :
  files_without_NUL (answered (inr1 (inr1 (inr1 (IfstreamRead path)))) stream :: calls) ->
  c_str (default "" stream) = default "" stream /\ files_without_NUL calls.
Proof.
  unfold files_without_NUL. destruct stream as [text|]; cbn [omap list_omap read_text default].
  - intros H. apply Forall_cons in H. exact H.
  - intros H. split; [reflexivity|exact H].
Qed.

Lemma files_without_NUL_app (calls1 calls2 : list (Answered appE)) :
  files_without_NUL (calls1 ++ calls2)
  <-> files_without_NUL calls1 /\ files_without_NUL calls2.
Proof. unfold files_without_NUL. rewrite omap_app. apply Forall_app. Qed.

Lemma Shader_new_app_run (vertexPath fragmentPath : string)
    (calls : list (Answered appE)) (this : Shader.t) :
  run (glsl (Shader.new vertexPath fragmentPath)) calls this ->
  files_without_NUL calls ->
  exists a : ShaderAnswers,
    calls = new_calls vertexPath fragmentPath a /\ this = {| Shader.ID := sa_ID a |}.
Proof.
  intros H HNUL. rewrite Shader_new_unfold in H.
  unfold glsl, gl, io, mbind, itree_mbind, mret, itree_mret in H.
  run_step H as vFile. run_step H as fFile.
  run_step H as vert. do 2 (run_step H as []). run_step H as status1.
  run_branch H Hstatus1;
    [run_got H as log1; run_step H as []; run_step H as frag
    |run_got H as frag; pose (log1 := "")];
    (do 2 (run_step H as []); run_step H as status2;
     run_branch H Hstatus2;
       [run_got H as log2; run_step H as []; run_step H as ID
       |run_got H as ID; pose (log2 := "")];
       (do 3 (run_step H as []); run_step H as status3;
        run_branch H Hstatus3;
          [run_got H as log3; run_step H as []; run_step H as []
          |run_got H as []; pose (log3 := "")];
          (run_step H as []; run_end H;
           exists {| sa_vFile := vFile; sa_fFile := fFile;
                     sa_vert := vert; sa_vert_status := status1; sa_vert_log := log1;
                     sa_frag := frag; sa_frag_status := status2; sa_frag_log := log2;
                     sa_ID := ID; sa_link_status := status3; sa_link_log := log3 |};
           unfold new_calls, check_stage_calls, check_program_calls;
           cbn [sa_vFile sa_fFile sa_vert sa_vert_status sa_vert_log sa_frag
                sa_frag_status sa_frag_log sa_ID sa_link_status sa_link_log];
           apply read_without_NUL in HNUL as [Hvertex HNUL];
           apply read_without_NUL in HNUL as [Hfragment _];
           rewrite Hvertex, Hfragment, Hstatus1, Hstatus2, Hstatus3;
           split; reflexivity))).
Qed.

(** One call of a run that is being built. *)
Ltac run_vis := eapply run_Vis; [cbn; reflexivity|]; cbn.

Lemma Shader_new_app_runs (vertexPath fragmentPath : string) (a : ShaderAnswers) :
  files_without_NUL (new_calls vertexPath fragmentPath a) ->
  run (glsl (Shader.new vertexPath fragmentPath)) (new_calls vertexPath fragmentPath a)
    {| Shader.ID := sa_ID a |}.
Proof.
  intros HNUL.
  destruct a as [vFile fFile vert status1 log1 frag status2 log2 ID status3 log3].
  unfold new_calls, check_stage_calls, check_program_calls in *.
  cbn [sa_vFile sa_fFile sa_vert sa_vert_status sa_vert_log sa_frag
       sa_frag_status sa_frag_log sa_ID sa_link_status sa_link_log app] in *.
  apply read_without_NUL in HNUL as [Hvertex HNUL].
  apply read_without_NUL in HNUL as [Hfragment _].
  rewrite <- Hvertex, <- Hfragment.
  rewrite Shader_new_unfold.
  unfold glsl, gl, io, mbind, itree_mbind, mret, itree_mret.
  do 6 run_vis.
  destruct (not_ status1) eqn:Hstatus1; cbn [app];
    [run_after_branch Hstatus1; do 2 run_vis | run_after_branch Hstatus1];
    (do 3 run_vis;
     destruct (not_ status2) eqn:Hstatus2; cbn [app];
       [run_after_branch Hstatus2; do 2 run_vis | run_after_branch Hstatus2];
       (do 4 run_vis;
        destruct (not_ status3) eqn:Hstatus3; cbn [app];
          [run_after_branch Hstatus3; do 2 run_vis | run_after_branch Hstatus3];
          (run_vis; eapply run_Ret; reflexivity))).
Qed.

Lemma Ex03_render_loop_frames_run (window : GLFWwindow) (VAO : GLuint) (shader : Shader.t)
    (locs : list (GLint * GLint)) :
  run (Ex03.render_loop window VAO shader)
    (ex03_frames window VAO (Shader.ID shader) locs) tt.
Proof.
  induction locs as [|[loc1 loc2] locs IH].
  - unfold ex03_frames, Ex03.render_loop, while_not, glfw, mbind, itree_mbind, mret,
      itree_mret.
    cbn [flat_map app].
    run_vis. eapply run_Ret. reflexivity.
  - unfold ex03_frames. cbn [flat_map]. rewrite <- app_assoc.
    fold (ex03_frames window VAO (Shader.ID shader) locs).
    unfold Ex03.render_loop, while_not, glfw, draw, glsl, Shader.use, Shader.setVec4, gl,
      mbind, itree_mbind, mret, itree_mret.
    unfold ex03_frame. cbn [app fst snd].
    do 13 run_vis.
    (eapply run_Tau; [cbn; reflexivity|]); exact IH.
Qed.

Lemma Ex03_render_loop_run_frames (window : GLFWwindow) (VAO : GLuint) (shader : Shader.t)
    (n : nat) :
  forall (calls : list (Answered appE)) (r : unit),
    (length calls <= n)%nat ->
    run (Ex03.render_loop window VAO shader) calls r ->
    exists locs, calls = ex03_frames window VAO (Shader.ID shader) locs.
Proof.
  induction n as [|n IH]; intros calls r Hlen H;
    unfold Ex03.render_loop, while_not, glfw, draw, glsl, Shader.use, Shader.setVec4, gl,
      mbind, itree_mbind, mret, itree_mret in H;
    run_step H as stop.
  - simpl in Hlen. lia.
  - destruct stop; cbn in H.
    + run_end H. exists []. reflexivity.
    + do 4 (run_step H as []). run_step H as loc1. do 2 (run_step H as []).
      run_step H as loc2. do 4 (run_step H as []).
      apply run_inv in H; cbn [observe _observe] in H.
      apply IH in H as [locs ->]; [|simpl in Hlen; lia].
      exists ((loc1, loc2) :: locs). reflexivity.
Qed.

Lemma Ex03_main_run (calls : list (Answered appE)) (status : Z) :
  files_without_NUL calls ->
  run Ex03.main calls status ->
  ~ initialization_failed calls ->
  status = 0
  /\ exists window VAO VBO EBO a locs,
      calls = ex03_startup window ++ ex03_buffers VAO VBO EBO
              ++ new_calls "vertex.shader" "fragment.shader" a
              ++ ex03_frames window VAO (sa_ID a) locs
              ++ ex03_finish (sa_ID a).
Proof.
  intros HNUL H Hok.
  unfold Ex03.main, glfw, stdio, draw, mbind, itree_mbind, mret, itree_mret in H.
  run_step H as ok. destruct ok; cbn in H.
  2:{ run_step H as []. run_end H. exfalso. apply Hok. left. reflexivity. }
  do 3 (run_step H as []). run_step H as window.
  destruct window as [window|]; cbn in H.
  2:{ do 2 (run_step H as []). run_end H. exfalso. apply Hok. right. left. reflexivity. }
  run_step H as []. run_step H as loaded. destruct loaded; cbn in H.
  2:{ run_step H as []. run_end H. exfalso. apply Hok. right. right. reflexivity. }
  clear Hok.
  run_step H as []. run_step H as VAO. run_step H as []. run_step H as VBO.
  run_step H as []. run_step H as EBO. do 6 (run_step H as []).
  run_ret H.
  apply run_bind_inv in H as (calls1 & ? & shader & -> & Hnew & H). cbn beta in H.
  unfold files_without_NUL in HNUL. cbn [omap list_omap read_text] in HNUL.
  match type of HNUL with
  | Forall _ (omap read_text ?l) => change (files_without_NUL l) in HNUL
  end.
  apply files_without_NUL_app in HNUL as [HNUL _].
  apply Shader_new_app_run in Hnew as (a & -> & ->); [|exact HNUL].
  apply run_bind_inv in H as (calls2 & ? & [] & -> & Hloop & H). cbn beta in H.
  apply (Ex03_render_loop_run_frames _ _ _ (length calls2)) in Hloop as [locs ->];
    [|reflexivity].
  unfold glsl, Shader.delete, gl in H.
  do 3 (run_step H as []). run_end H.
  split; [reflexivity|].
  exists window, VAO, VBO, EBO, a, locs.
  unfold ex03_startup, ex03_buffers, ex03_finish. cbn [app Shader.ID].
  repeat (f_equal; []). rewrite <- ?app_assoc. reflexivity.
Qed.

Lemma Ex03_main_runs (window : GLFWwindow) (VAO VBO EBO : GLuint) (a : ShaderAnswers)
    (locs : list (GLint * GLint)) :
  files_without_NUL (new_calls "vertex.shader" "fragment.shader" a) ->
  run Ex03.main
    (ex03_startup window ++ ex03_buffers VAO VBO EBO
     ++ new_calls "vertex.shader" "fragment.shader" a
     ++ ex03_frames window VAO (sa_ID a) locs
     ++ ex03_finish (sa_ID a)) 0.
Proof.
  intros HNUL.
  unfold Ex03.main, glfw, stdio, draw, mbind, itree_mbind, mret, itree_mret.
  remember (new_calls "vertex.shader" "fragment.shader" a
            ++ ex03_frames window VAO (sa_ID a) locs
            ++ ex03_finish (sa_ID a)) as rest eqn:Hrest.
  unfold ex03_startup, ex03_buffers. cbn [app].
  do 19 run_vis.
  eapply run_observe; [symmetry; apply observe_subst|]. cbn.
  subst rest.
  apply run_bind with {| Shader.ID := sa_ID a |}; [now apply Shader_new_app_runs|].
  apply run_bind with tt.
  - apply (Ex03_render_loop_frames_run window VAO {| Shader.ID := sa_ID a |}).
  - unfold ex03_finish, glsl, Shader.delete, gl. do 3 run_vis.
    eapply run_Ret. reflexivity.
Qed.

(** X22: the runs of [main] in ex03_Shaders/main.cpp that get through the
    initialization, where no file that is read holds a NUL character, so
    that [glShaderSource] reads each file whole.  They are exactly these:
    the start of GLFW, the window and the loader; the viewport, the indices
    and the vertices; the [Shader] constructor on vertex.shader and
    fragment.shader; any number of frames, each one using the program,
    setting uColor to blue for the first rectangle and to red for the
    second, and asking for the location of uColor both times; and then
    [glfwTerminate], the greeting on the output stream, and the end of
    [shader].  Every such run returns 0. *)
Theorem Ex03_main_success (calls : list (Answered appE)) (status : Z) :
  files_without_NUL calls ->
  run Ex03.main calls status /\ ~ initialization_failed calls
  <-> status = 0
      /\ exists window VAO VBO EBO a locs,
          calls = ex03_startup window ++ ex03_buffers VAO VBO EBO
                  ++ new_calls "vertex.shader" "fragment.shader" a
                  ++ ex03_frames window VAO (sa_ID a) locs
                  ++ ex03_finish (sa_ID a).
Proof.
  intros HNUL. split.
  - intros [Hrun Hok]. now apply Ex03_main_run.
  - intros (-> & window & VAO & VBO & EBO & a & locs & ->).
    apply files_without_NUL_app in HNUL as [_ HNUL].
    apply files_without_NUL_app in HNUL as [_ HNUL].
    apply files_without_NUL_app in HNUL as [HNUL _].
    split; [now apply Ex03_main_runs|].
    unfold initialization_failed, glfwInit_failed, glfwCreateWindow_failed,
      gladLoadGLLoader_failed.
    simpl. intros [H | [H | H]]; discriminate H.
Qed.

Lemma Ex03_main_success_witness :
  let a :=
    {| sa_vFile := Some "#version 330 core"; sa_fFile := None;
       sa_vert := 1; sa_vert_status := 1; sa_vert_log := "";
       sa_frag := 2; sa_frag_status := 0; sa_frag_log := "0:1(1): error";
       sa_ID := 3; sa_link_status := 0; sa_link_log := "error: linking" |} in
  let calls : list (Answered appE) :=
    ex03_startup 1 ++ ex03_buffers 1 2 3
    ++ new_calls "vertex.shader" "fragment.shader" a
    ++ ex03_frames 1 1 3 [(0, 0)]
    ++ ex03_finish 3 in
  run Ex03.main calls 0 /\ ~ initialization_failed calls
  <-> 0 = 0
      /\ exists window VAO VBO EBO a locs,
          calls = ex03_startup window ++ ex03_buffers VAO VBO EBO
                  ++ new_calls "vertex.shader" "fragment.shader" a
                  ++ ex03_frames window VAO (sa_ID a) locs
                  ++ ex03_finish (sa_ID a).
Proof.
  intros a calls. apply (Ex03_main_success calls 0).
  unfold files_without_NUL. vm_compute. repeat constructor.
Defined.

(** ** [main] of HelloWorld_GL.cpp against the GL's state *)

Lemma hello_program_world (drv : Driver) (w w' : World)
    (vertexShader fragmentShader shaderProgram : GLuint) (success : GLint) (infoLog : string)
    (rest : list (Answered glslE)) :
  world_run drv w
    (glsl_calls (hello_program vertexShader fragmentShader shaderProgram success infoLog)
     ++ rest) w' ->
  glsl_cerr_text
    (glsl_calls (hello_program vertexShader fragmentShader shaderProgram success infoLog))
  = stage_message "Vertex shader error:" 512
      (compiled drv GL_VERTEX_SHADER HelloWorldGL.vertexShaderSource).
Proof.
  intros H. destruct w as [st fs err out].
  unfold hello_program, glsl_calls in *. rewrite !omap_app in *.
  rewrite <- !app_assoc in H.
  apply world_run_app_inv in H as (w1 & H1 & H2).
  apply world_run_app_inv in H2 as (w2 & H2 & _).
  cbn [omap list_omap glsl_call_of world_run] in H1.
  destruct H1 as (Hshader & _ & _ & Hsuccess & ->).
  cbn [glsl_call shader_call gl_state files cerr cout is_stage fst snd with_shaders shaders]
    in Hshader, Hsuccess, H2.
  subst vertexShader.
  rewrite !alter_insert_eq in Hsuccess, H2.
  cbn [so_type so_source so_compile_status so_info_log so_delete_status String.concat]
    in Hsuccess, H2.
  fold (compiled drv GL_VERTEX_SHADER HelloWorldGL.vertexShaderSource) in Hsuccess, H2.
  rewrite lookup_insert_eq in Hsuccess.
  rewrite (bool_decide_true (GL_COMPILE_STATUS = GL_COMPILE_STATUS)) in Hsuccess
    by reflexivity.
  subst success. unfold stage_message, GLint in *. rewrite not_GLboolean in *.
  destruct (so_compile_status (compiled drv GL_VERTEX_SHADER HelloWorldGL.vertexShaderSource));
    cbn [negb] in *.
  - reflexivity.
  - cbn [omap list_omap glsl_call_of world_run] in H2.
    destruct H2 as (HinfoLog & _).
    cbn [glsl_call shader_call io_call gl_state files cerr cout fst snd with_shaders shaders]
      in HinfoLog.
    unfold GLuint, GLint in HinfoLog.
    rewrite lookup_insert_eq in HinfoLog. subst infoLog.
    unfold glsl_cerr_text.
    cbn [foldr app omap list_omap glsl_call_of glsl_cerr_of].
    now rewrite !append_nil_l, ?append_nil_r.
Qed.

Lemma frames_cerr (window : GLFWwindow) (VAO shaderProgram : GLuint)
    (keys : list GLFWaction) :
  glsl_cerr_text (glsl_calls (frames window VAO shaderProgram keys)) = "".
Proof.
  unfold frames. rewrite glsl_calls_app, glsl_cerr_text_app.
  induction keys as [|key keys IH]; [reflexivity|].
  cbn [flat_map]. rewrite glsl_calls_app, glsl_cerr_text_app, append_assoc, IH.
  now destruct key.
Qed.

(** X23: what [main] of HelloWorld_GL.cpp writes to the error stream when it
    gets through the initialization and the GL answers its calls: the
    message for the vertex stage when the compiler rejects the vertex
    source, and nothing else.  A fragment source that the compiler rejects
    and a program that does not link are not reported, and the render loop
    runs all the same. *)
Theorem HelloWorldGL_main_diagnostics (drv : Driver) (w w' : World)
    (calls : list (Answered appE)) (status : Z) :
  run HelloWorldGL.main calls status ->
  ~ initialization_failed calls ->
  world_run drv w (glsl_calls calls) w' ->
  cerr w' = cerr w
            +:+ stage_message "Vertex shader error:" 512
                  (compiled drv GL_VERTEX_SHADER HelloWorldGL.vertexShaderSource).
Proof.
  intros Hrun Hok Hworld.
  destruct (HelloWorldGL_main_run calls status Hrun Hok)
    as (_ & window & VAO & VBO & vertexShader & fragmentShader & shaderProgram
        & success & infoLog & keys & ->).
  destruct (world_run_cerr_text _ _ _ _ Hworld) as [-> _].
  rewrite !glsl_calls_app in Hworld |- *.
  change (glsl_calls (hello_startup window)) with (@nil (Answered glslE)) in *.
  change (glsl_calls (hello_buffers VAO VBO)) with (@nil (Answered glslE)) in *.
  change (glsl_calls [answered (inl1 GlfwTerminate) tt]) with (@nil (Answered glslE)) in *.
  cbn [app] in Hworld |- *.
  apply hello_program_world in Hworld as Hmessage.
  rewrite !glsl_cerr_text_app, Hmessage, frames_cerr.
  change (glsl_cerr_text []) with "". now rewrite !append_nil_r.
Qed.

Lemma HelloWorldGL_main_diagnostics_witness :
  let log := "0:1(1): error: syntax error, unexpected end of file" in
  let calls : list (Answered appE) :=
    hello_startup 1 ++ hello_buffers 1 2
    ++ hello_program 4 5 6 0 log
    ++ frames 1 1 6 [GLFW_RELEASE; GLFW_PRESS]
    ++ [answered (inl1 GlfwTerminate) tt] in
  exists w',
    world_run driver_example world_example (glsl_calls calls) w'
    /\ cerr w' = "Vertex shader error:" +:+ nl +:+ log +:+ nl.
Proof.
  intros log calls.
  exists (world_after driver_example world_example (glsl_calls calls)).
  assert (Hworld : world_run driver_example world_example (glsl_calls calls)
                     (world_after driver_example world_example (glsl_calls calls))).
  { vm_compute. repeat split. }
  split; [exact Hworld|].
  etransitivity.
  - apply (HelloWorldGL_main_diagnostics driver_example world_example _ calls 0).
    + exact (HelloWorldGL_main_runs 1 1 2 4 5 6 0 log [GLFW_RELEASE; GLFW_PRESS]).
    + intros [H | [H | H]]; discriminate H.
    + exact Hworld.
  - vm_compute. reflexivity.
Defined.
